(** * pjsk-render: the scheduling, score-solver, plan-search and snapshot core

    A shallow embedding of the pure core of [bot.py], [render_funcs.py]
    and [render_server.py]:

    - [parse_time_range]                       (hour-range expressions),
    - [find_solution]                          (score decomposition),
    - [is_signup_closed], [auto_assign_schedule], [refresh_schedule]
                                               (the schedule engine),
    - [find_push_plans]                        (catch-up plan search),
    - [record_ranking_snapshot]                (hourly snapshot store),
    - [signup_cmd], [SignupScheduleModal.on_submit], [cancel_cmd],
      [confirm_cmd], [reset_hours_cmd]         (the schedule commands),
    - [create_ranking_chart]                   (the series of the chart),
    - [resolve_colors_deep] of [render_server.py]
                                               (colour references).

    Conventions of the embedding.

    - Python [int] is [Z]; [//] and [%] are [Z.div] and [Z.modulo], which
      round towards minus infinity as Python does.  A zero divisor raises.
    - The [float] values of the schedule (bonus multipliers, hours) are
      embedded as exact rationals [Q].  The numbers of the plan search are
      [PyNum.num]: an [int] or a binary64 [float], with the rounding, the
      conversions and the exceptions of Python's arithmetic.
    - Python [str] is [string]; the comparison of two [str] is the
      lexicographic order on code points, which on UTF-8 bytes is
      [String.ltb].
    - A [dict] used as a struct is a record; a [dict] used as a map is a
      [gmap].  A key that may be absent is an [option] field.
    - Exceptions are values of [result]. *)

From Stdlib Require Import ZArith QArith Qround String Ascii List Lia Bool.
From Stdlib Require Import SpecFloat.
From stdpp Require Import base option list sorting gmap strings pretty.

Open Scope string_scope.
Open Scope list_scope.
Open Scope Z_scope.

(** ** Python primitives *)

Module Py.

Inductive exn : Type :=
| ZeroDivisionError
| KeyError
| ValueError
| OverflowError.

Inductive result (A : Type) : Type :=
| Ok (a : A)
| Raise (e : exn).
Arguments Ok {A} a.
Arguments Raise {A} e.

#[export] Instance result_ret : MRet result := fun _ a => Ok a.

#[export] Instance result_bind : MBind result := fun _ _ k m =>
  match m with
  | Ok a => k a
  | Raise e => Raise e
  end.

(** [a % b] *)
Definition mod_ (a b : Z) : result Z :=
  if b =? 0 then Raise ZeroDivisionError else Ok (a mod b).

(** [a // b] *)
Definition floordiv (a b : Z) : result Z :=
  if b =? 0 then Raise ZeroDivisionError else Ok (a / b).

(** [range(a, b)] *)
Definition range (a b : Z) : list Z := seqZ a (b - a).

(** [range(a, b, -1)]: a, a-1, ..., b+1 *)
Definition range_down (a b : Z) : list Z :=
  map (fun i => a - i) (seqZ 0 (a - b)).

(** The character of a decimal digit [0 <= d < 10]. *)
Definition digit_char (d : Z) : ascii := ascii_of_nat (48 + Z.to_nat d).

Definition is_digit (c : ascii) : bool :=
  let n := nat_of_ascii c in (48 <=? n)%nat && (n <=? 57)%nat.

Definition digit_val (c : ascii) : Z := Z.of_nat (nat_of_ascii c) - 48.

(** [int(s)] on a string of ASCII decimal digits, and [ValueError]
    otherwise: the sign, the surrounding blanks, the underscores and the
    other Unicode decimal digits that [int] also takes are left out. *)
Fixpoint int_digits (acc : Z) (s : string) : result Z :=
  match s with
  | EmptyString => Ok acc
  | String c r =>
      if is_digit c then int_digits (10 * acc + digit_val c) r
      else Raise ValueError
  end.

Definition int_of_str (s : string) : result Z :=
  match s with
  | EmptyString => Raise ValueError
  | _ => int_digits 0 s
  end.

(** [f"{n:02d}"] for [0 <= n]: decimal, padded with a zero to two places. *)
Definition fmt_02d (n : Z) : string :=
  if n <? 10 then String "0"%char (String (digit_char n) EmptyString)
  else pretty n.

(** [round(x)]: to the nearest integer, ties to the even one. *)
Definition round_half_even (x : Q) : Z :=
  let f := Qfloor x in
  match Qcompare (x - inject_Z f) (1 # 2) with
  | Lt => f
  | Gt => f + 1
  | Eq => if Z.even f then f else f + 1
  end.

(** [sorted(l, key=...)] as a stable insertion sort, for the strict order
    [lt] that the keys induce: an element moves past those of its right
    neighbours that are strictly smaller. *)
Fixpoint insert_by {A} (lt : A -> A -> bool) (x : A) (l : list A) : list A :=
  match l with
  | [] => [x]
  | y :: l' => if lt y x then y :: insert_by lt x l' else x :: l
  end.

Definition sorted_by {A} (lt : A -> A -> bool) (l : list A) : list A :=
  foldr (insert_by lt) [] l.

End Py.

Import Py.

(** ** Python numbers: [int] and [float] *)

Module PyNum.

(** A [float] is a binary64 number: [spec_float] with a precision of 53
    bits and infinities at the exponent 1024; its operations are those of
    the specification of IEEE 754 arithmetic, rounding to nearest with
    ties to even. *)
Definition prec : Z := 53.
Definition emax : Z := 1024.

(** A number as the arithmetic of [find_push_plans] meets it: an [int]
    or a [float]. *)
Inductive num : Type :=
| Int (n : Z)
| Flt (x : spec_float).

Definition is_inf (x : spec_float) : bool :=
  match x with
  | S754_infinity _ => true
  | _ => false
  end.

Definition is_zero (x : spec_float) : bool :=
  match x with
  | S754_zero _ => true
  | _ => false
  end.

(** A conversion or an integer division whose rounded result is out of
    range raises [OverflowError]. *)
Definition finite_or_overflow (x : spec_float) : result spec_float :=
  if is_inf x then Raise OverflowError else Ok x.

(** [float(n)] for an [int]: the nearest float. *)
Definition of_int (n : Z) : result spec_float :=
  finite_or_overflow (binary_normalize prec emax n 0 false).

(** [a / b] for two [int]: the float nearest to the quotient. *)
Definition int_truediv (a b : Z) : result spec_float :=
  if b =? 0 then Raise ZeroDivisionError
  else if a =? 0 then Ok (S754_zero (b <? 0))
  else
    let '(mz, ez, lz) :=
      SFdiv_core_binary prec emax (Z.abs a) 0 (Z.abs b) 0 in
    finite_or_overflow
      (binary_round_aux prec emax (xorb (a <? 0) (b <? 0)) mz ez lz).

(** The conversion of an operand of mixed arithmetic. *)
Definition to_float (x : num) : result spec_float :=
  match x with
  | Int n => of_int n
  | Flt f => Ok f
  end.

(** [x + y] *)
Definition add (x y : num) : result num :=
  match x, y with
  | Int a, Int b => Ok (Int (a + b))
  | _, _ => a ← to_float x; b ← to_float y; Ok (Flt (SFadd prec emax a b))
  end.

(** [x - y] *)
Definition sub (x y : num) : result num :=
  match x, y with
  | Int a, Int b => Ok (Int (a - b))
  | _, _ => a ← to_float x; b ← to_float y; Ok (Flt (SFsub prec emax a b))
  end.

(** [x * y] *)
Definition mul (x y : num) : result num :=
  match x, y with
  | Int a, Int b => Ok (Int (a * b))
  | _, _ => a ← to_float x; b ← to_float y; Ok (Flt (SFmul prec emax a b))
  end.

(** [x / y]: a zero divisor raises, also for floats. *)
Definition truediv (x y : num) : result num :=
  match x, y with
  | Int a, Int b => f ← int_truediv a b; Ok (Flt f)
  | _, _ =>
      a ← to_float x; b ← to_float y;
      if is_zero b then Raise ZeroDivisionError
      else Ok (Flt (SFdiv prec emax a b))
  end.

(** The comparison of an [int] with a [float] is exact; nothing compares
    with a NaN. *)
Definition compare_int_float (a : Z) (x : spec_float) : option comparison :=
  match x with
  | S754_nan => None
  | S754_infinity s => Some (if s then Gt else Lt)
  | S754_zero _ => Some (a ?= 0)
  | S754_finite s m e =>
      let v := if s then Z.neg m else Z.pos m in
      Some (match e with
            | Z.neg p => (a * 2 ^ Z.pos p ?= v)
            | _ => (a ?= v * 2 ^ e)
            end)
  end.

Definition compare (x y : num) : option comparison :=
  match x, y with
  | Int a, Int b => Some (a ?= b)
  | Int a, Flt f => compare_int_float a f
  | Flt f, Int b => option_map CompOpp (compare_int_float b f)
  | Flt f, Flt g => SFcompare f g
  end.

(** [x < y] *)
Definition lt (x y : num) : bool :=
  match compare x y with
  | Some Lt => true
  | _ => false
  end.

(** [x <= y] *)
Definition le (x y : num) : bool :=
  match compare x y with
  | Some (Lt | Eq) => true
  | _ => false
  end.

(** [int(x)]: truncation towards zero; a NaN raises [ValueError], an
    infinity [OverflowError]. *)
Definition int_of (x : num) : result Z :=
  match x with
  | Int n => Ok n
  | Flt S754_nan => Raise ValueError
  | Flt (S754_infinity _) => Raise OverflowError
  | Flt (S754_zero _) => Ok 0
  | Flt (S754_finite s m e) =>
      let a := match e with
               | Z.neg p => Z.pos m / 2 ^ Z.pos p
               | _ => Z.pos m * 2 ^ e
               end in
      Ok (if s then - a else a)
  end.

(** [math.ceil(x)] *)
Definition ceil (x : num) : result Z :=
  match x with
  | Int n => Ok n
  | Flt S754_nan => Raise ValueError
  | Flt (S754_infinity _) => Raise OverflowError
  | Flt (S754_zero _) => Ok 0
  | Flt (S754_finite s m e) =>
      let v := if s then Z.neg m else Z.pos m in
      Ok (match e with
          | Z.neg p => - ((- v) / 2 ^ Z.pos p)
          | _ => v * 2 ^ e
          end)
  end.

(** The integer nearest to [v / d] for [0 < d], ties to the even one. *)
Definition div_half_even (v d : Z) : Z :=
  let q := v / d in
  let r := v mod d in
  match 2 * r ?= d with
  | Lt => q
  | Gt => q + 1
  | Eq => if Z.even q then q else q + 1
  end.

(** [round(x)] *)
Definition round (x : num) : result Z :=
  match x with
  | Int n => Ok n
  | Flt S754_nan => Raise ValueError
  | Flt (S754_infinity _) => Raise OverflowError
  | Flt (S754_zero _) => Ok 0
  | Flt (S754_finite s m e) =>
      let v := if s then Z.neg m else Z.pos m in
      Ok (match e with
          | Z.neg p => div_half_even v (2 ^ Z.pos p)
          | _ => v * 2 ^ e
          end)
  end.

(** [round(x, 1)]: an [int] is returned as it is; a finite float is
    rounded to the decimal with one digit nearest to its value (ties to
    the even digit), and the float nearest to that decimal is returned,
    with the sign of [x] when it is zero. *)
Definition round1 (x : num) : result num :=
  match x with
  | Int n => Ok (Int n)
  | Flt (S754_finite s m e) =>
      let v := if s then Z.neg m else Z.pos m in
      let k := match e with
               | Z.neg p => div_half_even (10 * v) (2 ^ Z.pos p)
               | _ => 10 * v * 2 ^ e
               end in
      if k =? 0 then Ok (Flt (S754_zero s))
      else f ← int_truediv k 10; Ok (Flt f)
  | Flt f => Ok (Flt f)
  end.

(** The float of the decimal literal [m * 10^e]: the nearest one. *)
Definition dec (m e : Z) : spec_float :=
  match (match e with
         | Z.neg p => int_truediv m (10 ^ Z.pos p)
         | _ => of_int (m * 10 ^ e)
         end) with
  | Ok f => f
  | Raise _ => S754_infinity (m <? 0)
  end.

(** The value of a number that has one, as a rational. *)
Definition value (x : num) : option Q :=
  match x with
  | Int n => Some (inject_Z n)
  | Flt (S754_zero _) => Some 0%Q
  | Flt (S754_finite s m e) =>
      Some (inject_Z (if s then Z.neg m else Z.pos m) * Qpower 2 e)%Q
  | Flt _ => None
  end.

End PyNum.

(** ** Hour-range expressions: [parse_time_range] *)

Module TimeRange.

(** The ways [\d{1,2}] can match a prefix of [s], in the order the greedy
    matcher tries them: two digits first, then one.  Each alternative is
    the matched group and the rest of the input. *)
Definition digits12 (s : string) : list (string * string) :=
  match s with
  | String c1 (String c2 r) =>
      if is_digit c1 then
        if is_digit c2
        then [(String c1 (String c2 EmptyString), r);
              (String c1 EmptyString, String c2 r)]
        else [(String c1 EmptyString, String c2 r)]
      else []
  | String c1 EmptyString =>
      if is_digit c1 then [(String c1 EmptyString, EmptyString)] else []
  | EmptyString => []
  end.

(** [re.match(r'(\d{1,2})-(\d{1,2})', s)]: the two groups of the first
    successful alternative; the match is anchored at the start only, so
    whatever follows the second group is ignored. *)
Fixpoint match_after_first (alts : list (string * string))
  : option (string * string) :=
  match alts with
  | [] => None
  | (g1, String "-"%char r) :: alts' =>
      match digits12 r with
      | (g2, _) :: _ => Some (g1, g2)
      | [] => match_after_first alts'
      end
  | _ :: alts' => match_after_first alts'
  end.

Definition re_match (s : string) : option (string * string) :=
  match_after_first (digits12 s).

(** [f"{h%24:02d}:00"] *)
Definition hour_label (h : Z) : string := fmt_02d (h mod 24) +:+ ":00".

Definition parse_time_range (s : string) : result (list string) :=
  match re_match s with
  | Some (g1, g2) =>
      a ← int_of_str g1;
      b ← int_of_str g2;
      let b := if b <=? a then b + 24 else b in
      Ok (map hour_label (range a b))
  | None => Ok []
  end.

(** A decimal rendering of [n] on one or two digits. *)
Inductive renders : string -> Z -> Prop :=
| renders1 d :
    0 <= d < 10 ->
    renders (String (digit_char d) EmptyString) d
| renders2 d1 d0 :
    0 <= d1 < 10 -> 0 <= d0 < 10 ->
    renders (String (digit_char d1) (String (digit_char d0) EmptyString))
            (10 * d1 + d0).

End TimeRange.

(** ** The score solver: [ScoreTable] and [find_solution] *)

Module Solver.

(** A value of [score_map]: the tuple [(rng, bonus, e)] of the source
    range, the bonus multiplier and the energy level that reach a score. *)
Abbreviation entry := (string * Q * Z)%type.

(** The attributes of a [ScoreTable] object. *)
Record ScoreTable : Type := {
  score_map : gmap Z entry;
  scores : list Z;
  score_set : gset Z
}.

(** [sorted(keys, reverse=True)] as an insertion sort. *)
Fixpoint insert_desc (x : Z) (l : list Z) : list Z :=
  match l with
  | [] => [x]
  | y :: l' => if y <? x then x :: l else y :: insert_desc x l'
  end.

Definition sorted_desc (l : list Z) : list Z := foldr insert_desc [] l.

(** The end of [ScoreTable.__init__]: once the spreadsheet has been folded
    into [score_map], [scores] is the descending list of its keys and
    [score_set] the set of them. *)
Definition table_of (m : gmap Z entry) : ScoreTable :=
  let ss := sorted_desc ((map_to_list m).*1) in
  {| score_map := m; scores := ss; score_set := list_to_set ss |}.

(** One term of a solution: the dict built by the inner function [ms]. *)
Record term : Type := {
  t_range : string;
  t_bonus : Q;
  t_energy : Z;
  t_score : Z;
  t_plays : Z;
  t_total : Z
}.

(** [ms(s, p)]; [tbl.score_map[s]] raises [KeyError] on a missing key. *)
Definition ms (tbl : ScoreTable) (s p : Z) : result term :=
  match score_map tbl !! s with
  | Some (rng, b, e) =>
      Ok {| t_range := rng; t_bonus := b; t_energy := e;
            t_score := s; t_plays := p; t_total := s * p |}
  | None => Raise KeyError
  end.

(** The first loop: [for s in tbl.scores: if s<=target and target%s==0
    and target//s<=max_plays: return [ms(s,target//s)]]. *)
Fixpoint single_pass (tbl : ScoreTable) (target max_plays : Z)
    (ss : list Z) : result (option (list term)) :=
  match ss with
  | [] => Ok None
  | s :: ss' =>
      if s <=? target then
        r ← mod_ target s;
        if r =? 0 then
          q ← floordiv target s;
          if q <=? max_plays then
            p ← floordiv target s;
            t ← ms tbl s p;
            Ok (Some [t])
          else single_pass tbl target max_plays ss'
        else single_pass tbl target max_plays ss'
      else single_pass tbl target max_plays ss'
  end.

(** The inner loop of the second pass, over the repeat counts [ps]. *)
Fixpoint plays_loop (tbl : ScoreTable) (target s1 : Z) (ps : list Z)
  : result (option (list term)) :=
  match ps with
  | [] => Ok None
  | p1 :: ps' =>
      let rem := target - s1 * p1 in
      if rem =? 0 then
        t ← ms tbl s1 p1; Ok (Some [t])
      else if bool_decide (rem ∈ score_set tbl) then
        t1 ← ms tbl s1 p1; t2 ← ms tbl rem 1; Ok (Some [t1; t2])
      else plays_loop tbl target s1 ps'
  end.

(** The second loop: [for s1 in tbl.scores: if s1>target: continue;
    for p1 in range(min(target//s1, max_plays), 0, -1): ...]. *)
Fixpoint pair_pass (tbl : ScoreTable) (target max_plays : Z)
    (ss : list Z) : result (option (list term)) :=
  match ss with
  | [] => Ok None
  | s1 :: ss' =>
      if target <? s1 then pair_pass tbl target max_plays ss'
      else
        q ← floordiv target s1;
        r ← plays_loop tbl target s1 (range_down (Z.min q max_plays) 0);
        match r with
        | Some sol => Ok (Some sol)
        | None => pair_pass tbl target max_plays ss'
        end
  end.

Definition default_max_plays : Z := 50.

(** [find_solution(tbl, target, max_plays=50)]; the module-level [table]
    is [None] until a spreadsheet is loaded. *)
Definition find_solution (tbl : option ScoreTable) (target max_plays : Z)
  : result (option (list term)) :=
  match tbl with
  | None => Ok None
  | Some tbl =>
      if target <=? 0 then Ok None
      else
        r ← single_pass tbl target max_plays (scores tbl);
        match r with
        | Some sol => Ok (Some sol)
        | None => pair_pass tbl target max_plays (scores tbl)
        end
  end.

(** *** The solver as the specification words it *)

(** A catalog value qualifies for the single-value pass. *)
Definition qualifies (target max_plays s : Z) : Prop :=
  s <= target /\ target mod s = 0 /\ target / s <= max_plays.

(** The pairs [(s1, p1)] the two-value pass tries, in its order: [s1]
    through the catalog as listed, kept when [s1 <= target], and for each
    [s1] the count [p1] from [min(target div s1, maxRepeats)] down to 1. *)
Definition candidates (ss : list Z) (target max_plays : Z)
  : list (Z * Z) :=
  s1 ← filter (fun s1 => s1 <= target) ss;
  p1 ← range_down (Z.min (target / s1) max_plays) 0;
  [(s1, p1)].

(** A pair is a find when its remainder is zero or a catalog value. *)
Definition is_find (m : gmap Z entry) (target : Z) (c : Z * Z) : bool :=
  let rem := target - c.1 * c.2 in
  (rem =? 0) || bool_decide (is_Some (m !! rem)).

(** The terms reported for a find. *)
Definition terms_of (target : Z) (c : Z * Z) : list (Z * Z) :=
  let rem := target - c.1 * c.2 in
  if rem =? 0 then [(c.1, c.2)] else [(c.1, c.2); (rem, 1)].

(** The first find, if any. *)
Definition two_value_spec (m : gmap Z entry) (ss : list Z)
    (target max_plays : Z) : option (list (Z * Z)) :=
  terms_of target <$> head (filter (fun c => is_find m target c = true)
                                   (candidates ss target max_plays)).

(** A list in descending order. *)
Definition descending : list Z -> Prop := StronglySorted (fun a b => b <= a).

(** Each term of a solution carries the catalog entry of its score. *)
Definition annotated (m : gmap Z entry) (r : option (list term)) : Prop :=
  forall sol, r = Some sol ->
    Forall (fun t => m !! t_score t = Some (t_range t, t_bonus t, t_energy t)
                     /\ t_total t = t_score t * t_plays t) sol.

(** The score and the repeat count of each term of a solution. *)
Definition shape (sol : list term) : list (Z * Z) :=
  map (fun t => (t_score t, t_plays t)) sol.

(** How many times the score [s] is played in a solution. *)
Definition uses (s : Z) (sol : list term) : Z :=
  foldr (fun t acc => (if t_score t =? s then t_plays t else 0) + acc) 0 sol.

(** The points a solution adds up to. *)
Definition sum_totals (sol : list term) : Z :=
  foldr (fun t acc => t_total t + acc) 0 sol.

Definition entry0 : entry := ("0~0", 1%Q, 0).

Definition catalog (ss : list Z) : gmap Z entry :=
  list_to_map (map (fun s => (s, entry0)) ss).

#[export] Instance qualifies_dec target max_plays s :
  Decision (qualifies target max_plays s).
Proof. unfold qualifies. apply _. Defined.

End Solver.

(** ** The schedule engine *)

Module Schedule.

(** *** Naive datetimes *)

(** A [datetime]: the date as its proleptic ordinal ([date.toordinal()]),
    and the time of day. *)
Record datetime : Type := {
  dt_ordinal : Z;
  dt_hour : Z;
  dt_minute : Z;
  dt_second : Z;
  dt_microsecond : Z
}.

(** Microseconds since the start of ordinal day 0. *)
Definition micros (d : datetime) : Z :=
  (((dt_ordinal d * 24 + dt_hour d) * 60 + dt_minute d) * 60
   + dt_second d) * 1000000 + dt_microsecond d.

(** A [timedelta], in microseconds. *)
Definition timedelta_hours (h : Z) : Z := h * 3600 * 1000000.
Definition timedelta_days (d : Z) : Z := d * 86400 * 1000000.

(** [now.replace(hour=sh, minute=0, second=0, microsecond=0)] *)
Definition replace_hour (d : datetime) (sh : Z) : result datetime :=
  if (0 <=? sh) && (sh <? 24) then
    Ok {| dt_ordinal := dt_ordinal d; dt_hour := sh; dt_minute := 0;
          dt_second := 0; dt_microsecond := 0 |}
  else Raise ValueError.

(** [d + timedelta(days=n)] *)
Definition add_days (d : datetime) (n : Z) : datetime :=
  {| dt_ordinal := dt_ordinal d + n; dt_hour := dt_hour d;
     dt_minute := dt_minute d; dt_second := dt_second d;
     dt_microsecond := dt_microsecond d |}.

(** [(a - b).total_seconds()] *)
Definition total_seconds (a b : datetime) : Q :=
  (inject_Z (micros a - micros b) / 1000000)%Q.

(** *** Applicants, shifts and slots *)

(** An applicant dict, as the sign-up commands build it. *)
Record applicant : Type := {
  user_id : string;
  name : string;
  bonus : Q;
  bonus_2 : Q;
  bonus_3 : Q;
  s6_bonus : Q;
  power : Z;
  s6_power : Z;
  multi : string;
  role : string;
  a_note : string;
  registered_at : string
}.

Definition set_bonus (a : applicant) (b : Q) : applicant :=
  {| user_id := user_id a; name := name a; bonus := b;
     bonus_2 := bonus_2 a; bonus_3 := bonus_3 a; s6_bonus := s6_bonus a;
     power := power a; s6_power := s6_power a; multi := multi a;
     role := role a; a_note := a_note a; registered_at := registered_at a |}.

Definition set_name (a : applicant) (n : string) : applicant :=
  {| user_id := user_id a; name := n; bonus := bonus a;
     bonus_2 := bonus_2 a; bonus_3 := bonus_3 a; s6_bonus := s6_bonus a;
     power := power a; s6_power := s6_power a; multi := multi a;
     role := role a; a_note := a_note a; registered_at := registered_at a |}.

(** The fixed leader [{"name":"omega","fixed":True}]. *)
Record leader : Type := { l_name : string; l_fixed : bool }.

(** The dict [auto_assign_schedule] builds; its ten keys are fixed. *)
Record shift : Type := {
  car_type : string;
  p1 : leader;
  p2 : option applicant;
  p3 : option applicant;
  p4 : option applicant;
  p5 : option applicant;
  support : option applicant;
  avg_bonus : Q;
  note : string
}.

(** [shift[positions[i]] = c] for [positions = ["p3","p4","p5"]]; the
    callers only write at [i < 3]. *)
Definition set_position (sh : shift) (i : nat) (c : applicant) : shift :=
  match i with
  | 0%nat => {| car_type := car_type sh; p1 := p1 sh; p2 := p2 sh;
                p3 := Some c; p4 := p4 sh; p5 := p5 sh;
                support := support sh; avg_bonus := avg_bonus sh;
                note := note sh |}
  | 1%nat => {| car_type := car_type sh; p1 := p1 sh; p2 := p2 sh;
                p3 := p3 sh; p4 := Some c; p5 := p5 sh;
                support := support sh; avg_bonus := avg_bonus sh;
                note := note sh |}
  | 2%nat => {| car_type := car_type sh; p1 := p1 sh; p2 := p2 sh;
                p3 := p3 sh; p4 := p4 sh; p5 := Some c;
                support := support sh; avg_bonus := avg_bonus sh;
                note := note sh |}
  | _ => sh
  end.

Definition set_avg_bonus (sh : shift) (b : Q) : shift :=
  {| car_type := car_type sh; p1 := p1 sh; p2 := p2 sh; p3 := p3 sh;
     p4 := p4 sh; p5 := p5 sh; support := support sh; avg_bonus := b;
     note := note sh |}.

(** What [bot_data["schedule"][day][hour]] holds.  Every site that
    creates or updates a slot writes either the key ["applicants"] alone
    or all ten keys of a shift with it, so the ten keys are modelled as
    present together ([Some]) or absent together ([None]). *)
Record slot : Type := {
  sl_shift : option shift;
  sl_applicants : list applicant
}.

(** *** The closing window: [is_signup_closed] *)

(** [hour_str.split(":")[0]] *)
Fixpoint before_colon (s : string) : string :=
  match s with
  | EmptyString => EmptyString
  | String c r =>
      if Ascii.eqb c ":" then EmptyString else String c (before_colon r)
  end.

(** [TIME_SLOTS[h]], that is [f"{h:02d}:00"]. *)
Definition time_slot (h : Z) : string := fmt_02d h +:+ ":00".

(** [sd.get("p2") is not None] for
    [sd = bot_data.get("schedule",{}).get(today,{}).get(hour_str,{})]. *)
Definition has_s6 (schedule : gmap string (gmap string slot))
    (today hour_str : string) : bool :=
  match schedule !! today ≫= (fun day => day !! hour_str) with
  | Some sl =>
      match sl_shift sl with
      | Some sh => bool_decide (is_Some (p2 sh))
      | None => false
      end
  | None => false
  end.

(** [is_signup_closed(hour_str)].  The clock is read twice, once for
    [now] and once inside [get_today()] for the key [today]; both reads
    and the schedule are arguments here.  [hu] is the exact quotient of
    the microsecond difference: a difference of one microsecond moves it
    by more than a binary64 rounding error, so the tests [hu<=1] and
    [hu<=2] come out as on the floats. *)
Definition is_signup_closed (now : datetime) (today : string)
    (schedule : gmap string (gmap string slot)) (hour_str : string)
  : result (bool * string) :=
  match int_of_str (before_colon hour_str) with
  | Raise _ => Ok (false, "")
  | Ok sh =>
      st ← replace_hour now sh;
      let st :=
        if micros st <? micros now - timedelta_hours 12
        then add_days st 1 else st in
      let hu := (total_seconds st now / 3600)%Q in
      if Qle_bool hu 1 then
        Ok (true, hour_str +:+ " 已截止（前1h）")
      else if Qle_bool hu 2 && has_s6 schedule today hour_str then
        Ok (true, hour_str +:+ " 已截止（前2h，S6到位）")
      else Ok (false, "")
  end.

(** The closing rule as the specification words it, on microseconds. *)

(** Today at hour [H]. *)
Definition today_at (now : datetime) (H : Z) : Z :=
  (dt_ordinal now * 24 + H) * 3600 * 1000000.

(** The slot start: today at [H], or the next calendar day when that
    instant lies more than 12 hours in the past. *)
Definition slot_start (now : datetime) (H : Z) : Z :=
  if micros now - today_at now H >? 12 * 3600 * 1000000
  then today_at now H + 24 * 3600 * 1000000
  else today_at now H.

(** The fractional hours until the slot start. *)
Definition hours_until (now : datetime) (H : Z) : Q :=
  (inject_Z (slot_start now H - micros now) / inject_Z (3600 * 1000000))%Q.

(** The slot's alt position is filled. *)
Definition alt_filled (schedule : gmap string (gmap string slot))
    (today hour_str : string) : Prop :=
  exists day sl sh a,
    schedule !! today = Some day /\ day !! hour_str = Some sl /\
    sl_shift sl = Some sh /\ p2 sh = Some a.

Definition closed_spec (now : datetime) (H : Z) (alt : Prop) : Prop :=
  (hours_until now H <= 1)%Q \/ ((hours_until now H <= 2)%Q /\ alt).

(** A sample evaluation time: 07:00:00 on the day of ordinal 739000. *)
Definition now_7am : datetime :=
  {| dt_ordinal := 739000; dt_hour := 7; dt_minute := 0;
     dt_second := 0; dt_microsecond := 0 |}.

Definition now_6_59_24 : datetime :=
  {| dt_ordinal := 739000; dt_hour := 6; dt_minute := 59;
     dt_second := 24; dt_microsecond := 0 |}.

(** *** Auto-assignment: [auto_assign_schedule] *)

(** The sort key [sk(x) = (-round(b*50)/50, t)]. *)
Definition sk (x : applicant) : Q * string :=
  ((inject_Z (- round_half_even (bonus x * 50)) / 50)%Q, registered_at x).

(** The order of Python tuples on two keys: [k1 < k2]. *)
Definition key_lt (k1 k2 : Q * string) : bool :=
  match Qcompare k1.1 k2.1 with
  | Lt => true
  | Gt => false
  | Eq => String.ltb k1.2 k2.2
  end.

(** [sorted(applicants, key=sk)] *)
Definition sorted_by_key (l : list applicant) : list applicant :=
  sorted_by (fun x y => key_lt (sk x) (sk y)) l.

(** [{'單開':1,'雙開':2,'三開':3}.get(multi, 1)] *)
Definition accs_of (multi : string) : nat :=
  if String.eqb multi "單開" then 1%nat
  else if String.eqb multi "雙開" then 2%nat
  else if String.eqb multi "三開" then 3%nat
  else 1%nat.

(** [x or y] on two floats: [x] unless it is zero. *)
Definition or_else (x y : Q) : Q := if Qeq_bool x 0 then y else x.

(** [ab = [bonus, bonus_2 or bonus, bonus_3 or bonus]] *)
Definition ab (app : applicant) : list Q :=
  [bonus app; or_else (bonus_2 app) (bonus app);
   or_else (bonus_3 app) (bonus app)].

(** The copy [c] written for account index [ai]:
    [c['bonus'] = ab[ai]], and for [ai > 0]
    [c['name'] = f"{name}({ai+1}開)"]. *)
Definition account_copy (app : applicant) (ai : nat) : applicant :=
  let c := set_bonus app (nth ai (ab app) 0%Q) in
  match ai with
  | O => c
  | S _ => set_name c (name app +:+ "(" +:+ pretty (Z.of_nat ai + 1) +:+ "開)")
  end.

(** The inner loop [for ai in range(min(accs, 3-assigned))], on the state
    [(shift, assigned)]. *)
Definition fill_accounts (app : applicant) (ais : list nat)
    (st : shift * nat) : shift * nat :=
  fold_left (fun st ai => (set_position st.1 st.2 (account_copy app ai),
                           S st.2)) ais st.

(** The outer loop [for app in psa: if assigned>=3: break; ...]. *)
Fixpoint assign_pushers (psa : list applicant) (st : shift * nat)
  : shift * nat :=
  match psa with
  | [] => st
  | app :: rest =>
      if (3 <=? st.2)%nat then st
      else
        let n := Nat.min (accs_of (multi app)) (3 - st.2) in
        assign_pushers rest (fill_accounts app (seq 0 n) st)
  end.

(** [sum(bs)/len(bs) if bs else 0] *)
Definition mean (bs : list Q) : Q :=
  match bs with
  | [] => 0%Q
  | _ => (fold_left Qplus bs 0 / inject_Z (Z.of_nat (length bs)))%Q
  end.

(** [[shift[p].get('bonus',0) for p in ["p3","p4","p5"] if shift[p]]] *)
Definition pusher_bonuses (sh : shift) : list Q :=
  omap (fmap bonus) [p3 sh; p4 sh; p5 sh].

Definition default_car_type : string := "蝦".

Definition empty_shift : shift :=
  {| car_type := default_car_type;
     p1 := {| l_name := "omega"; l_fixed := true |};
     p2 := None; p3 := None; p4 := None; p5 := None; support := None;
     avg_bonus := 0; note := "" |}.

(** [auto_assign_schedule(dt, hour, applicants)]; the result [None] is
    the empty dict [{}] returned for an empty applicant list. *)
Definition auto_assign_schedule (dt hour : string)
    (applicants : list applicant) : option shift :=
  match applicants with
  | [] => None
  | _ =>
      let sa := sorted_by_key applicants in
      let shift := empty_shift in
      let s6a := filter (fun a => role a = "s6") sa in
      let spa := filter (fun a => role a = "support") sa in
      let psa := filter (fun a => role a <> "s6" /\ role a <> "support") sa in
      let shift :=
        match s6a with
        | s6 :: _ =>
            let s6 := if negb (Qle_bool (s6_bonus s6) 0)
                      then set_bonus s6 (s6_bonus s6) else s6 in
            {| car_type := car_type shift; p1 := p1 shift; p2 := Some s6;
               p3 := p3 shift; p4 := p4 shift; p5 := p5 shift;
               support := support shift; avg_bonus := avg_bonus shift;
               note := note shift |}
        | [] => shift
        end in
      let shift :=
        match spa with
        | sp :: _ =>
            {| car_type := car_type shift; p1 := p1 shift; p2 := p2 shift;
               p3 := p3 shift; p4 := p4 shift; p5 := p5 shift;
               support := Some sp; avg_bonus := avg_bonus shift;
               note := note shift |}
        | [] => shift
        end in
      let shift := (assign_pushers psa (shift, 0%nat)).1 in
      Some (set_avg_bonus shift (mean (pusher_bonuses shift)))
  end.

(** [schedule[h].update(shift)] after [shift["applicants"]=apps]: [{}]
    (never returned for a non-empty list) would leave the ten keys as
    they are. *)
Definition update_slot (sl : slot) (sh : option shift)
    (apps : list applicant) : slot :=
  {| sl_shift := match sh with Some sh => Some sh | None => sl_shift sl end;
     sl_applicants := apps |}.

(** The body of the loop of [refresh_schedule] for the hour [h]. *)
Definition refresh_slot (dt h : string) (sl : slot) : slot :=
  match sl_applicants sl with
  | [] => sl
  | apps => update_slot sl (auto_assign_schedule dt h apps) apps
  end.

(** [refresh_schedule(dt)] on [bot_data["schedule"]]; a missing day is
    the fresh [{}] of [.get(dt,{})], which has no key to visit. *)
Definition refresh_schedule (schedule : gmap string (gmap string slot))
    (dt : string) : gmap string (gmap string slot) :=
  match schedule !! dt with
  | Some day => <[dt := map_imap (fun h sl => Some (refresh_slot dt h sl)) day]> schedule
  | None => schedule
  end.

(** *** Auto-assignment as the specification words it *)

(** The pusher candidates in sorted order. *)
Definition pusher_candidates (applicants : list applicant)
  : list applicant :=
  filter (fun a => role a <> "s6" /\ role a <> "support")
         (sorted_by_key applicants).

(** The bonus of the account of index [ai]: the primary bonus for the
    first account; for the second and third the secondary and tertiary
    bonus when it is non-zero, and the primary bonus otherwise. *)
Definition account_bonus (app : applicant) (ai : nat) : Q :=
  match ai with
  | 0%nat => bonus app
  | 1%nat => if Qeq_bool (bonus_2 app) 0 then bonus app else bonus_2 app
  | _ => if Qeq_bool (bonus_3 app) 0 then bonus app else bonus_3 app
  end.

(** The display name of the account of index [ai]. *)
Definition account_name (app : applicant) (ai : nat) : string :=
  match ai with
  | 0%nat => name app
  | _ => name app +:+ "(" +:+ pretty (Z.of_nat ai + 1) +:+ "開)"
  end.

(** The occupant for the account of index [ai] of a candidate. *)
Definition account (app : applicant) (ai : nat) : applicant :=
  set_name (set_bonus app (account_bonus app ai)) (account_name app ai).

(** The occupants a candidate asks for: one per declared account. *)
Definition accounts (app : applicant) : list applicant :=
  map (account app) (seq 0 (accs_of (multi app))).

(** The pusher positions of a shift. *)
Definition positions (sh : shift) : list (option applicant) :=
  [p3 sh; p4 sh; p5 sh].

(** The keys of a shift that the pusher loop leaves alone. *)
Definition frame (sh : shift)
  : string * leader * option applicant * option applicant * Q * string :=
  (car_type sh, p1 sh, p2 sh, support sh, avg_bonus sh, note sh).

(** The occupants of the three pusher positions, in order. *)
Definition pusher_line (psa : list applicant) : list applicant :=
  take 3 (psa ≫= accounts).

(** The contents of [p3], [p4], [p5] for a line of occupants. *)
Definition positions_of (line : list applicant) : list (option applicant) :=
  [line !! 0%nat; line !! 1%nat; line !! 2%nat].


(** A sample applicant. *)
Definition sample (n : string) (b b2 b3 : Q) (mu ro t : string)
  : applicant :=
  {| user_id := n; name := n; bonus := b; bonus_2 := b2; bonus_3 := b3;
     s6_bonus := 0; power := 200000; s6_power := 0; multi := mu;
     role := ro; a_note := ""; registered_at := t |}.

(** A sample slot whose car type and note were edited by hand, with one
    applicant. *)
Definition edited_slot : slot :=
  {| sl_shift :=
       Some {| car_type := "sage";
               p1 := {| l_name := "omega"; l_fixed := true |};
               p2 := None; p3 := None; p4 := None; p5 := None;
               support := None; avg_bonus := 0; note := "late start" |};
     sl_applicants :=
       [sample "A" 2 0 0 "單開" "pusher" "2024-04-27T06:00:00"] |}.

Definition edited_schedule : gmap string (gmap string slot) :=
  {[ "2024-04-27" := {[ "08:00" := edited_slot ]} ]}.

(** A well-formed time of day. *)
Definition valid_datetime (d : datetime) : Prop :=
  0 <= dt_hour d < 24 /\ 0 <= dt_minute d < 60 /\
  0 <= dt_second d < 60 /\ 0 <= dt_microsecond d < 1000000.

Definition now_22_30 : datetime :=
  {| dt_ordinal := 739000; dt_hour := 22; dt_minute := 30;
     dt_second := 0; dt_microsecond := 0 |}.



(** The copy seated as alt: [s6['bonus']=s6['s6_bonus']] when that is
    positive. *)
Definition alt_copy (s6 : applicant) : applicant :=
  if negb (Qle_bool (s6_bonus s6) 0) then set_bonus s6 (s6_bonus s6) else s6.

End Schedule.

(** ** The catch-up plan search: [find_push_plans] *)

Module Plans.
Import PyNum.

Definition ENERGY_MULTIPLIERS : gmap Z Z :=
  list_to_map [(0, 1); (1, 5); (2, 10); (3, 15); (4, 20); (5, 25);
               (6, 27); (7, 29); (8, 31); (9, 33); (10, 35)].

(** An entry of [SONG_DB]; [diffs] keeps the order of the JSON object. *)
Record song : Type := {
  s_id : Z;
  s_title : string;
  s_time : num;
  s_rate : num;
  s_diffs : list (string * list num)
}.

(** The literals [0.5], [0.075] and [2.2]. *)
Definition f0_5 : num := Flt (dec 5 (-1)).
Definition f0_075 : num := Flt (dec 75 (-3)).
Definition f2_2 : num := Flt (dec 22 (-1)).

(** [calc_song_score(diff_arr, live_type, power, skill_mag, s6)]; the
    caller has checked [len(diff_arr) >= 11]. *)
Definition calc_song_score (diff_arr : list num) (live_type : string)
    (power skill_mag s6 : num) : result Z :=
  let base := nth 2 diff_arr (Int 0) in
  let fever := nth 10 diff_arr (Int 0) in
  let '(i, j) := if String.eqb live_type "multi"
                 then (6%nat, 7%nat) else (4%nat, 5%nat) in
  a ← mul fever f0_5;
  b ← add base a;
  c ← mul (nth i diff_arr (Int 0)) skill_mag;
  d ← add b c;
  e ← mul (nth j diff_arr (Int 0)) s6;
  rate ← add d e;
  x ← mul rate power;
  y ← mul x (Int 4);
  int_of y.

(** [min(1000, life)] *)
Definition min_1000 (life : num) : num :=
  if lt life (Int 1000) then life else Int 1000.

(** [calc_ep_value(live_type, score, event_rate, bonus, boost_rate,
    power, life)] *)
Definition calc_ep_value (live_type : string) (score : Z)
    (event_rate bonus : num) (boost_rate : Z) (power life : num)
  : result Z :=
  score_part ←
    (if String.eqb live_type "multi" then
       a ← mul f0_075 power;
       b ← mul a (Int 5);
       c ← add (Int score) b;
       d ← truediv c (Int 17000);
       int_of d
     else
       life_part ← truediv (min_1000 life) (Int 1000);
       a ← mul (Int score) life_part;
       b ← truediv a (Int 17000);
       int_of b);
  r ← truediv event_rate (Int 100);
  x ← mul (Int (score_part + 123)) r;
  b ← truediv bonus (Int 100);
  b1 ← add b (Int 1);
  y ← mul x b1;
  n ← int_of y;
  Ok (n * boost_rate).

(** A plan: the dict appended to [by_energy[energy]]. *)
Record plan : Type := {
  title : string;
  id : Z;
  diff : string;
  lv : num;
  time : num;
  rate : num;
  energy : Z;
  boost : Z;
  ep : Z;
  eph : Z;
  plays : Z;
  time_min : num;
  stamina : Z;
  score : Z;
  adj_plays : Z;
  adj_time_min : num;
  adj_stamina : Z;
  catchable : bool
}.

(** The arguments of [find_push_plans] other than the song list. *)
Record query : Type := {
  target_ep_gap : num;
  power : num;
  bonus : num;
  skill_mag : num;
  s6 : num;
  live_type : string;
  life : num;
  interval : num;
  energy_options : list Z;
  top_n : Z;
  border_speed : num
}.

(** The defaults of the keyword arguments. *)
Definition default_query (gap power bonus : num) : query :=
  {| target_ep_gap := gap; power := power; bonus := bonus;
     skill_mag := f2_2; s6 := f2_2; live_type := "multi";
     life := Int 1000; interval := Int 50; energy_options := [5; 7; 10];
     top_n := 10; border_speed := Int 0 |}.

(** [plays * cycle / 60] *)
Definition minutes (plays : Z) (cycle : num) : result num :=
  pc ← mul (Int plays) cycle;
  truediv pc (Int 60).

(** [ep - border_speed * (cycle / 3600)] *)
Definition net_of (q : query) (ep : Z) (cycle : num) : result num :=
  c ← truediv cycle (Int 3600);
  m ← mul (border_speed q) c;
  sub (Int ep) m.

(** [math.ceil(target_ep_gap / v)] *)
Definition plays_for (q : query) (v : num) : result Z :=
  g ← truediv (target_ep_gap q) v;
  ceil g.

(** The catch-up block: [(adj_plays, adj_time_min, adj_stamina,
    catchable)] from the unadjusted values. *)
Definition adjust (q : query) (ep : Z) (cycle : num) (energy : Z)
    (plays : Z) (time_min : num) (stamina : Z)
  : result (Z * num * Z * bool) :=
  if lt (Int 0) (border_speed q) then
    net_ep ← net_of q ep cycle;
    if le net_ep (Int 0) then Ok (99999, Int 99999, 99999, false)
    else
      adj_plays ← plays_for q net_ep;
      adj_time_min ← minutes adj_plays cycle;
      Ok (adj_plays, adj_time_min, adj_plays * energy, true)
  else Ok (plays, time_min, stamina, true).

(** The body of the loop over [energy_options] for one song, one
    difficulty and one energy: the plan appended, if any. *)
Definition make_plan (q : query) (sg : song) (dk : string)
    (darr : list num) (score : Z) (energy : Z) : result (option plan) :=
  let boost := default 1 (ENERGY_MULTIPLIERS !! energy) in
  ep ← calc_ep_value (live_type q) score (s_rate sg) (bonus q) boost
                     (power q) (life q);
  if ep <=? 0 then Ok None
  else
    cycle ← add (s_time sg) (interval q);
    per_hour ← truediv (Int 3600) cycle;
    eph ← mul (Int ep) per_hour;
    plays ← plays_for q (Int ep);
    time_min ← minutes plays cycle;
    let stamina := plays * energy in
    adj ← adjust q ep cycle energy plays time_min stamina;
    eph_r ← round eph;
    time_min_r ← round1 time_min;
    adj_time_min_r ← round1 adj.1.1.2;
    Ok (Some {| title := s_title sg; id := s_id sg; diff := dk;
                lv := nth 0 darr (Int 0); time := s_time sg;
                rate := s_rate sg; energy := energy; boost := boost;
                ep := ep; eph := eph_r; plays := plays;
                time_min := time_min_r; stamina := stamina;
                score := score; adj_plays := adj.1.1.1;
                adj_time_min := adj_time_min_r;
                adj_stamina := adj.1.2; catchable := adj.2 |}).

(** A loop that appends the plans of each element, until one raises. *)
Fixpoint collect {A B} (f : A -> result (list B)) (l : list A)
  : result (list B) :=
  match l with
  | [] => Ok []
  | x :: l' => ys ← f x; zs ← collect f l'; Ok (ys ++ zs)
  end.

Definition diff_plans (q : query) (sg : song) (d : string * list num)
  : result (list plan) :=
  let '(dk, darr) := d in
  if (length darr <? 11)%nat then Ok []
  else
    score ← calc_song_score darr (live_type q) (power q)
                            (skill_mag q) (s6 q);
    collect (fun energy =>
               r ← make_plan q sg dk darr score energy;
               Ok (option_list r))
            (energy_options q).

Definition song_plans (q : query) (sg : song) : result (list plan) :=
  if le (s_time sg) (Int 0) then Ok []
  else collect (diff_plans q sg) (s_diffs sg).

(** Every plan appended by the first loop, in the order of the appends;
    [by_energy[e]] is its sublist of energy [e]. *)
Definition all_plans (db : list song) (q : query) : result (list plan) :=
  collect (song_plans q) db.

Definition by_energy (items : list plan) (e : Z) : list plan :=
  filter (fun r => energy r = e) items.

(** The sort key [(-x['catchable'], x['adj_plays'], -x['eph'])] and the
    order of its tuples. *)
Definition rank_key (r : plan) : Z * Z * Z :=
  (if catchable r then -1 else 0, adj_plays r, - eph r).

Definition rank_lt (x y : plan) : bool :=
  let '(a1, b1, c1) := rank_key x in
  let '(a2, b2, c2) := rank_key y in
  (a1 <? a2) || ((a1 =? a2) && ((b1 <? b2) || ((b1 =? b2) && (c1 <? c2)))).

(** The selection loop over the sorted plans of one energy. *)
Fixpoint pick (top_n : Z) (items : list plan) (seen : gset (Z * string))
    (count : Z) : list plan :=
  match items with
  | [] => []
  | r :: rest =>
      if negb (catchable r) then pick top_n rest seen count
      else
        let key := (id r, diff r) in
        if bool_decide (key ∈ seen) then pick top_n rest seen count
        else
          r :: (if top_n <=? count + 1 then []
                else pick top_n rest ({[key]} ∪ seen) (count + 1))
  end.

Definition select (q : query) (items : list plan) : list plan :=
  e ← energy_options q;
  pick (top_n q) (sorted_by rank_lt (by_energy items e)) ∅ 0.

(** [find_push_plans(...)] over the song list [db] ([SONG_DB]). *)
Definition find_push_plans (db : list song) (q : query)
  : result (list plan) :=
  items ← all_plans db q;
  Ok (select q items).

(** The net point value of a plan against the border speed, computed as
    the code computes it: [ep - border_speed * (cycle / 3600)] with the
    cycle [time + interval], each operation rounded. *)
Definition net_ep (q : query) (r : plan) : result num :=
  cycle ← add (time r) (interval q);
  net_of q (ep r) cycle.

(** The adjusted minutes of a plan: [round(adj_plays * cycle / 60, 1)]. *)
Definition adjusted_minutes (q : query) (r : plan) : result num :=
  cycle ← add (time r) (interval q);
  t ← minutes (adj_plays r) cycle;
  round1 t.

(** What the catch-up block leaves in a plan when the border moves. *)
Definition adjusted (q : query) (r : plan) : Prop :=
  exists net,
    net_ep q r = Ok net /\
    (le net (Int 0) = true -> catchable r = false) /\
    (le net (Int 0) = false ->
       catchable r = true /\
       plays_for q net = Ok (adj_plays r) /\
       adjusted_minutes q r = Ok (adj_time_min r) /\
       adj_stamina r = adj_plays r * energy r).

(** The plans kept for the energy [e]. *)
Definition tier (q : query) (items : list plan) (e : Z) : list plan :=
  pick (top_n q) (sorted_by rank_lt (by_energy items e)) ∅ 0.

(** The key that the selection loop remembers in [seen]. *)
Definition plan_key (r : plan) : Z * string := (id r, diff r).

(** [x] is ranked no later than [y]: fewer adjusted plays, or as many and
    at least the points per hour. *)
Definition ranks_before (x y : plan) : Prop :=
  adj_plays x < adj_plays y \/ (adj_plays x = adj_plays y /\ eph y <= eph x).

(** A one-song list whose plan at energy 1 is worth 1000 points per play
    with a cycle of 120 seconds, and queries facing a border that climbs
    40000 and 3000 points per hour. *)
Definition sample_db : list song :=
  [ {| s_id := 1; s_title := "sample"; s_time := Int 70; s_rate := Int 100;
       s_diffs := [("master",
                    [Int 30; Int 0; Int 1; Int 0; Int 0; Int 0; Int 0;
                     Int 0; Int 0; Int 0; Int 0])] |} ].

Definition sample_query : query :=
  {| target_ep_gap := Int 50000; power := Int 300000; bonus := Int 0;
     skill_mag := f2_2; s6 := f2_2; live_type := "multi";
     life := Int 1000; interval := Int 50; energy_options := [1];
     top_n := 10; border_speed := Int 40000 |}.

Definition slow_border_query : query :=
  {| target_ep_gap := Int 50000; power := Int 300000; bonus := Int 0;
     skill_mag := f2_2; s6 := f2_2; live_type := "multi";
     life := Int 1000; interval := Int 50; energy_options := [1];
     top_n := 10; border_speed := Int 3000 |}.


(** A song whose plan at energy 1 is worth 6500 points per play with a
    cycle of 130 seconds, and a query facing a border that climbs 180000
    points per hour: as fast as the plan gains. *)
Definition tie_db : list song :=
  [ {| s_id := 1; s_title := "tie"; s_time := Int 80; s_rate := Int 650;
       s_diffs := [("master",
                    [Int 30; Int 0; Int 1; Int 0; Int 0; Int 0; Int 0;
                     Int 0; Int 0; Int 0; Int 0])] |} ].

Definition tie_query : query :=
  {| target_ep_gap := Int 50000; power := Int 300000; bonus := Int 0;
     skill_mag := f2_2; s6 := f2_2; live_type := "multi";
     life := Int 1000; interval := Int 50; energy_options := [1];
     top_n := 10; border_speed := Int 180000 |}.

(** A song whose plan at energy 1 is worth 5000 points per play with a
    cycle of 120 seconds, and a query with a gap of 205000 points facing
    a border that climbs 100000 points per hour: a net value of 5000/3
    per play, 123 times which is the gap. *)
Definition third_db : list song :=
  [ {| s_id := 1; s_title := "third"; s_time := Int 70; s_rate := Int 500;
       s_diffs := [("master",
                    [Int 30; Int 0; Int 1; Int 0; Int 0; Int 0; Int 0;
                     Int 0; Int 0; Int 0; Int 0])] |} ].

Definition third_query : query :=
  {| target_ep_gap := Int 205000; power := Int 300000; bonus := Int 0;
     skill_mag := f2_2; s6 := f2_2; live_type := "multi";
     life := Int 1000; interval := Int 50; energy_options := [1];
     top_n := 10; border_speed := Int 100000 |}.

End Plans.

(** ** The hourly snapshot store: [record_ranking_snapshot] *)

Module Snapshots.

(** A calendar [datetime], as [strftime] reads it. *)
Record cal_datetime : Type := {
  c_year : Z;
  c_month : Z;
  c_day : Z;
  c_hour : Z;
  c_minute : Z;
  c_second : Z;
  c_microsecond : Z
}.

(** [now.strftime("%Y-%m-%d %H:00")]; [%Y] is written out in full, four
    digits for the years 1000 to 9999. *)
Definition strftime_hour (t : cal_datetime) : string :=
  pretty (c_year t) +:+ "-" +:+ fmt_02d (c_month t) +:+ "-"
  +:+ fmt_02d (c_day t) +:+ " " +:+ fmt_02d (c_hour t) +:+ ":00".

(** Two instants that truncate to the same hour. *)
Definition same_hour (t1 t2 : cal_datetime) : Prop :=
  c_year t1 = c_year t2 /\ c_month t1 = c_month t2 /\
  c_day t1 = c_day t2 /\ c_hour t1 = c_hour t2.

(** One player of the feed; [rank] may be missing. *)
Record player : Type := {
  pl_rank : option Z;
  pl_name : string;
  pl_score : Z
}.

(** The JSON body of the feed: [top_100_player_rankings] and [name]. *)
Record feed : Type := {
  top_100_player_rankings : list player;
  feed_name : string
}.

Record border : Type := { b_name : string; b_score : Z }.

(** A stored record [{"time":..., "event":..., "borders":{...}}]. *)
Record snapshot : Type := {
  snap_time : string;
  snap_event : string;
  snap_borders : gmap string border
}.

(** The global [ranking_history]. *)
Record history : Type := {
  event_name : string;
  records : list snapshot
}.

(** The loop [for p in rankings: r=p.get('rank'); if r:
    snapshot["borders"][str(r)]={...}]. *)
Definition add_border (bs : gmap string border) (p : player)
  : gmap string border :=
  match pl_rank p with
  | Some r =>
      if r =? 0 then bs
      else <[pretty r := {| b_name := pl_name p; b_score := pl_score p |}]> bs
  | None => bs
  end.

Definition make_snapshot (now_str : string) (data : feed) : snapshot :=
  {| snap_time := now_str; snap_event := feed_name data;
     snap_borders := fold_left add_border (top_100_player_rankings data) ∅ |}.

(** [records[-1].get("time","").startswith(now_str[:13])], false on an
    empty list. *)
Definition last_in_hour (now_str : string) (rs : list snapshot) : bool :=
  match last rs with
  | Some r => String.prefix (String.substring 0 13 now_str) (snap_time r)
  | None => false
  end.

(** [record_ranking_snapshot()], given the HTTP status and body of the
    feed and the clock reading. *)
Definition record_ranking_snapshot (status : Z) (data : feed)
    (now : cal_datetime) (h : history) : history :=
  if negb (status =? 200) then h
  else
    match top_100_player_rankings data with
    | [] => h
    | _ =>
        let h := {| event_name := feed_name data; records := records h |} in
        let now_str := strftime_hour now in
        if last_in_hour now_str (records h) then h
        else
          let rs := records h ++ [make_snapshot now_str data] in
          if (336 <? length rs)%nat
          then {| event_name := event_name h;
                  records := drop (length rs - 336) rs |}
          else {| event_name := event_name h; records := rs |}
    end.

(** A stored record belongs to the hour of [now]. *)
Definition in_hour (now : cal_datetime) (r : snapshot) : Prop :=
  String.prefix (String.substring 0 13 (strftime_hour now)) (snap_time r)
  = true.

#[export] Instance in_hour_dec now r : Decision (in_hour now r).
Proof. unfold in_hour. apply _. Defined.

(** Sample data: a feed with one player, and a store that holds a record
    for 10:00 followed by one for 11:00. *)
Definition sample_feed : feed :=
  {| top_100_player_rankings :=
       [ {| pl_rank := Some 1; pl_name := "top"; pl_score := 123456 |} ];
     feed_name := "event" |}.

Definition at_10_05 : cal_datetime :=
  {| c_year := 2024; c_month := 4; c_day := 27; c_hour := 10;
     c_minute := 5; c_second := 0; c_microsecond := 0 |}.

Definition at_10_40 : cal_datetime :=
  {| c_year := 2024; c_month := 4; c_day := 27; c_hour := 10;
     c_minute := 40; c_second := 30; c_microsecond := 0 |}.

Definition unordered_history : history :=
  {| event_name := "event";
     records :=
       [ {| snap_time := "2024-04-27 10:00"; snap_event := "event";
            snap_borders := ∅ |};
         {| snap_time := "2024-04-27 11:00"; snap_event := "event";
            snap_borders := ∅ |} ] |}.

Definition empty_history : history := {| event_name := ""; records := [] |}.

(** The border stored for a player. *)
Definition border_of (p : player) : border :=
  {| b_name := pl_name p; b_score := pl_score p |}.

(** The key under which the loop stores a player, if it stores it. *)
Definition border_key (p : player) : option string :=
  match pl_rank p with
  | Some r => if r =? 0 then None else Some (pretty r)
  | None => None
  end.

End Snapshots.

(** ** Signing up, cancelling and confirming: the schedule commands *)

Module Signup.
Import TimeRange Schedule.

(** [TIME_SLOTS = [f"{h:02d}:00" for h in range(24)]] *)
Definition TIME_SLOTS : list string := map time_slot (range 0 24).

(** [bot_data.setdefault("schedule",{}).setdefault(today,{})] *)
Definition setdefault_day (schedule : gmap string (gmap string slot))
    (today : string) : gmap string (gmap string slot) :=
  match schedule !! today with
  | Some _ => schedule
  | None => <[today := ∅]> schedule
  end.

(** [bot_data["schedule"][today]] *)
Definition day_of (schedule : gmap string (gmap string slot))
    (today : string) : result (gmap string slot) :=
  match schedule !! today with
  | Some day => Ok day
  | None => Raise KeyError
  end.

(** [{"applicants":[]}] *)
Definition new_slot : slot := {| sl_shift := None; sl_applicants := [] |}.

(** [any(a["user_id"]==uid for a in apps)] *)
Definition applied (uid : string) (apps : list applicant) : bool :=
  existsb (fun a => String.eqb (user_id a) uid) apps.

Definition set_applicants (sl : slot) (apps : list applicant) : slot :=
  {| sl_shift := sl_shift sl; sl_applicants := apps |}.

(** The two statements that register [app] for the hour [h]:
    [if h not in schedule[today]: schedule[today][h]={"applicants":[]}]
    and the append guarded by [not any(...)].  The state is the schedule
    and the list [registered]. *)
Definition register (today : string) (app : applicant) (h : string)
    (st : gmap string (gmap string slot) * list string)
  : result (gmap string (gmap string slot) * list string) :=
  day ← day_of st.1 today;
  let sl := default new_slot (day !! h) in
  if applied (user_id app) (sl_applicants sl)
  then Ok (<[today := <[h := sl]> day]> st.1, st.2)
  else Ok (<[today :=
               <[h := set_applicants sl (sl_applicants sl ++ [app])]> day]>
             st.1,
           st.2 ++ [h]).

(** The loop [for h in hours] of [signup_cmd].  Each iteration reads the
    clock inside [is_signup_closed], for [now] and for its own
    [get_today()]: [clock i] is what the iteration of index [i] reads. *)
Fixpoint signup_loop (clock : nat -> datetime * string) (i : nat)
    (today : string) (app : applicant) (hours : list string)
    (st : gmap string (gmap string slot) * list string)
  : result (gmap string (gmap string slot) * list string) :=
  match hours with
  | [] => Ok st
  | h :: rest =>
      match is_signup_closed (clock i).1 (clock i).2 st.1 h with
      | Raise e => Raise e
      | Ok (closed, _) =>
          st' ← (if closed then Ok st else register today app h st);
          signup_loop clock (S i) today app rest st'
      end
  end.

(** The message a sign-up ends with. *)
Inductive signup_reply : Type :=
| BadFormat
| AllClosed (reasons : list string)
| NothingNew
| Registered (hours : list string).

(** [signup_cmd] from [hours=parse_time_range(...)] on, for a registered
    member while sign-up is open; [app] is the applicant dict the command
    builds, with the member's id as its [user_id]. *)
Definition signup_cmd (clock : nat -> datetime * string) (today : string)
    (app : applicant) (text : string)
    (schedule : gmap string (gmap string slot))
  : result (gmap string (gmap string slot) * signup_reply) :=
  hours ← parse_time_range text;
  match hours with
  | [] => Ok (schedule, BadFormat)
  | _ =>
      let schedule := setdefault_day schedule today in
      st ← signup_loop clock 0 today app hours (schedule, []);
      match st.2 with
      | [] => Ok (st.1, NothingNew)
      | _ => Ok (refresh_schedule st.1 today, Registered st.2)
      end
  end.

(** The first loop of [SignupScheduleModal.on_submit]: the reasons of the
    closed hours and the open hours. *)
Fixpoint sort_hours (clock : nat -> datetime * string) (i : nat)
    (schedule : gmap string (gmap string slot)) (hours : list string)
  : result (list string * list string) :=
  match hours with
  | [] => Ok ([], [])
  | h :: rest =>
      match is_signup_closed (clock i).1 (clock i).2 schedule h with
      | Raise e => Raise e
      | Ok (closed, reason) =>
          match sort_hours clock (S i) schedule rest with
          | Raise e => Raise e
          | Ok (closed_hours, open_hours) =>
              Ok (if closed then (reason :: closed_hours, open_hours)
                  else (closed_hours, h :: open_hours))
          end
      end
  end.

(** Its second loop, [for h in open_hours]. *)
Fixpoint register_all (today : string) (app : applicant)
    (hours : list string)
    (st : gmap string (gmap string slot) * list string)
  : result (gmap string (gmap string slot) * list string) :=
  match hours with
  | [] => Ok st
  | h :: rest =>
      st' ← register today app h st;
      register_all today app rest st'
  end.

(** [SignupScheduleModal.on_submit] from [hours=parse_time_range(...)]
    on; [text] is the stripped input. *)
Definition modal_on_submit (clock : nat -> datetime * string)
    (today : string) (app : applicant) (text : string)
    (schedule : gmap string (gmap string slot))
  : result (gmap string (gmap string slot) * signup_reply) :=
  hours ← parse_time_range text;
  match hours with
  | [] => Ok (schedule, BadFormat)
  | _ =>
      let schedule := setdefault_day schedule today in
      co ← sort_hours clock 0 schedule hours;
      match co.2 with
      | [] => Ok (schedule, AllClosed co.1)
      | _ =>
          st ← register_all today app co.2 (schedule, []);
          match st.2 with
          | [] => Ok (st.1, NothingNew)
          | _ => Ok (refresh_schedule st.1 today, Registered st.2)
          end
      end
  end.

(** The body of the loop of [cancel_cmd] for the hour [h], on the
    schedule and the list [cancelled]. *)
Definition cancel_step (today uid : string)
    (st : gmap string (gmap string slot) * list string) (h : string)
  : gmap string (gmap string slot) * list string :=
  match st.1 !! today with
  | Some day =>
      match day !! h with
      | Some sl =>
          let apps := sl_applicants sl in
          let kept := filter (fun a => user_id a <> uid) apps in
          (<[today := <[h := set_applicants sl kept]> day]> st.1,
           if (length kept <? length apps)%nat then st.2 ++ [h] else st.2)
      | None => st
      end
  | None => st
  end.

(** [cancel_cmd]: the schedule it leaves and the hours it reports. *)
Definition cancel_cmd (today uid text : string)
    (schedule : gmap string (gmap string slot))
  : result (gmap string (gmap string slot) * list string) :=
  hours ← parse_time_range text;
  let st := fold_left (cancel_step today uid) hours (schedule, []) in
  Ok (match st.2 with
      | [] => st.1
      | _ => refresh_schedule st.1 today
      end, st.2).

(** [schedule[today][h].update(auto_assign_schedule(today,h,apps))] *)
Definition confirm_slot (today h : string) (sl : slot) : slot :=
  {| sl_shift :=
       match auto_assign_schedule today h (sl_applicants sl) with
       | Some sh => Some sh
       | None => sl_shift sl
       end;
     sl_applicants := sl_applicants sl |}.

(** [confirm_cmd]: [None] is the reply that there is no sign-up. *)
Definition confirm_cmd (schedule : gmap string (gmap string slot))
    (today : string) : option (gmap string (gmap string slot)) :=
  match schedule !! today with
  | None => None
  | Some day =>
      Some (<[today :=
                fold_left (fun day h =>
                             match day !! h with
                             | Some sl => <[h := confirm_slot today h sl]> day
                             | None => day
                             end) TIME_SLOTS day]> schedule)
  end.

(** [reset_hours_cmd] once confirmed: the new schedule and the number
    [cleared] it reports. *)
Definition reset_hours (schedule : gmap string (gmap string slot))
    (today : string) : gmap string (gmap string slot) * Z :=
  let today_data := default ∅ (schedule !! today) in
  let keep := negb (bool_decide (today_data = ∅)) in
  (if keep then {[ today := today_data ]} else ∅,
   Z.of_nat (size schedule) - (if keep then 1 else 0)).

(** [schedule.get(d,{}).get(h,{}).get("applicants",[])] *)
Definition applicants_at (schedule : gmap string (gmap string slot))
    (d h : string) : list applicant :=
  match schedule !! d ≫= (fun day => day !! h) with
  | Some sl => sl_applicants sl
  | None => []
  end.

(** The assignment stored for the hour [h] of the day [d], if any. *)
Definition shift_at (schedule : gmap string (gmap string slot))
    (d h : string) : option shift :=
  match schedule !! d ≫= (fun day => day !! h) with
  | Some sl => sl_shift sl
  | None => None
  end.

(** The user ids of a list of applicants. *)
Definition user_ids (apps : list applicant) : list string :=
  map user_id apps.

(** A clock that stands still. *)
Definition still (now : datetime) (today : string)
  : nat -> datetime * string := fun _ => (now, today).

(** What one registering step does to the schedule. *)
Definition registers (today : string) (app : applicant) (h : string)
    s s' : Prop :=
  is_Some (s' !! today) /\
  (forall d, d <> today -> s' !! d = s !! d) /\
  (forall d k, shift_at s' d k = shift_at s d k) /\
  (forall d k, (d, k) <> (today, h) ->
     applicants_at s' d k = applicants_at s d k) /\
  applicants_at s' today h
  = if applied (user_id app) (applicants_at s today h)
    then applicants_at s today h
    else applicants_at s today h ++ [app].

(** One of the 24 labels of [TIME_SLOTS]. *)
Definition label (h : string) : Prop :=
  exists k, 0 <= k < 24 /\ h = time_slot k.

(** What the sign-up command does, in one statement. *)
Definition signup_outcome (clock : nat -> datetime * string)
    (today : string) (app : applicant) s (hours o : list string)
    s' (reply : signup_reply) : Prop :=
  (forall h, h ∈ o <->
     exists j r, hours !! j = Some h /\
                 is_signup_closed (clock j).1 (clock j).2 s h
                 = Ok (false, r)) /\
  (forall d, d <> today -> s' !! d = s !! d) /\
  (forall d k,
     applicants_at s' d k
     = if bool_decide (d = today /\ k ∈ o)
          && negb (applied (user_id app) (applicants_at s d k))
       then applicants_at s d k ++ [app] else applicants_at s d k) /\
  match reply with
  | BadFormat => hours = [] /\ s' = s
  | AllClosed _ => False
  | NothingNew =>
      hours <> [] /\
      (forall k, k ∈ o ->
                 applied (user_id app) (applicants_at s today k) = true) /\
      (forall d k, shift_at s' d k = shift_at s d k)
  | Registered new =>
      new <> [] /\ NoDup new /\
      (forall k, k ∈ new <->
         k ∈ o /\ applied (user_id app) (applicants_at s today k) = false) /\
      (forall k, shift_at s' today k
                 = match applicants_at s' today k with
                   | [] => shift_at s today k
                   | apps => auto_assign_schedule today k apps
                   end)
  end.

(** The hours a reply lists as registered. *)
Definition registered_hours (reply : signup_reply) : list string :=
  match reply with
  | Registered hs => hs
  | _ => []
  end.

(** A second sample applicant. *)
Definition applicant_B : applicant :=
  sample "B" (12 # 5) 0 0 "單開" "pusher" "2024-04-27T06:30:00".

End Signup.

(** ** The ranking chart: [create_ranking_chart] *)

Module Chart.
Import Snapshots.

Definition TRACKED_RANKS : list Z := [1; 2; 3; 10; 20; 50; 100].

(** The colours of [Theme] that the chart uses. *)
Definition HERALDIC_RED : string := "#A52A2A".
Definition ORANGE : string := "#B87333".
Definition GOLD : string := "#C5973B".
Definition FOREST_GREEN : string := "#2D5A27".
Definition CYAN : string := "#2E6B6B".
Definition ROYAL_BLUE : string := "#1E3A5F".
Definition DEEP_PURPLE : string := "#4A1A6B".
Definition TEXT_LIGHT : string := "#8B7355".

Definition cmap : gmap string string :=
  list_to_map [("1", HERALDIC_RED); ("2", ORANGE); ("3", GOLD);
               ("10", FOREST_GREEN); ("20", CYAN); ("50", ROYAL_BLUE);
               ("100", DEEP_PURPLE)].

(** A dataset [(label, values, color)]. *)
Record dataset : Type := {
  d_label : string;
  d_values : list Q;
  d_color : string
}.

(** The arguments handed to [render_line_chart], but for the formatter
    of the axis, which is a function. *)
Record chart : Type := {
  ch_title : string;
  ch_subtitle : string;
  ch_x_labels : list string;
  ch_datasets : list dataset;
  ch_y_label : string
}.

(** The inner loop [for rec in records] for the border [b]: the lists
    [ts] and [ss]. *)
Definition series (b : string) (records : list snapshot)
  : list string * list Q :=
  fold_left (fun st rec =>
               match snap_borders rec !! b with
               | Some bd => (st.1 ++ [snap_time rec],
                             st.2 ++ [(inject_Z (b_score bd) / 10000)%Q])
               | None => st
               end) records ([], []).

(** The body of the loop [for b in borders], on [datasets] and
    [longest_times]. *)
Definition chart_step (records : list snapshot)
    (st : list dataset * list string) (b : string)
  : list dataset * list string :=
  let '(ts, ss) := series b records in
  if (2 <=? length ts)%nat then
    (st.1 ++ [{| d_label := "T" +:+ b; d_values := ss;
                 d_color := default TEXT_LIGHT (cmap !! b) |}],
     if (length st.2 <? length ts)%nat then ts else st.2)
  else st.

(** The truth value of an optional rank and of an optional name. *)
Definition given_rank (rank : option Z) : option Z :=
  match rank with
  | Some r => if r =? 0 then None else Some r
  | None => None
  end.

Definition given_name (event_name : option string) : option string :=
  match event_name with
  | Some EmptyString => None
  | other => other
  end.

Definition create_ranking_chart (records : list snapshot)
    (rank : option Z) (event_name : option string) : option chart :=
  if (length records <? 2)%nat then None
  else
    let records :=
      match given_name event_name with
      | Some e => filter (fun r => snap_event r = e) records
      | None => records
      end in
    if (length records <? 2)%nat then None
    else
      let borders :=
        match given_rank rank with
        | Some r => [pretty r]
        | None => map pretty TRACKED_RANKS
        end in
      let st := fold_left (chart_step records) borders ([], []) in
      match st.1 with
      | [] => None
      | datasets =>
          Some {| ch_title :=
                    match given_rank rank with
                    | Some r => "T" +:+ pretty r +:+ " 走勢"
                    | None => "榜線走勢"
                    end;
                  ch_subtitle := default "" (given_name event_name);
                  ch_x_labels := map (String.substring 5 8) st.2;
                  ch_datasets := datasets;
                  ch_y_label := "分數 (萬)" |}
      end.

End Chart.

(** ** The colour references of a render request: [resolve_colors_deep] *)

Module RenderServer.

(** A decoded JSON value; an object keeps the order of its members. *)
#[warnings="-register-all"]
Inductive json : Type :=
| JNull
| JBool (b : bool)
| JInt (n : Z)
| JFloat (x : Q)
| JStr (s : string)
| JList (l : list json)
| JDict (d : list (string * json)).

(** [THEME_COLORS]: the public attributes of [Theme]. *)
Definition THEME_COLORS : gmap string string :=
  list_to_map
    [("PARCHMENT", "#F5E6C8"); ("PARCHMENT_D", "#E8D5A8");
     ("PARCHMENT_DD", "#D4BC82"); ("PARCHMENT_L", "#FBF3E4");
     ("BG", "#F5E6C8"); ("INK", "#2C1810"); ("INK_LIGHT", "#5C3D2E");
     ("INK_FADED", "#8B7355"); ("TEXT", "#2C1810");
     ("TEXT_LIGHT", "#8B7355"); ("TEXT_SEC", "#8B7355");
     ("TEXT_DIM", "#A89070"); ("GOLD", "#C5973B");
     ("GOLD_BRIGHT", "#D4A84B"); ("GOLD_DARK", "#8B6914");
     ("SILVER", "#8A8A8A"); ("BRONZE", "#CD7F32"); ("COPPER", "#B87333");
     ("ROYAL_BLUE", "#1E3A5F"); ("ROYAL_RED", "#8B1A1A");
     ("HERALDIC_RED", "#A52A2A"); ("FOREST_GREEN", "#2D5A27");
     ("DEEP_PURPLE", "#4A1A6B"); ("HEADER_BG", "#3B2415");
     ("HEADER_FG", "#F5E6C8"); ("ACCENT", "#C5973B");
     ("ACCENT2", "#1E3A5F"); ("BLUE", "#1E3A5F"); ("PURPLE", "#4A1A6B");
     ("GREEN", "#2D5A27"); ("RED", "#8B1A1A"); ("ORANGE", "#B87333");
     ("PINK", "#A0526B"); ("CYAN", "#2E6B6B"); ("ROW_EVEN", "#F5E6C8");
     ("ROW_ODD", "#EDD9B5"); ("BORDER", "#B8956A"); ("DIVIDER", "#D4BC82");
     ("CARD_BG", "#EDD9B5"); ("SURFACE", "#E0C898")].

(** [val.startswith('Theme.')] *)
Definition is_reference (s : string) : bool := String.prefix "Theme." s.

(** [val[6:]] *)
Definition attr_of (s : string) : string :=
  String.substring 6 (String.length s) s.

(** [resolve_color(val)] *)
Definition resolve_color (val : json) : json :=
  match val with
  | JStr s =>
      if is_reference s
      then match THEME_COLORS !! attr_of s with
           | Some c => JStr c
           | None => val
           end
      else val
  | _ => val
  end.

(** [resolve_colors_deep(obj)] *)
Fixpoint resolve_colors_deep (obj : json) : json :=
  match obj with
  | JDict d =>
      JDict (map (fun kv => (kv.1, resolve_colors_deep kv.2)) d)
  | JList l => JList (map resolve_colors_deep l)
  | JStr s => if is_reference s then resolve_color obj else obj
  | _ => obj
  end.

(** The strings of a value, keys apart, from left to right. *)
Fixpoint strings_of (obj : json) : list string :=
  match obj with
  | JDict d => concat (map (fun kv => strings_of kv.2) d)
  | JList l => concat (map strings_of l)
  | JStr s => [s]
  | _ => []
  end.

(** What a string becomes. *)
Definition resolved (s : string) : string :=
  if is_reference s then default s (THEME_COLORS !! attr_of s) else s.

(** The value with its strings blanked: what the resolution cannot
    change. *)
Fixpoint skeleton (obj : json) : json :=
  match obj with
  | JDict d => JDict (map (fun kv => (kv.1, skeleton kv.2)) d)
  | JList l => JList (map skeleton l)
  | JStr _ => JStr ""
  | _ => obj
  end.

End RenderServer.

(** * Theorems *)

(** ** Facts about the Python primitives *)

Module PyFacts.

Lemma digit_cases (d : Z) :
  0 <= d < 10 ->
  d = 0 \/ d = 1 \/ d = 2 \/ d = 3 \/ d = 4 \/
  d = 5 \/ d = 6 \/ d = 7 \/ d = 8 \/ d = 9.
Proof. lia. Qed.

Ltac each_digit d H :=
  destruct (digit_cases d H) as [->|[->|[->|[->|[->|[->|[->|[->|[->| ->]]]]]]]]].

Lemma is_digit_digit_char d : 0 <= d < 10 -> is_digit (digit_char d) = true.
Proof. intros H. each_digit d H; reflexivity. Qed.

Lemma digit_val_digit_char d : 0 <= d < 10 -> digit_val (digit_char d) = d.
Proof. intros H. each_digit d H; reflexivity. Qed.

Lemma bind_Ok {A B} (a : A) (k : A -> result B) : (Ok a ≫= k) = k a.
Proof. reflexivity. Qed.

Lemma range_length a b : length (range a b) = Z.to_nat (b - a).
Proof. unfold range. apply length_seqZ. Qed.

Lemma elem_of_range a b x : x ∈ range a b <-> a <= x < b.
Proof. unfold range. rewrite elem_of_seqZ. lia. Qed.

End PyFacts.

(** ** Hour ranges *)

Module TimeRangeFacts.
Import TimeRange PyFacts.

Lemma int_of_str_renders s n : renders s n -> int_of_str s = Ok n.
Proof.
  intros [d Hd | d1 d0 H1 H0]; unfold int_of_str; cbn [int_digits].
  - rewrite is_digit_digit_char, digit_val_digit_char by assumption.
    f_equal; lia.
  - rewrite !is_digit_digit_char, !digit_val_digit_char by assumption.
    f_equal; lia.
Qed.

Lemma digits12_renders s n :
  renders s n -> exists alts, digits12 s = (s, EmptyString) :: alts.
Proof.
  intros [d Hd | d1 d0 H1 H0]; cbn [digits12].
  - rewrite is_digit_digit_char by assumption. eauto.
  - rewrite !is_digit_digit_char by assumption. eauto.
Qed.

Lemma re_match_renders sa sb a b :
  renders sa a -> renders sb b ->
  re_match (sa +:+ "-" +:+ sb) = Some (sa, sb).
Proof.
  intros Ha Hb. destruct (digits12_renders sb b Hb) as [alts Hsb].
  unfold re_match.
  destruct Ha as [d Hd | d1 d0 H1 H0];
    cbv [String.append]; cbn [digits12].
  - rewrite is_digit_digit_char by assumption.
    change (is_digit "-"%char) with false.
    cbn [match_after_first]. now rewrite Hsb.
  - rewrite !is_digit_digit_char by assumption.
    cbn [match_after_first]. now rewrite Hsb.
Qed.

(** C9. For hour numbers [A] and [B] written on one or two digits,
    [parse_time_range "A-B"] is the list of labels of the hours
    [A, A+1, ..., B'-1] taken modulo 24, where [B'] is [B] when [A < B]
    and [B + 24] when [B <= A] (the range then wraps past midnight);
    ["08-12"] gives the hours 8 to 11. *)
Theorem parse_time_range_hours sa sb A B :
  renders sa A -> renders sb B ->
  parse_time_range (sa +:+ "-" +:+ sb)
  = Ok (map (fun h => fmt_02d (h mod 24) +:+ ":00")
            (range A (if B <=? A then B + 24 else B)))
  /\ parse_time_range "08-12" = Ok ["08:00"; "09:00"; "10:00"; "11:00"].
Proof.
  intros Ha Hb. split; [| reflexivity].
  unfold parse_time_range.
  rewrite (re_match_renders sa sb A B Ha Hb).
  rewrite (int_of_str_renders sa A Ha), (int_of_str_renders sb B Hb).
  reflexivity.
Qed.

Lemma parse_time_range_hours_witness :
  parse_time_range ("22" +:+ "-" +:+ "2")
  = Ok (map (fun h => fmt_02d (h mod 24) +:+ ":00")
            (range 22 (if 2 <=? 22 then 2 + 24 else 2)))
  /\ parse_time_range "08-12" = Ok ["08:00"; "09:00"; "10:00"; "11:00"].
Proof.
  apply (parse_time_range_hours "22" "2" 22 2).
  - apply (renders2 2 2); lia.
  - apply (renders1 2); lia.
Defined.

End TimeRangeFacts.

(** ** The score solver *)

Module SolverFacts.
Import Solver PyFacts.

Lemma mod_nonzero a b : b <> 0 -> mod_ a b = Ok (a mod b).
Proof. intros H. unfold mod_. now destruct (Z.eqb_spec b 0). Qed.

Lemma floordiv_nonzero a b : b <> 0 -> floordiv a b = Ok (a / b).
Proof. intros H. unfold floordiv. now destruct (Z.eqb_spec b 0). Qed.

(** *** Sorting the keys *)

Lemma insert_desc_perm x l : insert_desc x l ≡ₚ x :: l.
Proof.
  induction l as [|y l IH]; cbn; [done|].
  destruct (y <? x); [done|]. rewrite IH. apply Permutation_swap.
Qed.

Lemma sorted_desc_perm l : sorted_desc l ≡ₚ l.
Proof.
  induction l as [|x l IH]; cbn; [done|].
  now rewrite insert_desc_perm, IH.
Qed.

Lemma insert_desc_sorted x l : descending l -> descending (insert_desc x l).
Proof.
  unfold descending. induction 1 as [|y l Hl IH Hy]; cbn.
  - repeat constructor.
  - destruct (Z.ltb_spec y x).
    + constructor; [by constructor|].
      constructor; [lia|]. eapply Forall_impl; [exact Hy|]. cbn. lia.
    + constructor; [done|].
      rewrite insert_desc_perm. constructor; [lia | done].
Qed.

Lemma sorted_desc_sorted l : descending (sorted_desc l).
Proof.
  induction l; cbn; [constructor | by apply insert_desc_sorted].
Qed.

Lemma descending_app_cons pre s post x :
  descending (pre ++ s :: post) -> x ∈ post -> x <= s.
Proof.
  unfold descending. intros H Hx.
  apply StronglySorted_app_1_r in H.
  apply StronglySorted_cons in H as [H _].
  by apply (proj1 (Forall_forall _ _) H).
Qed.

(** *** The table built from a score map *)

Lemma scores_table_of (m : gmap Z entry) s :
  s ∈ scores (table_of m) <-> is_Some (m !! s).
Proof.
  cbn. rewrite sorted_desc_perm, list_elem_of_fmap. split.
  - intros [[k v] [-> Hkv]]. apply elem_of_map_to_list in Hkv. eauto.
  - intros [v Hv]. exists (s, v). split; [done|].
    by apply elem_of_map_to_list.
Qed.

Lemma score_set_table_of (m : gmap Z entry) s :
  s ∈ score_set (table_of m) <-> is_Some (m !! s).
Proof.
  rewrite <- scores_table_of. cbn. by rewrite elem_of_list_to_set.
Qed.

Lemma scores_descending (m : gmap Z entry) : descending (scores (table_of m)).
Proof. apply sorted_desc_sorted. Qed.

(** *** The single-value pass *)

Lemma qualifies_nonzero target max_plays s :
  0 < target -> qualifies target max_plays s -> s <> 0.
Proof.
  intros Ht (_ & Hmod & _) ->. rewrite Z.mod_0_r in Hmod. lia.
Qed.

Lemma single_pass_skip tbl target max_plays s ss :
  s <> 0 -> ~ qualifies target max_plays s ->
  single_pass tbl target max_plays (s :: ss)
  = single_pass tbl target max_plays ss.
Proof.
  intros Hs Hq. cbn [single_pass].
  destruct (Z.leb_spec s target); [|done].
  rewrite mod_nonzero, bind_Ok by done.
  destruct (Z.eqb_spec (target mod s) 0); [|done].
  rewrite floordiv_nonzero, bind_Ok by done.
  destruct (Z.leb_spec (target / s) max_plays); [|done].
  exfalso. apply Hq. by repeat split.
Qed.

Lemma single_pass_hit tbl target max_plays s ss rng b e :
  s <> 0 -> qualifies target max_plays s ->
  score_map tbl !! s = Some (rng, b, e) ->
  single_pass tbl target max_plays (s :: ss)
  = Ok (Some [ {| t_range := rng; t_bonus := b; t_energy := e;
                  t_score := s; t_plays := target / s;
                  t_total := s * (target / s) |} ]).
Proof.
  intros Hs (Hle & Hmod & Hdiv) Hm. cbn [single_pass].
  destruct (Z.leb_spec s target); [|lia].
  rewrite mod_nonzero, bind_Ok by done.
  destruct (Z.eqb_spec (target mod s) 0); [|lia].
  rewrite floordiv_nonzero, bind_Ok by done.
  destruct (Z.leb_spec (target / s) max_plays); [|lia].
  rewrite bind_Ok. unfold ms. rewrite Hm. reflexivity.
Qed.

Lemma single_pass_first tbl target max_plays pre s post rng b e :
  Forall (fun x => x <> 0) pre ->
  Forall (fun x => ~ qualifies target max_plays x) pre ->
  s <> 0 -> qualifies target max_plays s ->
  score_map tbl !! s = Some (rng, b, e) ->
  single_pass tbl target max_plays (pre ++ s :: post)
  = Ok (Some [ {| t_range := rng; t_bonus := b; t_energy := e;
                  t_score := s; t_plays := target / s;
                  t_total := s * (target / s) |} ]).
Proof.
  intros Hnz Hnq Hs Hq Hm.
  induction pre as [|x pre IH]; cbn [app].
  - by apply single_pass_hit.
  - apply Forall_cons in Hnz as [Hx Hnz]. apply Forall_cons in Hnq as [Hxq Hnq].
    rewrite single_pass_skip by done. by apply IH.
Qed.

(** C4. For a positive target, let [s] be the first value of the
    descending catalog list that is at most the target, divides it, and
    needs at most [max_plays] repetitions, no score 0 being listed before
    it (as when [s] is positive, or the catalog has no 0: [target % 0]
    raises).  Then [s] is the largest such catalog value, and
    [find_solution] returns the one-term solution [s] times
    [target / s], found by the single-value pass.  Catalog {100,150,250}
    with target 500 gives 250 twice. *)
Theorem single_value_pass_first_match
    (m : gmap Z entry) target max_plays pre s post :
  0 < target ->
  scores (table_of m) = pre ++ s :: post ->
  0 ∉ pre ->
  Forall (fun x => ~ qualifies target max_plays x) pre ->
  qualifies target max_plays s ->
  (forall x, is_Some (m !! x) -> qualifies target max_plays x -> x <= s)
  /\ (exists rng b e,
        m !! s = Some (rng, b, e) /\
        let sol := [ {| t_range := rng; t_bonus := b; t_energy := e;
                        t_score := s; t_plays := target / s;
                        t_total := s * (target / s) |} ] in
        single_pass (table_of m) target max_plays (scores (table_of m))
        = Ok (Some sol) /\
        find_solution (Some (table_of m)) target max_plays = Ok (Some sol))
  /\ (exists sol,
        find_solution (Some (table_of (catalog [100; 150; 250]))) 500
                      default_max_plays = Ok (Some sol) /\
        shape sol = [(250, 2)]).
Proof.
  intros Ht Hsc H0 Hpre Hs. split; [|split].
  - intros x Hx Hq. apply scores_table_of in Hx. rewrite Hsc in Hx.
    apply elem_of_app in Hx as [Hx | Hx].
    + exfalso. by apply (proj1 (Forall_forall _ _) Hpre x).
    + apply elem_of_cons in Hx as [-> | Hx]; [lia|].
      eapply descending_app_cons; [|exact Hx].
      rewrite <- Hsc. apply scores_descending.
  - assert (Hin : s ∈ scores (table_of m)) by (rewrite Hsc; set_solver).
    apply scores_table_of in Hin as [[[rng b] e] Hm].
    exists rng, b, e. split; [done|].
    assert (Hnz1 : Forall (fun x => x <> 0) pre).
    { apply Forall_forall. by intros x Hx ->. }
    pose proof (qualifies_nonzero target max_plays s Ht Hs) as Hsnz.
    assert (Hsp : single_pass (table_of m) target max_plays (pre ++ s :: post)
                  = Ok (Some [ {| t_range := rng; t_bonus := b; t_energy := e;
                                  t_score := s; t_plays := target / s;
                                  t_total := s * (target / s) |} ])).
    { by apply single_pass_first. }
    cbv zeta. split; [by rewrite Hsc|].
    unfold find_solution. destruct (Z.leb_spec target 0); [lia|].
    rewrite Hsc, Hsp. reflexivity.
  - eexists. split; [vm_compute; reflexivity | reflexivity].
Qed.

Lemma single_value_pass_first_match_witness :
  (forall x, is_Some (catalog [100; 150; 250] !! x) ->
             qualifies 500 50 x -> x <= 250)
  /\ (exists rng b e,
        catalog [100; 150; 250] !! 250 = Some (rng, b, e) /\
        let sol := [ {| t_range := rng; t_bonus := b; t_energy := e;
                        t_score := 250; t_plays := 500 / 250;
                        t_total := 250 * (500 / 250) |} ] in
        single_pass (table_of (catalog [100; 150; 250])) 500 50
                    (scores (table_of (catalog [100; 150; 250])))
        = Ok (Some sol) /\
        find_solution (Some (table_of (catalog [100; 150; 250]))) 500 50
        = Ok (Some sol))
  /\ (exists sol,
        find_solution (Some (table_of (catalog [100; 150; 250]))) 500
                      default_max_plays = Ok (Some sol) /\
        shape sol = [(250, 2)]).
Proof.
  apply (single_value_pass_first_match
           (catalog [100; 150; 250]) 500 50 [] 250 [150; 100]).
  - lia.
  - vm_compute. reflexivity.
  - apply not_elem_of_nil.
  - constructor.
  - unfold qualifies. repeat split; vm_compute; congruence.
Defined.

(** *** The two-value pass *)

Lemma annotated_None m : annotated m None.
Proof. intros sol Hsol. discriminate. Qed.

Lemma ms_table_of (m : gmap Z entry) s p :
  is_Some (m !! s) ->
  exists t, ms (table_of m) s p = Ok t /\ t_score t = s /\ t_plays t = p /\
            m !! s = Some (t_range t, t_bonus t, t_energy t) /\
            t_total t = s * p.
Proof.
  intros [[[rng b] e] Hm]. unfold ms.
  change (score_map (table_of m)) with m. rewrite Hm.
  eexists. split; [reflexivity|]. cbn. by repeat split.
Qed.

Lemma single_pass_none_nonzero tbl target max_plays ss :
  0 <= target ->
  single_pass tbl target max_plays ss = Ok None ->
  Forall (fun s => s <> 0) ss.
Proof.
  intros Ht. induction ss as [|s ss IH]; [constructor|].
  intros H. cbn [single_pass] in H.
  assert (Hs : s <> 0).
  { intros ->. destruct (Z.leb_spec 0 target); [|lia]. discriminate H. }
  constructor; [done|]. apply IH.
  destruct (s <=? target); [|done].
  rewrite mod_nonzero, bind_Ok in H by done.
  destruct (target mod s =? 0); [|done].
  rewrite floordiv_nonzero, bind_Ok in H by done.
  destruct (target / s <=? max_plays); [|done].
  rewrite bind_Ok in H. destruct (ms tbl s (target / s)); discriminate H.
Qed.

Lemma bind_pair_map (s1 : Z) (ps : list Z) :
  (p1 ← ps; [(s1, p1)]) = map (pair s1) ps.
Proof. induction ps as [|p ps IH]; [done|]. cbn. by rewrite <- IH. Qed.

Lemma candidates_cons s1 ss target max_plays :
  candidates (s1 :: ss) target max_plays
  = (if decide (s1 <= target)
     then map (pair s1) (range_down (Z.min (target / s1) max_plays) 0)
     else []) ++ candidates ss target max_plays.
Proof.
  unfold candidates. rewrite filter_cons. case_decide.
  - rewrite bind_cons. by rewrite bind_pair_map.
  - done.
Qed.

Lemma head_filter_app {A} (P : A -> Prop) `{!forall x, Decision (P x)}
    (l1 l2 : list A) :
  head (filter P (l1 ++ l2))
  = match head (filter P l1) with
    | Some x => Some x
    | None => head (filter P l2)
    end.
Proof. rewrite filter_app. by destruct (filter P l1). Qed.

Lemma is_find_pair m target s1 p1 :
  is_find m target (s1, p1)
  = (target - s1 * p1 =? 0)
    || bool_decide (is_Some (m !! (target - s1 * p1))).
Proof. reflexivity. Qed.

Lemma terms_of_pair target s1 p1 :
  terms_of target (s1, p1)
  = if target - s1 * p1 =? 0 then [(s1, p1)]
    else [(s1, p1); (target - s1 * p1, 1)].
Proof. reflexivity. Qed.

Lemma plays_loop_spec (m : gmap Z entry) target s1 ps :
  is_Some (m !! s1) ->
  exists r,
    plays_loop (table_of m) target s1 ps = Ok r /\
    shape <$> r
    = terms_of target <$> head (filter (fun c => is_find m target c = true)
                                       (map (pair s1) ps)) /\
    annotated m r.
Proof.
  intros Hs1. induction ps as [|p1 ps IH]; cbn [plays_loop map].
  - exists None. split; [done|]. split; [done | apply annotated_None].
  - rewrite filter_cons.
    pose proof (is_find_pair m target s1 p1) as Hf.
    pose proof (terms_of_pair target s1 p1) as Hterms.
    destruct (Z.eqb_spec (target - s1 * p1) 0) as [Hrem | Hrem].
    + cbn [orb] in Hf. rewrite decide_True by done.
      destruct (ms_table_of m s1 p1 Hs1) as (t & -> & Hsc & Hpl & Hm & Htot).
      rewrite bind_Ok. exists (Some [t]). split; [done|]. split.
      * cbn [head fmap option_fmap option_map]. rewrite Hterms.
        cbn. by rewrite Hsc, Hpl.
      * intros sol [= <-]. repeat constructor; congruence.
    + cbn [orb] in Hf.
      destruct (decide (is_Some (m !! (target - s1 * p1)))) as [Hin | Hin].
      * rewrite bool_decide_eq_true_2 in Hf by done.
        rewrite (bool_decide_eq_true_2 (_ ∈ score_set _))
          by (by apply score_set_table_of).
        rewrite decide_True by done.
        destruct (ms_table_of m s1 p1 Hs1)
          as (t1 & -> & Hsc1 & Hpl1 & Hm1 & Htot1).
        destruct (ms_table_of m _ 1 Hin)
          as (t2 & -> & Hsc2 & Hpl2 & Hm2 & Htot2).
        rewrite !bind_Ok. exists (Some [t1; t2]). split; [done|]. split.
        -- cbn [head fmap option_fmap option_map]. rewrite Hterms.
           cbn. by rewrite Hsc1, Hpl1, Hsc2, Hpl2.
        -- intros sol [= <-]. repeat constructor; congruence.
      * rewrite bool_decide_eq_false_2 in Hf by done.
        rewrite (bool_decide_eq_false_2 (_ ∈ score_set _))
          by (by rewrite score_set_table_of).
        rewrite decide_False by (rewrite Hf; discriminate). exact IH.
Qed.

Lemma pair_pass_spec (m : gmap Z entry) target max_plays ss :
  Forall (fun s => s <> 0) ss ->
  Forall (fun s => is_Some (m !! s)) ss ->
  exists r,
    pair_pass (table_of m) target max_plays ss = Ok r /\
    shape <$> r = two_value_spec m ss target max_plays /\
    annotated m r.
Proof.
  unfold two_value_spec.
  induction ss as [|s1 ss IH]; intros Hnz Hin.
  - exists None. split; [done|]. split; [done | apply annotated_None].
  - apply Forall_cons in Hnz as [Hs1 Hnz]. apply Forall_cons in Hin as [Hm1 Hin].
    destruct (IH Hnz Hin) as (r & Hr & Hshape & Hann).
    cbn [pair_pass]. rewrite candidates_cons, head_filter_app.
    destruct (Z.ltb_spec target s1).
    + rewrite decide_False by lia. cbn [filter head]. eauto.
    + rewrite decide_True by lia.
      rewrite floordiv_nonzero, bind_Ok by done.
      destruct (plays_loop_spec m target s1
                  (range_down (Z.min (target / s1) max_plays) 0) Hm1)
        as (r1 & -> & Hshape1 & Hann1).
      rewrite bind_Ok. destruct r1 as [sol|].
      * exists (Some sol). split; [done|]. split; [|done].
        rewrite Hshape1.
        by destruct (head (filter _ (map (pair s1) _))).
      * exists r. split; [done|]. split; [|done].
        rewrite Hshape.
        by destruct (head (filter _ (map (pair s1) _))).
Qed.

(** C5. When the single-value pass ends without a result, [find_solution]
    returns the first find of the two-value pass in its order: [s1]
    through the descending catalog with [s1 <= target], and for each [s1]
    the count [p1] from [min(target div s1, max_plays)] down to 1; the
    find is [[(s1,p1)]] when the remainder [target - s1*p1] is 0 and
    [[(s1,p1); (remainder,1)]] when the remainder is a catalog value.
    Every term carries the catalog entry of its score.  Catalog {90,140}
    with target 320 gives 90 twice and 140 once. *)
Theorem two_value_pass_first_find (m : gmap Z entry) target max_plays :
  0 < target ->
  single_pass (table_of m) target max_plays (scores (table_of m)) = Ok None ->
  (exists r,
     find_solution (Some (table_of m)) target max_plays = Ok r /\
     shape <$> r = two_value_spec m (scores (table_of m)) target max_plays /\
     annotated m r)
  /\ descending (scores (table_of m))
  /\ (exists sol,
        find_solution (Some (table_of (catalog [90; 140]))) 320
                      default_max_plays = Ok (Some sol) /\
        shape sol = [(90, 2); (140, 1)]).
Proof.
  intros Ht Hsp. split; [|split].
  - unfold find_solution. destruct (Z.leb_spec target 0); [lia|].
    rewrite Hsp, bind_Ok. apply pair_pass_spec.
    + eapply single_pass_none_nonzero; [|exact Hsp]. lia.
    + apply Forall_forall. intros s Hs. by apply scores_table_of.
  - apply scores_descending.
  - eexists. split; [vm_compute; reflexivity | reflexivity].
Qed.

Lemma two_value_pass_first_find_witness :
  (exists r,
     find_solution (Some (table_of (catalog [90; 140]))) 320 50 = Ok r /\
     shape <$> r
     = two_value_spec (catalog [90; 140])
         (scores (table_of (catalog [90; 140]))) 320 50 /\
     annotated (catalog [90; 140]) r)
  /\ descending (scores (table_of (catalog [90; 140])))
  /\ (exists sol,
        find_solution (Some (table_of (catalog [90; 140]))) 320
                      default_max_plays = Ok (Some sol) /\
        shape sol = [(90, 2); (140, 1)]).
Proof.
  apply (two_value_pass_first_find (catalog [90; 140]) 320 50).
  - lia.
  - vm_compute. reflexivity.
Defined.

(** *** Descending ranges *)

Lemma elem_of_range_down a b x : x ∈ range_down a b <-> b < x <= a.
Proof.
  unfold range_down. rewrite list_elem_of_fmap. split.
  - intros (i & -> & Hi). apply elem_of_seqZ in Hi. lia.
  - intros Hx. exists (a - x). split; [lia|]. apply elem_of_seqZ. lia.
Qed.

(** C6. On the catalog {100} with target 5100 the single-value pass
    rejects 100 played 51 times, and the two-value pass then returns
    100 played 50 times plus the remainder 100 played once: the terms add
    up to the target and each stays within [max_plays = 50], but the one
    score 100 is played 51 times in total. *)
Theorem find_solution_exceeds_max_plays :
  single_pass (table_of (catalog [100])) 5100 default_max_plays
              (scores (table_of (catalog [100]))) = Ok None
  /\ exists sol,
       find_solution (Some (table_of (catalog [100]))) 5100
                     default_max_plays = Ok (Some sol) /\
       shape sol = [(100, 50); (100, 1)] /\
       sum_totals sol = 5100 /\
       uses 100 sol = 51 /\
       default_max_plays < uses 100 sol.
Proof.
  split; [vm_compute; reflexivity|].
  eexists. split; [vm_compute; reflexivity|].
  repeat split.
Qed.

End SolverFacts.

(** ** The closing window *)

Module ClosingFacts.
Import Schedule PyFacts.

Lemma hour_cases (P : Z -> Prop) :
  (forall n : nat, (n < 24)%nat -> P (Z.of_nat n)) ->
  forall H, 0 <= H < 24 -> P H.
Proof.
  intros HP H HH. rewrite <- (Z2Nat.id H) by lia. apply HP. lia.
Qed.

Lemma int_before_colon_time_slot H :
  0 <= H < 24 -> int_of_str (before_colon (time_slot H)) = Ok H.
Proof.
  revert H. apply hour_cases. intros n Hn.
  do 24 (destruct n as [|n]; [vm_compute; reflexivity|]). lia.
Qed.

Lemma micros_replace_hour now H :
  0 <= H < 24 ->
  exists st, replace_hour now H = Ok st /\ micros st = today_at now H.
Proof.
  intros HH. unfold replace_hour.
  destruct (Z.leb_spec 0 H); [|lia]. destruct (Z.ltb_spec H 24); [|lia].
  eexists. split; [reflexivity|]. unfold micros, today_at. cbn. lia.
Qed.

Lemma micros_add_days d n : micros (add_days d n) = micros d + timedelta_days n.
Proof. unfold micros, add_days, timedelta_days. cbn. lia. Qed.

Lemma hours_of_micros (d : Z) :
  (inject_Z d / 1000000 / 3600 == inject_Z d / inject_Z (3600 * 1000000))%Q.
Proof.
  change (inject_Z (3600 * 1000000)) with 3600000000%Q. field.
Qed.

Lemma has_s6_alt_filled schedule today hour_str :
  has_s6 schedule today hour_str = true <-> alt_filled schedule today hour_str.
Proof.
  unfold has_s6, alt_filled. split.
  - destruct (schedule !! today) as [day|] eqn:Hday; cbn; [|done].
    destruct (day !! hour_str) as [sl|] eqn:Hsl; [|done].
    destruct (sl_shift sl) as [sh|] eqn:Hsh; [|done].
    intros Hb. apply bool_decide_eq_true in Hb as [a Ha].
    by exists day, sl, sh, a.
  - intros (day & sl & sh & a & -> & Hsl & Hsh & Ha). cbn.
    rewrite Hsl, Hsh. apply bool_decide_eq_true. eauto.
Qed.

Lemma hours_until_le now H (k : Z) :
  (hours_until now H <= inject_Z k)%Q
  <-> slot_start now H - micros now <= k * 3600000000.
Proof.
  unfold hours_until. change (inject_Z (3600 * 1000000)) with 3600000000%Q.
  unfold Qle, Qdiv, Qmult, Qinv, inject_Z. cbn. lia.
Qed.

Lemma micros_slot_start now st H :
  micros st = today_at now H ->
  micros (if micros st <? micros now - timedelta_hours 12
          then add_days st 1 else st)
  = slot_start now H.
Proof.
  intros Hst. unfold slot_start, timedelta_hours.
  destruct (Z.ltb_spec (micros st) (micros now - 12 * 3600 * 1000000));
    destruct (Z.gtb_spec (micros now - today_at now H) (12 * 3600 * 1000000));
    rewrite ?micros_add_days; unfold timedelta_days; lia.
Qed.

Lemma Qle_bool_hours st now H (k : Z) :
  micros st = slot_start now H ->
  Qle_bool (total_seconds st now / 3600) (inject_Z k) = true
  <-> (hours_until now H <= inject_Z k)%Q.
Proof.
  intros Hst. rewrite Qle_bool_iff. unfold total_seconds.
  rewrite hours_of_micros, Hst. reflexivity.
Qed.

(** C1. For an hour label [H] in 0..23 and any evaluation time,
    [is_signup_closed] takes the slot start to be today at hour [H],
    moved to the next calendar day when that instant is more than 12
    hours in the past, and reports the slot closed exactly when the
    fractional hours until the slot start are at most 1, or at most 2
    while the slot's alt position is filled.  A slot exactly 1.0 hours
    away is closed; a slot exactly 1.01 hours away whose alt position is
    empty is open. *)
Theorem closing_window now today schedule H :
  0 <= H < 24 ->
  exists b reason,
    is_signup_closed now today schedule (time_slot H) = Ok (b, reason) /\
    (b = true <->
     closed_spec now H (alt_filled schedule today (time_slot H))) /\
    ((hours_until now H == 1)%Q -> b = true) /\
    ((hours_until now H == 101 # 100)%Q ->
     ~ alt_filled schedule today (time_slot H) -> b = false).
Proof.
  intros HH. unfold is_signup_closed.
  rewrite int_before_colon_time_slot by done.
  destruct (micros_replace_hour now H HH) as (st & -> & Hst).
  rewrite bind_Ok. cbv zeta.
  pose proof (micros_slot_start now st H Hst) as Hst'.
  set (st' := if micros st <? micros now - timedelta_hours 12
              then add_days st 1 else st) in *.
  pose proof (Qle_bool_hours st' now H 1 Hst') as H1.
  pose proof (Qle_bool_hours st' now H 2 Hst') as H2.
  pose proof (has_s6_alt_filled schedule today (time_slot H)) as Hs6.
  change (inject_Z 1) with 1%Q in H1. change (inject_Z 2) with 2%Q in H2.
  assert (Hiff :
    (Qle_bool (total_seconds st' now / 3600) 1
     || Qle_bool (total_seconds st' now / 3600) 2
        && has_s6 schedule today (time_slot H)) = true
    <-> closed_spec now H (alt_filled schedule today (time_slot H))).
  { unfold closed_spec. rewrite orb_true_iff, andb_true_iff. tauto. }
  destruct (Qle_bool (total_seconds st' now / 3600) 1) eqn:E1.
  - eexists _, _. split; [reflexivity|]. split; [|split].
    + split; [intros _; by apply Hiff | done].
    + done.
    + intros Heq _. exfalso.
      assert (Hle : (hours_until now H <= 1)%Q) by (by apply H1).
      rewrite Heq in Hle. by apply Hle.
  - destruct (Qle_bool (total_seconds st' now / 3600) 2
              && has_s6 schedule today (time_slot H)) eqn:E2.
    + eexists _, _. split; [reflexivity|]. split; [|split].
      * split; [intros _; by apply Hiff | done].
      * done.
      * intros _ Hno. apply andb_true_iff in E2 as [_ E2].
        exfalso. by apply Hno, Hs6.
    + eexists _, _. split; [reflexivity|]. split; [|split].
      * split; [done | intros Hc; by apply Hiff in Hc].
      * intros Heq. assert (Hle : (hours_until now H <= 1)%Q).
        { rewrite Heq. apply Qle_refl. }
        apply H1 in Hle. discriminate Hle.
      * done.
Qed.

Lemma closing_window_witness :
  exists b reason,
    is_signup_closed now_7am "2024-04-27" ∅ (time_slot 8) = Ok (b, reason) /\
    (b = true <->
     closed_spec now_7am 8 (alt_filled ∅ "2024-04-27" (time_slot 8))) /\
    ((hours_until now_7am 8 == 1)%Q -> b = true) /\
    ((hours_until now_7am 8 == 101 # 100)%Q ->
     ~ alt_filled ∅ "2024-04-27" (time_slot 8) -> b = false).
Proof. apply (closing_window now_7am "2024-04-27" ∅ 8). lia. Defined.

(** At 06:59:24 the 08:00 slot is 1.01 hours away and, with no alt
    occupant, still open; at 07:00:00 it is 1.0 hours away and closed. *)
Example open_at_1_01_hours :
  (hours_until now_6_59_24 8 == 101 # 100)%Q /\
  is_signup_closed now_6_59_24 "2024-04-27" ∅ "08:00" = Ok (false, "").
Proof. split; vm_compute; reflexivity. Qed.

Example closed_at_1_hour :
  (hours_until now_7am 8 == 1)%Q /\
  is_signup_closed now_7am "2024-04-27" ∅ "08:00"
  = Ok (true, "08:00 已截止（前1h）").
Proof. split; vm_compute; reflexivity. Qed.

End ClosingFacts.

(** ** Auto-assignment *)

Module AssignFacts.
Import Schedule PyFacts.

Lemma accounts_eq app :
  accounts app = map (account app) (seq 0 (accs_of (multi app))).
Proof. reflexivity. Qed.

Lemma account_copy_account app ai :
  (ai < 3)%nat -> account_copy app ai = account app ai.
Proof.
  intros H. destruct ai as [|[|[|ai]]]; [reflexivity..|lia].
Qed.

Lemma accs_of_cases mu :
  accs_of mu = 1%nat \/ accs_of mu = 2%nat \/ accs_of mu = 3%nat.
Proof.
  unfold accs_of.
  destruct (String.eqb mu "單開"); [tauto|].
  destruct (String.eqb mu "雙開"); [tauto|].
  destruct (String.eqb mu "三開"); tauto.
Qed.

Lemma accs_of_bounds mu : (1 <= accs_of mu <= 3)%nat.
Proof. destruct (accs_of_cases mu) as [-> | [-> | ->]]; lia. Qed.

Lemma length_accounts app : length (accounts app) = accs_of (multi app).
Proof. rewrite accounts_eq, length_map. apply length_seq. Qed.

Lemma positions_of_take l : positions_of (take 3 l) = positions_of l.
Proof.
  unfold positions_of. by rewrite !lookup_take_lt by lia.
Qed.

Lemma positions_of_app_full l r :
  length l = 3%nat -> positions_of (l ++ r) = positions_of l.
Proof.
  intros H. unfold positions_of. by rewrite !lookup_app_l by lia.
Qed.

(** The inner loop writes the accounts [0..k-1] of the candidate behind
    the occupants already in place. *)
Lemma fill_accounts_spec app sh l k :
  (length l + k <= 3)%nat ->
  positions sh = positions_of l ->
  let st := fill_accounts app (seq 0 k) (sh, length l) in
  positions st.1 = positions_of (l ++ map (account app) (seq 0 k))
  /\ st.2 = (length l + k)%nat
  /\ frame st.1 = frame sh.
Proof.
  intros Hlen Hpos. destruct sh as [ct q1 q2 q3 q4 q5 sp av nt].
  unfold positions, positions_of in Hpos. cbn in Hpos.
  injection Hpos as -> -> ->.
  destruct l as [|x0 [|x1 [|x2 [|x3 l]]]]; cbn in Hlen;
    destruct k as [|[|[|[|k]]]]; try lia; cbn; done.
Qed.

Lemma take_app_take {A} (k : nat) (a r : list A) :
  take k (take k a ++ r) = take k (a ++ r).
Proof.
  destruct (decide (length a <= k)%nat) as [Hle | Hgt].
  - by rewrite (take_ge a k) by lia.
  - rewrite !take_app_le by (rewrite ?length_take; lia).
    by rewrite take_take, Nat.min_id.
Qed.

Lemma map_seq_min {A} (f : nat -> A) (n k : nat) :
  map f (seq 0 (Nat.min n k)) = take k (map f (seq 0 n)).
Proof.
  rewrite firstn_map, take_seq. do 2 f_equal. lia.
Qed.

(** The outer loop: the positions hold the first three of the occupants
    asked for, in candidate order. *)
Lemma assign_pushers_spec psa : forall sh l,
  (length l <= 3)%nat ->
  positions sh = positions_of l ->
  let st := assign_pushers psa (sh, length l) in
  positions st.1 = positions_of (l ++ (psa ≫= accounts))
  /\ frame st.1 = frame sh.
Proof.
  induction psa as [|app rest IH]; intros sh l Hlen Hpos; cbn [assign_pushers].
  - cbn. by rewrite app_nil_r.
  - cbn [fst snd]. destruct (Nat.leb_spec 3 (length l)) as [Hfull | Hroom].
    + cbn [fst]. split; [|done].
      rewrite positions_of_app_full by lia. done.
    + set (k := Nat.min (accs_of (multi app)) (3 - length l)).
      destruct (fill_accounts_spec app sh l k ltac:(lia) Hpos)
        as (Hpos' & Hn & Hframe).
      destruct (fill_accounts app (seq 0 k) (sh, length l)) as [sh' n'].
      cbn [fst snd] in *. subst n'.
      replace (length l + k)%nat
        with (length (l ++ map (account app) (seq 0 k)))
        by (rewrite length_app, length_map, length_seq; lia).
      destruct (IH sh' (l ++ map (account app) (seq 0 k))) as [Hres Hfr].
      { rewrite length_app, length_map, length_seq. lia. }
      { exact Hpos'. }
      split; [|congruence].
      rewrite Hres. rewrite bind_cons.
      rewrite <- (positions_of_take (_ ++ rest ≫= accounts)).
      rewrite <- (positions_of_take (l ++ _ ++ _)).
      f_equal. unfold k. rewrite map_seq_min, <- accounts_eq.
      rewrite <- (app_assoc l).
      replace 3%nat with (length l + (3 - length l))%nat at 1 3 by lia.
      rewrite !take_app_add'. f_equal. apply take_app_take.
      all: done.
Qed.

(** What [auto_assign_schedule] returns: the shift left by the pusher
    loop, with its average filled in. *)
Lemma auto_assign_inv dt hour apps sh :
  auto_assign_schedule dt hour apps = Some sh ->
  apps <> [] /\
  exists sh',
    sh = set_avg_bonus sh' (mean (pusher_bonuses sh')) /\
    positions sh' = positions_of (pusher_candidates apps ≫= accounts) /\
    car_type sh' = default_car_type /\ note sh' = "" /\
    p1 sh' = {| l_name := "omega"; l_fixed := true |}.
Proof.
  destruct apps as [|a apps]; [discriminate|].
  unfold auto_assign_schedule. cbv zeta. intros [= <-]. split; [done|].
  eexists. split; [reflexivity|].
  fold (pusher_candidates (a :: apps)).
  set (s6a := filter (fun a => role a = "s6") _).
  set (spa := filter (fun a => role a = "support") _).
  match goal with
  | |- context [assign_pushers _ (?s, 0%nat)] => set (sh0 := s)
  end.
  destruct (assign_pushers_spec (pusher_candidates (a :: apps)) sh0 [])
    as [Hpos Hfr].
  { cbn. lia. }
  { subst sh0. by destruct s6a, spa. }
  cbn [length app] in Hpos, Hfr. split; [exact Hpos|].
  unfold frame in Hfr. injection Hfr as Hct Hp1 _ _ _ Hnt.
  refine (conj (eq_trans Hct _) (conj (eq_trans Hnt _) (eq_trans Hp1 _)));
    subst sh0; by destruct s6a, spa.
Qed.

Lemma auto_assign_nonempty dt hour apps :
  apps <> [] -> is_Some (auto_assign_schedule dt hour apps).
Proof. destruct apps; [done | eauto]. Qed.

Lemma length_pusher_line psa : (length (pusher_line psa) <= 3)%nat.
Proof. unfold pusher_line. rewrite length_take. lia. Qed.

Lemma positions_of_line psa :
  positions_of (pusher_line psa) = positions_of (psa ≫= accounts).
Proof. apply positions_of_take. Qed.

Lemma filled_positions_of l :
  (length l <= 3)%nat -> omap id (positions_of l) = l.
Proof.
  intros H. destruct l as [|x0 [|x1 [|x2 [|x3 l]]]]; cbn in *; [done..|lia].
Qed.

(** The share of one candidate: behind the [used] positions taken by the
    candidates before it, it gets its accounts up to the room left. *)
Lemma pusher_line_share pre a post :
  let used := length (pre ≫= accounts) in
  take (used + length (accounts a)) (pusher_line (pre ++ a :: post))
  = take 3 (pre ≫= accounts) ++ take (3 - used) (accounts a).
Proof.
  cbv zeta. unfold pusher_line. rewrite bind_app, bind_cons.
  set (P := pre ≫= accounts). set (A := accounts a).
  set (R := post ≫= accounts). rewrite take_take.
  destruct (decide (3 <= length P)%nat) as [Hfull | Hroom].
  - replace (3 - length P)%nat with 0%nat by lia.
    rewrite take_0, app_nil_r.
    replace (Nat.min (length P + length A) 3) with 3%nat by lia.
    by rewrite take_app_le by lia.
  - rewrite (take_ge P) by lia.
    replace (Nat.min (length P + length A) 3)
      with (length P + Nat.min (length A) (3 - length P))%nat by lia.
    rewrite take_app_add. f_equal.
    rewrite take_app_le by lia.
    rewrite <- take_take. apply take_ge. rewrite length_take. lia.
Qed.

(** C2 (as the code has it).  The three pusher positions hold, in order,
    the first three of the occupants asked for by the pusher candidates
    in sorted order, so at most three are filled; a candidate asks for
    1, 2 or 3 occupants by its multiplicity (1 for an unknown one) and
    gets them up to the positions left; the occupant of account index
    [ai > 0] has the display name suffixed with the index and carries
    the secondary or tertiary bonus when that bonus is non-zero, the
    primary bonus otherwise; a first candidate of triple multiplicity
    fills all three positions. *)
Theorem pusher_positions_filled dt hour apps sh :
  auto_assign_schedule dt hour apps = Some sh ->
  let psa := pusher_candidates apps in
  positions sh = positions_of (pusher_line psa)
  /\ omap id (positions sh) = pusher_line psa
  /\ (length (omap id (positions sh)) <= 3)%nat
  /\ (forall pre a post, psa = pre ++ a :: post ->
       let used := length (pre ≫= accounts) in
       length (accounts a) = accs_of (multi a) /\
       (1 <= accs_of (multi a) <= 3)%nat /\
       take (used + length (accounts a)) (pusher_line psa)
       = take 3 (pre ≫= accounts) ++ take (3 - used) (accounts a))
  /\ (forall i c, pusher_line psa !! i = Some c ->
       exists a ai, a ∈ psa /\ (ai < accs_of (multi a))%nat /\
         c = account a ai /\
         name c = account_name a ai /\ bonus c = account_bonus a ai)
  /\ (forall a rest, psa = a :: rest -> multi a = "三開" ->
       positions sh
       = [Some (account a 0); Some (account a 1); Some (account a 2)]).
Proof.
  intros Hsh psa.
  destruct (auto_assign_inv dt hour apps sh Hsh)
    as (_ & sh' & -> & Hpos & _).
  fold psa in Hpos.
  assert (Hp : positions (set_avg_bonus sh' (mean (pusher_bonuses sh')))
               = positions_of (pusher_line psa)).
  { rewrite positions_of_line. exact Hpos. }
  split; [exact Hp|]. split; [|split; [|split; [|split]]].
  - rewrite Hp. apply filled_positions_of, length_pusher_line.
  - rewrite Hp, filled_positions_of by apply length_pusher_line.
    apply length_pusher_line.
  - intros pre a post Hpsa. cbv zeta.
    split; [apply length_accounts|]. split; [apply accs_of_bounds|].
    rewrite Hpsa. apply pusher_line_share.
  - intros i c Hc. apply list_elem_of_lookup_2 in Hc.
    unfold pusher_line in Hc. apply subseteq_take in Hc.
    apply list_elem_of_bind in Hc as (a & Hc & Ha).
    unfold accounts in Hc. apply list_elem_of_fmap in Hc as (ai & -> & Hai).
    apply elem_of_seq in Hai. exists a, ai. repeat split; [done | lia].
  - intros a rest Hpsa Hmulti. rewrite Hp, positions_of_line, Hpsa.
    rewrite bind_cons. unfold accounts at 1. rewrite Hmulti. reflexivity.
Qed.

Lemma pusher_positions_filled_witness :
  let apps := [sample "A" 2 0 (5 # 2) "三開" "pusher" "2024-04-27T06:00:00";
               sample "B" (12 # 5) 0 0 "單開" "pusher" "2024-04-27T06:30:00"] in
  exists sh,
  auto_assign_schedule "2024-04-27" "08:00" apps = Some sh /\
  let psa := pusher_candidates apps in
  positions sh = positions_of (pusher_line psa)
  /\ omap id (positions sh) = pusher_line psa
  /\ (length (omap id (positions sh)) <= 3)%nat
  /\ (forall pre a post, psa = pre ++ a :: post ->
       let used := length (pre ≫= accounts) in
       length (accounts a) = accs_of (multi a) /\
       (1 <= accs_of (multi a) <= 3)%nat /\
       take (used + length (accounts a)) (pusher_line psa)
       = take 3 (pre ≫= accounts) ++ take (3 - used) (accounts a))
  /\ (forall i c, pusher_line psa !! i = Some c ->
       exists a ai, a ∈ psa /\ (ai < accs_of (multi a))%nat /\
         c = account a ai /\
         name c = account_name a ai /\ bonus c = account_bonus a ai)
  /\ (forall a rest, psa = a :: rest -> multi a = "三開" ->
       positions sh
       = [Some (account a 0); Some (account a 1); Some (account a 2)]).
Proof.
  intros apps. eexists. split; [vm_compute; reflexivity|].
  apply (pusher_positions_filled "2024-04-27" "08:00" apps).
  vm_compute. reflexivity.
Defined.

(** C2, the claim as written fails: a candidate of double multiplicity
    whose secondary bonus is unset (0) gets a second occupant that
    carries the primary bonus 2, not the secondary bonus 0. *)
Lemma secondary_bonus_not_always_carried :
  let a := sample "A" 2 0 0 "雙開" "pusher" "2024-04-27T06:00:00" in
  exists sh c,
    auto_assign_schedule "2024-04-27" "08:00" [a] = Some sh /\
    p4 sh = Some c /\
    name c = "A(2開)" /\
    (bonus c == bonus a)%Q /\
    ~ (bonus c == bonus_2 a)%Q.
Proof.
  cbv zeta. eexists _, _. split; [vm_compute; reflexivity|].
  split; [reflexivity|]. split; [reflexivity|].
  split; [reflexivity | discriminate].
Qed.

(** *** Re-derivation *)

Lemma refresh_schedule_lookup (schedule : gmap string (gmap string slot))
    dt day h sl :
  schedule !! dt = Some day -> day !! h = Some sl ->
  refresh_schedule schedule dt !! dt ≫= (fun day => day !! h)
  = Some (refresh_slot dt h sl).
Proof.
  intros Hday Hsl. unfold refresh_schedule. rewrite Hday.
  rewrite lookup_insert_eq. cbn. rewrite map_lookup_imap, Hsl. done.
Qed.

Lemma refresh_slot_nonempty dt h sl sh :
  auto_assign_schedule dt h (sl_applicants sl) = Some sh ->
  refresh_slot dt h sl
  = {| sl_shift := Some sh; sl_applicants := sl_applicants sl |}.
Proof.
  intros Hsh. unfold refresh_slot.
  destruct (sl_applicants sl) as [|a apps] eqn:Happs; [discriminate|].
  by rewrite Hsh.
Qed.

(** *** The average bonus *)







(** C10. In a slot whose applicant list is not empty, [refresh_schedule]
    replaces the ten shift keys by those of the shift freshly built from
    the applicant list: [car_type] is the default, [note] is the empty
    string, the leader is the fixed one, whatever the slot held before;
    the applicant list is kept. *)
Theorem refresh_resets_car_type_and_note
    (schedule : gmap string (gmap string slot)) dt day h sl :
  schedule !! dt = Some day -> day !! h = Some sl ->
  sl_applicants sl <> [] ->
  exists sh,
    refresh_schedule schedule dt !! dt ≫= (fun day => day !! h)
    = Some {| sl_shift := Some sh; sl_applicants := sl_applicants sl |} /\
    auto_assign_schedule dt h (sl_applicants sl) = Some sh /\
    car_type sh = default_car_type /\ note sh = "" /\
    p1 sh = {| l_name := "omega"; l_fixed := true |}.
Proof.
  intros Hday Hsl Happs.
  destruct (auto_assign_nonempty dt h (sl_applicants sl) Happs) as [sh Hsh].
  exists sh. split; [|split; [done|]].
  - rewrite (refresh_schedule_lookup schedule dt day h sl Hday Hsl).
    f_equal. by apply refresh_slot_nonempty.
  - destruct (auto_assign_inv dt h _ sh Hsh)
      as (_ & sh' & -> & _ & Hct & Hnt & Hp1).
    by repeat split.
Qed.

Lemma refresh_resets_car_type_and_note_witness :
  exists sh,
    refresh_schedule edited_schedule "2024-04-27" !! "2024-04-27"
      ≫= (fun day => day !! "08:00")
    = Some {| sl_shift := Some sh;
              sl_applicants := sl_applicants edited_slot |} /\
    auto_assign_schedule "2024-04-27" "08:00" (sl_applicants edited_slot)
    = Some sh /\
    car_type sh = default_car_type /\ note sh = "" /\
    p1 sh = {| l_name := "omega"; l_fixed := true |}.
Proof.
  apply (refresh_resets_car_type_and_note edited_schedule "2024-04-27"
           {[ "08:00" := edited_slot ]} "08:00" edited_slot).
  - vm_compute. reflexivity.
  - vm_compute. reflexivity.
  - discriminate.
Defined.

End AssignFacts.

(** ** The plan search *)

Module PlanFacts.
Import PyNum Plans PyFacts.

Lemma insert_by_perm {A} (lt : A -> A -> bool) x l :
  insert_by lt x l ≡ₚ x :: l.
Proof.
  induction l as [|y l IH]; cbn; [done|].
  destruct (lt y x); [|done]. rewrite IH. apply Permutation_swap.
Qed.

Lemma sorted_by_perm {A} (lt : A -> A -> bool) l : sorted_by lt l ≡ₚ l.
Proof.
  induction l as [|x l IH]; cbn; [done|].
  now rewrite insert_by_perm, IH.
Qed.

Lemma collect_elem {A B} (f : A -> result (list B)) l ys y :
  collect f l = Ok ys -> y ∈ ys ->
  exists x xs, x ∈ l /\ f x = Ok xs /\ y ∈ xs.
Proof.
  revert ys. induction l as [|x l IH]; intros ys; cbn [collect].
  - intros [= <-] Hy. by apply elem_of_nil in Hy.
  - destruct (f x) as [xs|e] eqn:Hfx; [|discriminate]. rewrite bind_Ok.
    destruct (collect f l) as [zs|e] eqn:Hl; [|discriminate].
    rewrite bind_Ok. intros [= <-] Hy.
    apply elem_of_app in Hy as [Hy | Hy].
    + exists x, xs. split; [left|]. done.
    + destruct (IH zs eq_refl Hy) as (x' & xs' & Hx' & Hfx' & Hy').
      exists x', xs'. split; [by right|]. done.
Qed.

Lemma collect_total {A B} (f : A -> result (list B)) l :
  (forall x, x ∈ l -> exists ys, f x = Ok ys) ->
  exists ys, collect f l = Ok ys.
Proof.
  induction l as [|x l IH]; intros Hf; cbn [collect]; [eauto|].
  destruct (Hf x) as [xs ->]; [left|].
  destruct IH as [zs ->]; [intros; apply Hf; by right|].
  rewrite !bind_Ok. eauto.
Qed.

(** A computation that returns went through each of its steps. *)
Lemma bind_inv {A B} (m : result A) (k : A -> result B) b :
  (m ≫= k) = Ok b -> exists a, m = Ok a /\ k a = Ok b.
Proof. destruct m as [a|e]; [eauto | discriminate]. Qed.

Tactic Notation "step" hyp(H) ident(a) ident(Ha) :=
  apply bind_inv in H as (a & Ha & H).

(** What [make_plan] puts in a plan. *)
Lemma make_plan_inv q sg dk darr sc e r :
  make_plan q sg dk darr sc e = Ok (Some r) ->
  exists cycle per_hour eph_raw minutes_raw adj,
    calc_ep_value (live_type q) sc (s_rate sg) (bonus q)
                  (default 1 (ENERGY_MULTIPLIERS !! e)) (power q) (life q)
    = Ok (ep r) /\
    0 < ep r /\
    add (s_time sg) (interval q) = Ok cycle /\
    truediv (Int 3600) cycle = Ok per_hour /\
    mul (Int (ep r)) per_hour = Ok eph_raw /\
    round eph_raw = Ok (eph r) /\
    plays_for q (Int (ep r)) = Ok (plays r) /\
    minutes (plays r) cycle = Ok minutes_raw /\
    round1 minutes_raw = Ok (time_min r) /\
    adjust q (ep r) cycle e (plays r) minutes_raw (plays r * e) = Ok adj /\
    adj_plays r = adj.1.1.1 /\
    round1 adj.1.1.2 = Ok (adj_time_min r) /\
    adj_stamina r = adj.1.2 /\
    catchable r = adj.2 /\
    title r = s_title sg /\ id r = s_id sg /\ diff r = dk /\
    lv r = nth 0 darr (Int 0) /\ time r = s_time sg /\ rate r = s_rate sg /\
    energy r = e /\ boost r = default 1 (ENERGY_MULTIPLIERS !! e) /\
    stamina r = plays r * e /\ score r = sc.
Proof.
  unfold make_plan. cbv zeta. intros H.
  step H epv Hep.
  destruct (Z.leb_spec epv 0) as [|Hpos]; [discriminate|].
  step H cycle Hcycle. step H per_hour Hph. step H eph_raw Heph.
  step H pl Hplays. step H tm Htm. step H adj Hadj.
  step H eph_r Hephr. step H tm_r Htmr. step H atm_r Hatmr.
  injection H as <-. cbn.
  exists cycle, per_hour, eph_raw, tm, adj. done.
Qed.

Lemma all_plans_inv db q items r :
  all_plans db q = Ok items -> r ∈ items ->
  exists sg dk darr sc e,
    sg ∈ db /\ (dk, darr) ∈ s_diffs sg /\ e ∈ energy_options q /\
    le (s_time sg) (Int 0) = false /\
    (length darr <? 11)%nat = false /\
    calc_song_score darr (live_type q) (power q) (skill_mag q) (s6 q)
    = Ok sc /\
    make_plan q sg dk darr sc e = Ok (Some r).
Proof.
  intros Hall Hr.
  destruct (collect_elem _ _ _ _ Hall Hr) as (sg & ps & Hsg0 & Hsg & Hr1).
  unfold song_plans in Hsg.
  destruct (le (s_time sg) (Int 0)) eqn:Ht.
  { injection Hsg as <-. by apply elem_of_nil in Hr1. }
  destruct (collect_elem _ _ _ _ Hsg Hr1)
    as ([dk darr] & ps2 & Hd0 & Hd & Hr2).
  unfold diff_plans in Hd.
  destruct (length darr <? 11)%nat eqn:Hlen.
  { injection Hd as <-. by apply elem_of_nil in Hr2. }
  step Hd sc Hsc.
  destruct (collect_elem _ _ _ _ Hd Hr2) as (e & ps3 & He0 & He & Hr3).
  step He o Hmk. injection He as <-.
  destruct o as [r'|]; cbn in Hr3.
  - apply list_elem_of_singleton in Hr3 as ->.
    exists sg, dk, darr, sc, e. done.
  - by apply elem_of_nil in Hr3.
Qed.

Lemma make_plan_adjusted q sg dk darr sc e r :
  lt (Int 0) (border_speed q) = true ->
  make_plan q sg dk darr sc e = Ok (Some r) -> adjusted q r.
Proof.
  intros Hb Hmk.
  destruct (make_plan_inv _ _ _ _ _ _ _ Hmk)
    as (cycle & per_hour & eph_raw & tm & adj & _ & _ & Hcycle & _ & _ & _
        & _ & _ & _ & Hadj & Hap & Hatm & Hast & Hc & _ & _ & _ & _ & Htime
        & _ & Hen & _).
  unfold adjust in Hadj. rewrite Hb in Hadj.
  step Hadj net Hnet.
  unfold adjusted, net_ep, adjusted_minutes. rewrite Htime, Hcycle, !bind_Ok.
  exists net. split; [done|].
  destruct (le net (Int 0)) eqn:Hle.
  - injection Hadj as <-. cbn in *. split; [done|]. done.
  - step Hadj ap Hplays. step Hadj at_ Hmin. injection Hadj as <-.
    cbn in *. split; [done|]. intros _.
    subst. rewrite Hmin, bind_Ok. done.
Qed.

Lemma all_plans_adjusted db q items r :
  lt (Int 0) (border_speed q) = true ->
  all_plans db q = Ok items -> r ∈ items -> adjusted q r.
Proof.
  intros Hb Hall Hr.
  destruct (all_plans_inv db q items r Hall Hr)
    as (sg & dk & darr & sc & e & _ & _ & _ & _ & _ & _ & Hmk).
  by eapply make_plan_adjusted.
Qed.

Lemma pick_elem n items seen c r :
  r ∈ pick n items seen c -> r ∈ items /\ catchable r = true.
Proof.
  revert seen c. induction items as [|x items IH]; intros seen c; cbn [pick].
  - intros H. by apply elem_of_nil in H.
  - destruct (catchable x) eqn:Hx; cbn [negb].
    + case_bool_decide as Hseen.
      * intros H%IH. split; [right|]; tauto.
      * intros H. apply elem_of_cons in H as [-> | H]; [split; [left|]; done|].
        destruct (n <=? c + 1); [by apply elem_of_nil in H|].
        apply IH in H. split; [right|]; tauto.
    + intros H%IH. split; [right|]; tauto.
Qed.

Lemma select_elem q items r :
  r ∈ select q items -> r ∈ items /\ catchable r = true.
Proof.
  unfold select. intros H.
  apply list_elem_of_bind in H as (e & H & _).
  apply pick_elem in H as [H Hc]. split; [|done].
  rewrite sorted_by_perm in H. unfold by_energy in H.
  by apply list_elem_of_filter in H as [_ H].
Qed.

(** C7. When the border speed is positive, every plan candidate has a
    net value [ep - border_speed * (cycle / 3600)] for its cycle
    [time + interval], computed in that order on the numbers of the
    code: when that value is [<= 0] the candidate is marked not catchable
    and is absent from the results of [find_push_plans]; otherwise its
    adjusted repetitions are [ceil(gap / net_ep)], its adjusted time is
    those repetitions times the cycle over 60 (rounded to one decimal)
    and its adjusted stamina those repetitions times the energy.  A plan
    worth 1000 with a cycle of 120 s against a border speed of 40000 is
    excluded. *)
Theorem catch_up_adjustment db q items :
  lt (Int 0) (border_speed q) = true ->
  all_plans db q = Ok items ->
  exists results,
    find_push_plans db q = Ok results /\
    (forall r, r ∈ items ->
       exists net,
         net_ep q r = Ok net /\
         (le net (Int 0) = true -> catchable r = false /\ r ∉ results) /\
         (le net (Int 0) = false ->
            catchable r = true /\
            plays_for q net = Ok (adj_plays r) /\
            adjusted_minutes q r = Ok (adj_time_min r) /\
            adj_stamina r = adj_plays r * energy r)) /\
    (forall r, r ∈ results ->
       r ∈ items /\ catchable r = true /\
       exists net, net_ep q r = Ok net /\ le net (Int 0) = false) /\
    (exists r net,
       all_plans sample_db sample_query = Ok [r] /\
       ep r = 1000 /\
       add (time r) (interval sample_query) = Ok (Int 120) /\
       border_speed sample_query = Int 40000 /\
       net_ep sample_query r = Ok net /\ lt net (Int 0) = true /\
       catchable r = false /\
       find_push_plans sample_db sample_query = Ok []).
Proof.
  intros Hb Hall. exists (select q items). split.
  { unfold find_push_plans. by rewrite Hall. }
  split; [|split].
  - intros r Hr. destruct (all_plans_adjusted db q items r Hb Hall Hr)
      as (net & Hnet & Hno & Hyes).
    exists net. split; [done|]. split; [|exact Hyes].
    intros Hle. split; [by apply Hno|].
    intros Hin. apply select_elem in Hin as [_ Hc].
    rewrite (Hno Hle) in Hc. discriminate.
  - intros r Hr. apply select_elem in Hr as [Hr Hc].
    split; [done|]. split; [done|].
    destruct (all_plans_adjusted db q items r Hb Hall Hr)
      as (net & Hnet & Hno & _).
    exists net. split; [done|].
    destruct (le net (Int 0)); [|done].
    rewrite Hno in Hc by done. discriminate.
  - eexists _, _. split; [vm_compute; reflexivity|].
    repeat split; vm_compute; reflexivity.
Qed.

Lemma catch_up_adjustment_witness :
  exists items,
  all_plans sample_db slow_border_query = Ok items /\
  exists results,
    find_push_plans sample_db slow_border_query = Ok results /\
    (forall r, r ∈ items ->
       exists net,
         net_ep slow_border_query r = Ok net /\
         (le net (Int 0) = true -> catchable r = false /\ r ∉ results) /\
         (le net (Int 0) = false ->
            catchable r = true /\
            plays_for slow_border_query net = Ok (adj_plays r) /\
            adjusted_minutes slow_border_query r = Ok (adj_time_min r) /\
            adj_stamina r = adj_plays r * energy r)) /\
    (forall r, r ∈ results ->
       r ∈ items /\ catchable r = true /\
       exists net, net_ep slow_border_query r = Ok net /\
                   le net (Int 0) = false) /\
    (exists r net,
       all_plans sample_db sample_query = Ok [r] /\
       ep r = 1000 /\
       add (time r) (interval sample_query) = Ok (Int 120) /\
       border_speed sample_query = Int 40000 /\
       net_ep sample_query r = Ok net /\ lt net (Int 0) = true /\
       catchable r = false /\
       find_push_plans sample_db sample_query = Ok []).
Proof.
  eexists. split; [vm_compute; reflexivity|].
  apply (catch_up_adjustment sample_db slow_border_query).
  - vm_compute. reflexivity.
  - vm_compute. reflexivity.
Defined.

(** The claim as the specification words it, with the net value taken as
    the real number [ep - border_speed * cycle / 3600], fails.  A plan
    worth 6500 with a cycle of 130 s against a border of 180000 per hour
    has the net value 0, yet the code computes [130 / 3600] and the
    product rounded, finds the net value [2^-40], marks the plan
    catchable and returns it.  A plan worth 5000 with a cycle of 120 s
    against a border of 100000 per hour has the net value 5000/3, which
    covers a gap of 205000 in 123 repetitions, yet the quotient computed
    is above 123 and the plan is given 124. *)
Lemma exact_net_value_is_not_used :
  (exists r net v,
     find_push_plans tie_db tie_query = Ok [r] /\
     ep r = 6500 /\
     add (time r) (interval tie_query) = Ok (Int 130) /\
     border_speed tie_query = Int 180000 /\
     (6500 - 180000 * 130 / 3600 <= 0)%Q /\
     net_ep tie_query r = Ok net /\
     value net = Some v /\ (v == 1 # 1099511627776)%Q /\
     le net (Int 0) = false /\
     catchable r = true /\
     adj_plays r = 54975581388800000) /\
  (exists r,
     find_push_plans third_db third_query = Ok [r] /\
     ep r = 5000 /\
     add (time r) (interval third_query) = Ok (Int 120) /\
     border_speed third_query = Int 100000 /\
     target_ep_gap third_query = Int 205000 /\
     Qceiling (205000 / (5000 - 100000 * 120 / 3600)) = 123 /\
     catchable r = true /\
     adj_plays r = 124).
Proof.
  split.
  - eexists _, _, _. split; [vm_compute; reflexivity|].
    split; [reflexivity|]. split; [reflexivity|]. split; [reflexivity|].
    split; [vm_compute; discriminate|].
    split; [vm_compute; reflexivity|].
    split; [vm_compute; reflexivity|].
    split; [vm_compute; reflexivity|].
    split; [vm_compute; reflexivity|].
    split; reflexivity.
  - eexists. split; [vm_compute; reflexivity|].
    repeat split; vm_compute; reflexivity.
Qed.

End PlanFacts.

(** ** The snapshot store *)

Module SnapshotFacts.
Import Snapshots PyFacts.

Lemma prefix_substring n s :
  String.prefix (String.substring 0 n s) s = true.
Proof.
  revert n. induction s as [|c s IH]; intros [|n]; cbn; try done.
  destruct (ascii_dec c c); [apply IH | done].
Qed.

Lemma strftime_same_hour t1 t2 :
  same_hour t1 t2 -> strftime_hour t1 = strftime_hour t2.
Proof.
  intros (Hy & Hm & Hd & Hh). unfold strftime_hour.
  by rewrite Hy, Hm, Hd, Hh.
Qed.

Lemma in_hour_make_snapshot now data :
  in_hour now (make_snapshot (strftime_hour now) data).
Proof. unfold in_hour. cbn. apply prefix_substring. Qed.

Lemma last_in_hour_true now rs :
  last_in_hour (strftime_hour now) rs = true <->
  exists r, last rs = Some r /\ in_hour now r.
Proof.
  unfold last_in_hour, in_hour. destruct (last rs) as [r|].
  - split; [eauto | by intros (r' & [= <-] & H)].
  - split; [done | by intros (r' & [=] & _)].
Qed.

Lemma filter_none {A} (P : A -> Prop) `{!forall x, Decision (P x)} l :
  Forall (fun x => ~ P x) l -> filter P l = [].
Proof.
  induction 1 as [|x l Hx _ IH]; [done|].
  by rewrite filter_cons, decide_False.
Qed.

Lemma drop_snoc {A} (k : nat) (l : list A) x :
  (k <= length l)%nat -> drop k (l ++ [x]) = drop k l ++ [x].
Proof. intros H. by rewrite drop_app_le. Qed.

(** What an append does to the record list: nothing when the last record
    is of the hour, else the snapshot goes last and the window keeps the
    newest 336 records. *)
Lemma records_after_append data now h :
  top_100_player_rankings data <> [] ->
  records (record_ranking_snapshot 200 data now h)
  = if last_in_hour (strftime_hour now) (records h) then records h
    else
      let rs := records h ++ [make_snapshot (strftime_hour now) data] in
      drop (length rs - 336) rs.
Proof.
  intros Hne. unfold record_ranking_snapshot. cbn [Z.eqb negb Pos.eqb].
  destruct (top_100_player_rankings data) as [|p ps]; [done|].
  cbn [records event_name].
  destruct (last_in_hour _ (records h)); [done|]. cbv zeta.
  destruct (Nat.ltb_spec 336
              (length (records h ++ [make_snapshot (strftime_hour now) data])))
    as [Hlong | Hshort]; cbn [records]; [done|].
  replace (length _ - 336)%nat with 0%nat by lia. done.
Qed.

Lemma records_unchanged_when_last_in_hour status data now h :
  last_in_hour (strftime_hour now) (records h) = true ->
  records (record_ranking_snapshot status data now h) = records h.
Proof.
  intros Hlast. unfold record_ranking_snapshot.
  destruct (negb (status =? 200)); [done|].
  destruct (top_100_player_rankings data); [done|].
  cbn [records]. by rewrite Hlast.
Qed.

Lemma last_after_append data now h :
  top_100_player_rankings data <> [] ->
  last_in_hour (strftime_hour now)
    (records (record_ranking_snapshot 200 data now h)) = true.
Proof.
  intros Hne. rewrite records_after_append by done.
  destruct (last_in_hour _ (records h)) eqn:Hlast; [done|]. cbv zeta.
  apply last_in_hour_true. eexists. split; [|apply in_hour_make_snapshot].
  rewrite drop_snoc by (rewrite length_app; cbn; lia).
  apply last_snoc.
Qed.

(** C8 (as the code has it).  After an append that fetched a non-empty
    ranking, the last stored record is of that hour, so a second append
    in the same truncated hour leaves the record list unchanged; and
    when the store held no record of that hour before, exactly one
    record of that hour is stored afterwards: the snapshot of the first
    append. *)
Theorem second_append_in_hour_is_skipped h d1 d2 status2 t1 t2 :
  same_hour t1 t2 ->
  top_100_player_rankings d1 <> [] ->
  let h1 := record_ranking_snapshot 200 d1 t1 h in
  let h2 := record_ranking_snapshot status2 d2 t2 h1 in
  records h2 = records h1
  /\ (exists r, last (records h1) = Some r /\ in_hour t1 r)
  /\ (Forall (fun r => ~ in_hour t1 r) (records h) ->
      filter (in_hour t1) (records h2)
      = [make_snapshot (strftime_hour t1) d1]).
Proof.
  intros Hsame Hne h1 h2.
  pose proof (last_after_append d1 t1 h Hne) as Hlast. fold h1 in Hlast.
  assert (H21 : records h2 = records h1).
  { unfold h2. apply records_unchanged_when_last_in_hour.
    by rewrite <- (strftime_same_hour t1 t2 Hsame). }
  split; [exact H21|]. split; [by apply last_in_hour_true|].
  intros Hfresh. rewrite H21. unfold h1.
  rewrite records_after_append by done.
  destruct (last_in_hour _ (records h)) eqn:Hl.
  { exfalso. apply last_in_hour_true in Hl as (r & Hr & Hin).
    apply last_Some_elem_of in Hr.
    by apply (proj1 (Forall_forall _ _) Hfresh r). }
  cbv zeta. rewrite drop_snoc by (rewrite length_app; cbn; lia).
  rewrite filter_app.
  rewrite (filter_none (in_hour t1) (drop _ (records h)))
    by (by apply Forall_drop).
  cbn [app]. rewrite filter_cons.
  rewrite decide_True by apply in_hour_make_snapshot. done.
Qed.

Lemma second_append_in_hour_is_skipped_witness :
  let h1 := record_ranking_snapshot 200 sample_feed at_10_05 empty_history in
  let h2 := record_ranking_snapshot 200 sample_feed at_10_40 h1 in
  records h2 = records h1
  /\ (exists r, last (records h1) = Some r /\ in_hour at_10_05 r)
  /\ (Forall (fun r => ~ in_hour at_10_05 r) (records empty_history) ->
      filter (in_hour at_10_05) (records h2)
      = [make_snapshot (strftime_hour at_10_05) sample_feed]).
Proof.
  apply (second_append_in_hour_is_skipped
           empty_history sample_feed sample_feed 200 at_10_05 at_10_40).
  - repeat split.
  - discriminate.
Defined.

(** C8, the claim as written fails on a store whose record for 10:00 is
    followed by one for 11:00: two appends at 10:05 and 10:40 leave two
    records of the 10:00 hour, the old one and the first append's. *)
Lemma older_record_of_hour_is_kept :
  let h1 := record_ranking_snapshot 200 sample_feed at_10_05
              unordered_history in
  let h2 := record_ranking_snapshot 200 sample_feed at_10_40 h1 in
  same_hour at_10_05 at_10_40 /\
  snap_time <$> records h2
  = ["2024-04-27 10:00"; "2024-04-27 11:00"; "2024-04-27 10:00"] /\
  length (filter (in_hour at_10_05) (records h2)) = 2%nat /\
  length (filter (in_hour at_10_05) (records h2)) <> 1%nat.
Proof.
  cbv zeta. split; [repeat split|].
  split; [vm_compute; reflexivity|].
  split; [vm_compute; reflexivity | vm_compute; discriminate].
Qed.

End SnapshotFacts.

(** * Further properties of the code *)

(** ** Hour labels, from the parser to the closing window *)

Module HourLabelFacts.
Import TimeRange Schedule PyFacts TimeRangeFacts ClosingFacts.

Lemma digit_val_bounds c : is_digit c = true -> 0 <= digit_val c < 10.
Proof.
  unfold is_digit, digit_val. cbv zeta. intros H.
  apply andb_true_iff in H as [H1 H2].
  apply Nat.leb_le in H1. apply Nat.leb_le in H2. lia.
Qed.

Lemma digits12_group s g r :
  (g, r) ∈ digits12 s -> exists n, int_of_str g = Ok n /\ 0 <= n < 100.
Proof.
  unfold digits12. destruct s as [|c1 [|c2 r']].
  - intros H. by apply elem_of_nil in H.
  - destruct (is_digit c1) eqn:H1; [|intros H; by apply elem_of_nil in H].
    intros H. apply list_elem_of_singleton in H. injection H as -> ->.
    pose proof (digit_val_bounds c1 H1) as Hb1.
    exists (digit_val c1). unfold int_of_str. cbn [int_digits]. rewrite H1.
    split; [f_equal; lia | lia].
  - destruct (is_digit c1) eqn:H1; [|intros H; by apply elem_of_nil in H].
    pose proof (digit_val_bounds c1 H1) as Hb1.
    assert (Hone : exists n, int_of_str (String c1 EmptyString) = Ok n
                             /\ 0 <= n < 100).
    { exists (digit_val c1). unfold int_of_str. cbn [int_digits]. rewrite H1.
      split; [f_equal; lia | lia]. }
    destruct (is_digit c2) eqn:H2.
    + pose proof (digit_val_bounds c2 H2) as Hb2.
      intros H. apply elem_of_cons in H as [H | H].
      * injection H as -> ->.
        exists (10 * digit_val c1 + digit_val c2). unfold int_of_str.
        cbn [int_digits]. rewrite H1, H2. split; [f_equal; lia | lia].
      * apply list_elem_of_singleton in H. injection H as -> ->. exact Hone.
    + intros H. apply list_elem_of_singleton in H. injection H as -> ->.
      exact Hone.
Qed.

Lemma match_after_first_cons g rest alts :
  match_after_first ((g, rest) :: alts)
  = match rest with
    | String c r =>
        if Ascii.eqb c "-" then
          match digits12 r with
          | (g2, _) :: _ => Some (g, g2)
          | [] => match_after_first alts
          end
        else match_after_first alts
    | EmptyString => match_after_first alts
    end.
Proof.
  destruct rest as [|c r]; [reflexivity|].
  destruct c as [[] [] [] [] [] [] [] []]; reflexivity.
Qed.

Lemma match_after_first_groups alts g1 g2 :
  match_after_first alts = Some (g1, g2) ->
  (exists r, (g1, r) ∈ alts) /\ (exists s r, (g2, r) ∈ digits12 s).
Proof.
  induction alts as [|[g rest] alts IH]; [discriminate|].
  rewrite match_after_first_cons.
  assert (Hrec : match_after_first alts = Some (g1, g2) ->
                 (exists r, (g1, r) ∈ (g, rest) :: alts)
                 /\ (exists s r, (g2, r) ∈ digits12 s)).
  { intros H. destruct (IH H) as [[r Hr] H2]. split; [|done].
    exists r. by right. }
  destruct rest as [|c r]; [exact Hrec|].
  destruct (Ascii.eqb c "-"); [|exact Hrec].
  destruct (digits12 r) as [|[g2' r2] tl] eqn:Hd; [exact Hrec|].
  intros [= -> ->]. split.
  - eexists. left.
  - exists r, r2. rewrite Hd. left.
Qed.

Lemma parse_time_range_shape s :
  exists a b,
    0 <= a < 100 /\ 0 <= b < 124 /\
    parse_time_range s = Ok (map hour_label (range a b)).
Proof.
  unfold parse_time_range, re_match.
  destruct (match_after_first (digits12 s)) as [[g1 g2]|] eqn:Hm.
  - apply match_after_first_groups in Hm as [[r1 H1] (s2 & r2 & H2)].
    apply digits12_group in H1 as (a & -> & Ha).
    apply digits12_group in H2 as (b & -> & Hb).
    rewrite !bind_Ok.
    exists a, (if b <=? a then b + 24 else b). split; [lia|].
    split; [destruct (b <=? a); lia | reflexivity].
  - exists 0, 0. split; [lia|]. split; [lia|]. reflexivity.
Qed.

Lemma hour_label_time_slot h : hour_label h = time_slot (h mod 24).
Proof. reflexivity. Qed.

Lemma is_signup_closed_returns now today schedule H :
  0 <= H < 24 ->
  exists b reason,
    is_signup_closed now today schedule (time_slot H) = Ok (b, reason).
Proof.
  intros HH. unfold is_signup_closed.
  rewrite int_before_colon_time_slot by done.
  destruct (micros_replace_hour now H HH) as (st & -> & _).
  rewrite bind_Ok. cbv zeta.
  destruct (Qle_bool _ 1); [eauto|].
  destruct (Qle_bool _ 2 && has_s6 schedule today (time_slot H)); eauto.
Qed.

(** X1. Whatever the text, [parse_time_range] returns a list, each of its
    labels is one of the 24 entries of [TIME_SLOTS], and
    [is_signup_closed] gives a verdict for each of them: the [ValueError]
    of [now.replace(hour=...)] is out of reach of the sign-up
    commands. *)
Theorem parsed_labels_get_a_verdict s now today schedule :
  exists ls,
    parse_time_range s = Ok ls /\
    Forall (fun l =>
              (exists h, 0 <= h < 24 /\ l = time_slot h) /\
              (exists b reason,
                 is_signup_closed now today schedule l = Ok (b, reason))) ls.
Proof.
  destruct (parse_time_range_shape s) as (a & b & _ & _ & ->).
  eexists. split; [reflexivity|].
  apply Forall_forall. intros l Hl.
  apply list_elem_of_fmap in Hl as (h & -> & _).
  rewrite hour_label_time_slot.
  assert (Hh : 0 <= h mod 24 < 24) by (apply Z.mod_pos_bound; lia).
  split; [eauto|]. by apply is_signup_closed_returns.
Qed.

Lemma time_slot_inj h1 h2 :
  0 <= h1 < 24 -> 0 <= h2 < 24 -> time_slot h1 = time_slot h2 -> h1 = h2.
Proof.
  intros H1 H2 Heq.
  pose proof (int_before_colon_time_slot h1 H1) as E1.
  pose proof (int_before_colon_time_slot h2 H2) as E2.
  rewrite Heq in E1. congruence.
Qed.

(** X2. For two hours of the day written on one or two digits, the range
    ["A-B"] gives between 1 and 24 labels, all different: [B - A] of them
    when [A < B], and [B + 24 - A] when [B <= A] (all 24 when [A = B]). *)
Theorem parse_time_range_day_hours sa sb A B :
  renders sa A -> renders sb B -> 0 <= A < 24 -> 0 <= B < 24 ->
  exists ls,
    parse_time_range (sa +:+ "-" +:+ sb) = Ok ls /\
    NoDup ls /\
    Z.of_nat (length ls) = (if B <=? A then B + 24 - A else B - A) /\
    (1 <= length ls <= 24)%nat.
Proof.
  intros Ha Hb HA HB. unfold parse_time_range.
  rewrite (re_match_renders sa sb A B Ha Hb).
  rewrite (int_of_str_renders sa A Ha), (int_of_str_renders sb B Hb).
  rewrite !bind_Ok. eexists. split; [reflexivity|].
  set (B' := if B <=? A then B + 24 else B).
  assert (HB' : A < B' <= A + 24) by (unfold B'; destruct (Z.leb_spec B A); lia).
  split; [|split].
  - apply NoDup_fmap_2_strong; [|apply NoDup_seqZ].
    intros x y Hx Hy Heq. apply elem_of_range in Hx, Hy.
    rewrite !hour_label_time_slot in Heq.
    apply time_slot_inj in Heq; try (apply Z.mod_pos_bound; lia).
    rewrite (Z.div_mod x 24), (Z.div_mod y 24) by lia.
    assert (x / 24 = y / 24); [|lia].
    pose proof (Z.div_mod x 24 ltac:(lia)). pose proof (Z.div_mod y 24 ltac:(lia)).
    pose proof (Z.mod_pos_bound x 24 ltac:(lia)).
    pose proof (Z.mod_pos_bound y 24 ltac:(lia)). lia.
  - rewrite length_map, range_length. unfold B'.
    destruct (Z.leb_spec B A); lia.
  - rewrite length_map, range_length. lia.
Qed.

Lemma parse_time_range_day_hours_witness :
  exists ls,
    parse_time_range ("22" +:+ "-" +:+ "2") = Ok ls /\
    NoDup ls /\
    Z.of_nat (length ls) = (if 2 <=? 22 then 2 + 24 - 22 else 2 - 22) /\
    (1 <= length ls <= 24)%nat.
Proof.
  apply (parse_time_range_day_hours "22" "2" 22 2).
  - apply (renders2 2 2); lia.
  - apply (renders1 2); lia.
  - lia.
  - lia.
Defined.

End HourLabelFacts.

(** ** The score solver: what it returns, misses and raises *)

Module SolverSearchFacts.
Import Solver PyFacts SolverFacts.

Lemma first_split {A} (P : A -> Prop) `{!forall x, Decision (P x)} l x :
  x ∈ l -> P x ->
  exists pre y post, l = pre ++ y :: post /\ P y /\ Forall (fun z => ~ P z) pre.
Proof.
  induction l as [|z l IH]; intros Hx HP.
  - by apply elem_of_nil in Hx.
  - destruct (decide (P z)) as [Hz | Hz].
    + exists [], z, l. by repeat split.
    + apply elem_of_cons in Hx as [-> | Hx]; [done|].
      destruct (IH Hx HP) as (pre & y & post & -> & Hy & Hpre).
      exists (z :: pre), y, post. repeat split; [done|]. by constructor.
Qed.

Lemma descending_before pre x post y :
  descending (pre ++ x :: post) -> y ∈ pre -> x <= y.
Proof.
  unfold descending. intros H Hy.
  apply (StronglySorted_app_1_elem_of _ _ _ _ _ H Hy). left.
Qed.

Lemma single_pass_returns (m : gmap Z entry) target max_plays ss :
  Forall (fun s => s <> 0) ss -> Forall (fun s => is_Some (m !! s)) ss ->
  exists r, single_pass (table_of m) target max_plays ss = Ok r.
Proof.
  induction ss as [|s ss IH]; intros Hnz Hin; cbn [single_pass]; [eauto|].
  apply Forall_cons in Hnz as [Hs Hnz]. apply Forall_cons in Hin as [Hm Hin].
  destruct (s <=? target); [|by apply IH].
  rewrite mod_nonzero, bind_Ok by done.
  destruct (target mod s =? 0); [|by apply IH].
  rewrite floordiv_nonzero, bind_Ok by done.
  destruct (target / s <=? max_plays); [|by apply IH].
  rewrite bind_Ok.
  destruct (ms_table_of m s (target / s) Hm) as (t & -> & _).
  rewrite bind_Ok. eauto.
Qed.

Lemma scores_in_map (m : gmap Z entry) :
  Forall (fun s => is_Some (m !! s)) (scores (table_of m)).
Proof. apply Forall_forall. intros s Hs. by apply scores_table_of. Qed.

Lemma find_solution_returns (m : gmap Z entry) target max_plays :
  m !! 0 = None ->
  exists r, find_solution (Some (table_of m)) target max_plays = Ok r.
Proof.
  intros H0. unfold find_solution. destruct (target <=? 0); [eauto|].
  assert (Hnz : Forall (fun s => s <> 0) (scores (table_of m))).
  { apply Forall_forall. intros s Hs ->.
    apply scores_table_of in Hs as [v Hv]. congruence. }
  destruct (single_pass_returns m target max_plays _ Hnz (scores_in_map m))
    as [[sol|] ->]; rewrite bind_Ok; [eauto|].
  destruct (pair_pass_spec m target max_plays _ Hnz (scores_in_map m))
    as (r & -> & _). eauto.
Qed.

Lemma positive_qualifier_found (m : gmap Z entry) target max_plays s :
  0 < target -> is_Some (m !! s) -> 0 < s -> qualifies target max_plays s ->
  exists sol,
    single_pass (table_of m) target max_plays (scores (table_of m))
    = Ok (Some sol).
Proof.
  intros Ht Hm Hs Hq.
  apply scores_table_of in Hm.
  destruct (first_split (fun x => 0 < x /\ qualifies target max_plays x)
              _ s Hm (conj Hs Hq))
    as (pre & y & post & Hsc & [Hy Hqy] & Hpre).
  assert (Hin : y ∈ scores (table_of m)) by (rewrite Hsc; set_solver).
  apply scores_table_of in Hin as [[[rng b] e] Hmy].
  assert (Hbefore : forall z, z ∈ pre -> 0 < z).
  { intros z Hz. pose proof (scores_descending m) as Hd. rewrite Hsc in Hd.
    pose proof (descending_before _ _ _ _ Hd Hz). lia. }
  eexists. rewrite Hsc. eapply single_pass_first; [| | lia | exact Hqy | exact Hmy].
  - apply Forall_forall. intros z Hz. specialize (Hbefore z Hz). lia.
  - apply Forall_forall. intros z Hz Hqz.
    apply (proj1 (Forall_forall _ _) Hpre z Hz). split; [by apply Hbefore | done].
Qed.

Lemma zero_reached (m : gmap Z entry) target max_plays :
  0 < target -> is_Some (m !! 0) ->
  (forall s, is_Some (m !! s) -> 0 < s -> ~ qualifies target max_plays s) ->
  single_pass (table_of m) target max_plays (scores (table_of m))
  = Raise ZeroDivisionError.
Proof.
  intros Ht H0 Hnone. apply scores_table_of in H0.
  destruct (first_split (fun x => x = 0) _ 0 H0 eq_refl)
    as (pre & y & post & Hsc & -> & Hpre).
  rewrite Hsc.
  assert (Hpos : forall z, z ∈ pre -> 0 < z).
  { intros z Hz. pose proof (scores_descending m) as Hd. rewrite Hsc in Hd.
    pose proof (descending_before _ _ _ _ Hd Hz) as Hge.
    pose proof (proj1 (Forall_forall _ _) Hpre z Hz) as Hne.
    cbv beta in Hne. lia. }
  assert (Hmem : forall z, z ∈ pre -> is_Some (m !! z)).
  { intros z Hz. apply scores_table_of. rewrite Hsc. set_solver. }
  clear Hsc Hpre. induction pre as [|z pre IH]; cbn [app].
  - cbn [single_pass]. destruct (Z.leb_spec 0 target); [reflexivity | lia].
  - rewrite single_pass_skip.
    + apply IH; intros; [apply Hpos | apply Hmem]; by right.
    + specialize (Hpos z ltac:(left)). lia.
    + apply Hnone; [apply Hmem | apply Hpos]; left.
Qed.

(** X3. For a positive target, [find_solution] raises exactly when the
    catalog lists the score 0 and no positive catalog value gives a
    single-value solution; what it raises is the [ZeroDivisionError] of
    [target % 0]. *)
Theorem find_solution_raises_iff (m : gmap Z entry) target max_plays :
  0 < target ->
  ((exists e, find_solution (Some (table_of m)) target max_plays = Raise e)
   <-> is_Some (m !! 0) /\
       forall s, is_Some (m !! s) -> 0 < s -> ~ qualifies target max_plays s)
  /\ (forall e, find_solution (Some (table_of m)) target max_plays = Raise e ->
       e = ZeroDivisionError).
Proof.
  intros Ht.
  assert (Hback : is_Some (m !! 0) ->
    (forall s, is_Some (m !! s) -> 0 < s -> ~ qualifies target max_plays s) ->
    find_solution (Some (table_of m)) target max_plays
    = Raise ZeroDivisionError).
  { intros H0 Hnone. unfold find_solution.
    destruct (Z.leb_spec target 0); [lia|].
    by rewrite (zero_reached m target max_plays Ht H0 Hnone). }
  assert (Hforth : forall e,
    find_solution (Some (table_of m)) target max_plays = Raise e ->
    is_Some (m !! 0) /\
    forall s, is_Some (m !! s) -> 0 < s -> ~ qualifies target max_plays s).
  { intros e He. split.
    - destruct (m !! 0) as [v|] eqn:H0; [eauto|].
      destruct (find_solution_returns m target max_plays H0) as [r Hr].
      congruence.
    - intros s Hm Hs Hq.
      destruct (positive_qualifier_found m target max_plays s Ht Hm Hs Hq)
        as [sol Hsol].
      unfold find_solution in He. destruct (target <=? 0); [discriminate|].
      rewrite Hsol in He. discriminate. }
  split; [split|].
  - intros [e He]. by apply (Hforth e).
  - intros [H0 Hnone]. eauto.
  - intros e He. destruct (Hforth e He) as [H0 Hnone].
    rewrite (Hback H0 Hnone) in He. congruence.
Qed.

Lemma find_solution_raises_iff_witness :
  ((exists e, find_solution (Some (table_of (catalog [0; 7]))) 5 50 = Raise e)
   <-> is_Some (catalog [0; 7] !! 0) /\
       forall s, is_Some (catalog [0; 7] !! s) -> 0 < s ->
                 ~ qualifies 5 50 s)
  /\ (forall e, find_solution (Some (table_of (catalog [0; 7]))) 5 50 = Raise e ->
       e = ZeroDivisionError).
Proof. apply (find_solution_raises_iff (catalog [0; 7]) 5 50). lia. Defined.

Lemma elem_of_candidates ss target max_plays s1 p1 :
  (s1, p1) ∈ candidates ss target max_plays <->
  s1 ∈ ss /\ s1 <= target /\ 0 < p1 <= Z.min (target / s1) max_plays.
Proof.
  unfold candidates. rewrite list_elem_of_bind. split.
  - intros (s & Hp & Hs). apply list_elem_of_filter in Hs as [Hle Hs].
    apply list_elem_of_bind in Hp as (p & Hp & Hr).
    apply list_elem_of_singleton in Hp. injection Hp as -> ->.
    apply elem_of_range_down in Hr. done.
  - intros (Hs & Hle & Hp). exists s1. split.
    + apply list_elem_of_bind. exists p1. split; [by apply list_elem_of_singleton|].
      by apply elem_of_range_down.
    + by apply list_elem_of_filter.
Qed.

Lemma head_filter_None {A} (P : A -> Prop) `{!forall x, Decision (P x)} l x :
  head (filter P l) = None -> x ∈ l -> ~ P x.
Proof.
  intros Hh Hx HP. destruct (filter P l) as [|y l'] eqn:Hf; [|discriminate].
  assert (Hin : x ∈ filter P l) by (by apply list_elem_of_filter).
  rewrite Hf in Hin. by apply elem_of_nil in Hin.
Qed.

(** X4. On a catalog of positive scores, when [find_solution] reports no
    combination there is none within its bounds: no catalog value
    repeated 1 to [max_plays] times reaches the target, alone or
    followed by one more catalog value. *)
Theorem find_solution_none_complete (m : gmap Z entry) target max_plays :
  0 < target ->
  (forall s, is_Some (m !! s) -> 0 < s) ->
  find_solution (Some (table_of m)) target max_plays = Ok None ->
  (forall s p, is_Some (m !! s) -> 1 <= p <= max_plays -> s * p <> target)
  /\ (forall s1 p1 s2, is_Some (m !! s1) -> is_Some (m !! s2) ->
       1 <= p1 <= max_plays -> s1 * p1 + s2 <> target).
Proof.
  intros Ht Hpos Hnone.
  assert (Hnz : Forall (fun s => s <> 0) (scores (table_of m))).
  { apply Forall_forall. intros s Hs. apply scores_table_of in Hs.
    specialize (Hpos s Hs). lia. }
  unfold find_solution in Hnone. destruct (Z.leb_spec target 0); [lia|].
  destruct (single_pass_returns m target max_plays _ Hnz (scores_in_map m))
    as [[sol|] Hsp]; rewrite Hsp, bind_Ok in Hnone; [discriminate|].
  destruct (pair_pass_spec m target max_plays _ Hnz (scores_in_map m))
    as (r & Hr & Hshape & _).
  rewrite Hr in Hnone. injection Hnone as ->.
  unfold two_value_spec in Hshape.
  destruct (head (filter (fun c => is_find m target c = true)
                         (candidates (scores (table_of m)) target max_plays)))
    as [c|] eqn:Hhead; [discriminate|].
  assert (Hmiss : forall s1 p1, is_Some (m !! s1) -> 1 <= p1 <= max_plays ->
                  s1 * p1 <= target -> is_find m target (s1, p1) = false).
  { intros s1 p1 Hs1 Hp1 Hle. apply not_true_is_false.
    apply (head_filter_None (fun c => is_find m target c = true) _ _ Hhead).
    specialize (Hpos s1 Hs1).
    apply elem_of_candidates. split; [by apply scores_table_of|].
    split; [nia|]. split; [lia|].
    apply Z.min_glb; [|lia]. apply Z.div_le_lower_bound; lia. }
  split.
  - intros s p Hs Hp Heq. specialize (Hmiss s p Hs Hp ltac:(lia)).
    rewrite is_find_pair in Hmiss.
    replace (target - s * p) with 0 in Hmiss by lia. discriminate.
  - intros s1 p1 s2 Hs1 Hs2 Hp Heq. specialize (Hpos s2 Hs2).
    specialize (Hmiss s1 p1 Hs1 Hp ltac:(lia)).
    rewrite is_find_pair in Hmiss.
    replace (target - s1 * p1) with s2 in Hmiss by lia.
    rewrite bool_decide_eq_true_2 in Hmiss by done.
    by rewrite orb_true_r in Hmiss.
Qed.

Lemma find_solution_none_complete_witness :
  (forall s p, is_Some (catalog [90; 140] !! s) -> 1 <= p <= 50 ->
               s * p <> 100)
  /\ (forall s1 p1 s2, is_Some (catalog [90; 140] !! s1) ->
       is_Some (catalog [90; 140] !! s2) ->
       1 <= p1 <= 50 -> s1 * p1 + s2 <> 100).
Proof.
  apply (find_solution_none_complete (catalog [90; 140]) 100 50).
  - lia.
  - intros s [v Hv]. unfold catalog in Hv. cbn in Hv.
    apply lookup_insert_Some in Hv as [[<- _] | [_ Hv]]; [lia|].
    apply lookup_insert_Some in Hv as [[<- _] | [_ Hv]]; [lia|].
    by rewrite lookup_empty in Hv.
  - vm_compute. reflexivity.
Defined.

(** *** What a solution is made of *)

Lemma ms_spec tbl s p t :
  ms tbl s p = Ok t ->
  score_map tbl !! s = Some (t_range t, t_bonus t, t_energy t) /\
  t_score t = s /\ t_plays t = p /\ t_total t = s * p.
Proof.
  unfold ms. destruct (score_map tbl !! s) as [[[rng b] e]|]; [|discriminate].
  by intros [= <-].
Qed.

Lemma single_pass_terms tbl target max_plays ss sol :
  single_pass tbl target max_plays ss = Ok (Some sol) ->
  exists s t, s ∈ ss /\ s <= target /\ s * (target / s) = target /\
              target / s <= max_plays /\
              ms tbl s (target / s) = Ok t /\ sol = [t].
Proof.
  induction ss as [|s ss IH]; cbn [single_pass]; [discriminate|].
  assert (Hnext : single_pass tbl target max_plays ss = Ok (Some sol) ->
    exists s0 t, s0 ∈ s :: ss /\ s0 <= target /\
                 s0 * (target / s0) = target /\ target / s0 <= max_plays /\
                 ms tbl s0 (target / s0) = Ok t /\ sol = [t]).
  { intros H. destruct (IH H) as (s0 & t & Hin & Hrest).
    exists s0, t. split; [by right | done]. }
  destruct (Z.leb_spec s target) as [Hle|]; [|exact Hnext].
  unfold mod_, floordiv. destruct (Z.eqb_spec s 0) as [|Hs]; [discriminate|].
  rewrite bind_Ok.
  destruct (Z.eqb_spec (target mod s) 0) as [Hmod|]; [|exact Hnext].
  rewrite bind_Ok.
  destruct (Z.leb_spec (target / s) max_plays) as [Hq|]; [|exact Hnext].
  rewrite bind_Ok. destruct (ms tbl s (target / s)) as [t|] eqn:Hms;
    [|discriminate].
  rewrite bind_Ok. intros [= <-]. exists s, t.
  pose proof (Z.div_mod target s Hs).
  split; [left|]. split; [done|]. split; [lia|]. done.
Qed.

Lemma plays_loop_terms tbl target s1 ps sol :
  plays_loop tbl target s1 ps = Ok (Some sol) ->
  exists p1 t1,
    p1 ∈ ps /\ ms tbl s1 p1 = Ok t1 /\
    ((s1 * p1 = target /\ sol = [t1]) \/
     (s1 * p1 <> target /\ (target - s1 * p1) ∈ score_set tbl /\
      exists t2, ms tbl (target - s1 * p1) 1 = Ok t2 /\ sol = [t1; t2])).
Proof.
  induction ps as [|p1 ps IH]; cbn [plays_loop]; [discriminate|]. cbv zeta.
  destruct (Z.eqb_spec (target - s1 * p1) 0) as [Hrem|Hrem].
  - destruct (ms tbl s1 p1) as [t|] eqn:Hms; [|discriminate].
    rewrite bind_Ok. intros [= <-]. exists p1, t.
    split; [left|]. split; [done|]. left. split; [lia | done].
  - case_bool_decide as Hin.
    + destruct (ms tbl s1 p1) as [t1|] eqn:Hms1; [|discriminate].
      rewrite bind_Ok.
      destruct (ms tbl (target - s1 * p1) 1) as [t2|] eqn:Hms2;
        [|discriminate].
      rewrite bind_Ok. intros [= <-]. exists p1, t1.
      split; [left|]. split; [done|]. right.
      split; [lia|]. split; [done|]. by exists t2.
    + intros H. destruct (IH H) as (p & t1 & Hp & Hrest).
      exists p, t1. split; [by right | done].
Qed.

Lemma pair_pass_terms tbl target max_plays ss sol :
  pair_pass tbl target max_plays ss = Ok (Some sol) ->
  exists s1 p1 t1,
    s1 ∈ ss /\ s1 <= target /\ 1 <= p1 <= max_plays /\
    ms tbl s1 p1 = Ok t1 /\
    ((s1 * p1 = target /\ sol = [t1]) \/
     (s1 * p1 <> target /\ (target - s1 * p1) ∈ score_set tbl /\
      exists t2, ms tbl (target - s1 * p1) 1 = Ok t2 /\ sol = [t1; t2])).
Proof.
  induction ss as [|s1 ss IH]; cbn [pair_pass]; [discriminate|].
  assert (Hnext : pair_pass tbl target max_plays ss = Ok (Some sol) ->
    exists s0 p1 t1,
      s0 ∈ s1 :: ss /\ s0 <= target /\ 1 <= p1 <= max_plays /\
      ms tbl s0 p1 = Ok t1 /\
      ((s0 * p1 = target /\ sol = [t1]) \/
       (s0 * p1 <> target /\ (target - s0 * p1) ∈ score_set tbl /\
        exists t2, ms tbl (target - s0 * p1) 1 = Ok t2 /\ sol = [t1; t2]))).
  { intros H. destruct (IH H) as (s0 & p1 & t1 & Hin & Hrest).
    exists s0, p1, t1. split; [by right | done]. }
  destruct (Z.ltb_spec target s1) as [|Hle]; [exact Hnext|].
  destruct (floordiv target s1) as [q|]; [|discriminate]. rewrite bind_Ok.
  destruct (plays_loop tbl target s1 (range_down (Z.min q max_plays) 0))
    as [[sol'|]|] eqn:Hloop; rewrite ?bind_Ok; [| exact Hnext | discriminate].
  intros [= <-].
  apply plays_loop_terms in Hloop as (p1 & t1 & Hp1 & Hms & Hsol).
  apply elem_of_range_down in Hp1.
  exists s1, p1, t1. split; [left|]. split; [done|]. split; [lia|]. done.
Qed.

(** X5. A solution returned by [find_solution] is one term, or two terms
    of which the second is played once.  Each term carries a score of
    the table with the range, bonus and energy that [score_map] gives it,
    a repeat count of at most [max_plays] and the total [score * plays];
    the totals add up to the target, which is positive.  In a solution of
    two terms the first score is a listed one, at most the target and
    played at least once, and the second is the remainder, a member of
    [score_set]. *)
Theorem find_solution_terms tbl target max_plays sol :
  find_solution tbl target max_plays = Ok (Some sol) ->
  exists tb,
    tbl = Some tb /\ 0 < target /\
    Forall (fun t =>
              score_map tb !! t_score t
              = Some (t_range t, t_bonus t, t_energy t) /\
              t_total t = t_score t * t_plays t /\
              t_plays t <= max_plays) sol /\
    sum_totals sol = target /\
    ((exists t, sol = [t] /\ t_score t ∈ scores tb /\ t_score t <= target /\
                t_score t * t_plays t = target) \/
     (exists t1 t2,
        sol = [t1; t2] /\
        t_score t1 ∈ scores tb /\ t_score t1 <= target /\
        1 <= t_plays t1 /\
        t_score t2 = target - t_score t1 * t_plays t1 /\
        t_score t2 <> 0 /\ t_score t2 ∈ score_set tb /\
        t_plays t2 = 1)).
Proof.
  unfold find_solution. destruct tbl as [tb|]; [|discriminate].
  destruct (Z.leb_spec target 0) as [|Hpos]; [discriminate|].
  intros H. exists tb. split; [done|]. split; [done|].
  destruct (single_pass tb target max_plays (scores tb))
    as [[sol'|]|] eqn:Hsp; rewrite ?bind_Ok in H; [| | discriminate].
  - injection H as <-.
    apply single_pass_terms in Hsp as (s & t & Hs & Hle & Hmul & Hq & Hms & ->).
    apply ms_spec in Hms as (Hmap & Hsc & Hpl & Htot).
    rewrite <- Hsc in Hmap.
    split; [repeat constructor; [done | congruence | congruence]|].
    split; [cbn; lia|].
    left. exists t. split; [done|]. rewrite Hsc, Hpl. done.
  - apply pair_pass_terms in H
      as (s1 & p1 & t1 & Hs1 & Hle & Hp1 & Hms1 & Hsol).
    apply ms_spec in Hms1 as (Hmap1 & Hsc1 & Hpl1 & Htot1).
    rewrite <- Hsc1 in Hmap1.
    destruct Hsol as [[Hmul ->] | (Hne & Hin & t2 & Hms2 & ->)].
    + split; [repeat constructor; [done | congruence | lia]|].
      split; [cbn; lia|].
      left. exists t1. split; [done|]. rewrite Hsc1, Hpl1. done.
    + apply ms_spec in Hms2 as (Hmap2 & Hsc2 & Hpl2 & Htot2).
      rewrite <- Hsc2 in Hmap2.
      split.
      { repeat constructor; [done | congruence | lia | done | congruence |].
        rewrite Hpl2. lia. }
      split; [cbn; lia|].
      right. exists t1, t2. rewrite Hsc1, Hpl1, Hsc2, Hpl2.
      repeat split; [done | done | lia | lia | done].
Qed.

Lemma find_solution_terms_witness :
  exists sol,
    find_solution (Some (table_of (catalog [90; 140]))) 320 50 = Ok (Some sol)
    /\ exists tb,
    Some (table_of (catalog [90; 140])) = Some tb /\ 0 < 320 /\
    Forall (fun t =>
              score_map tb !! t_score t
              = Some (t_range t, t_bonus t, t_energy t) /\
              t_total t = t_score t * t_plays t /\
              t_plays t <= 50) sol /\
    sum_totals sol = 320 /\
    ((exists t, sol = [t] /\ t_score t ∈ scores tb /\ t_score t <= 320 /\
                t_score t * t_plays t = 320) \/
     (exists t1 t2,
        sol = [t1; t2] /\
        t_score t1 ∈ scores tb /\ t_score t1 <= 320 /\
        1 <= t_plays t1 /\
        t_score t2 = 320 - t_score t1 * t_plays t1 /\
        t_score t2 <> 0 /\ t_score t2 ∈ score_set tb /\
        t_plays t2 = 1)).
Proof.
  eexists. split; [vm_compute; reflexivity|].
  apply (find_solution_terms (Some (table_of (catalog [90; 140]))) 320 50).
  vm_compute. reflexivity.
Defined.

Lemma descending_strict l :
  descending l -> NoDup l -> StronglySorted (fun a b => b < a) l.
Proof.
  unfold descending. induction 1 as [|x l Hl IH Hx]; intros Hnd; [constructor|].
  apply NoDup_cons in Hnd as [Hnot Hnd].
  constructor; [by apply IH|].
  apply Forall_forall. intros y Hy.
  pose proof (proj1 (Forall_forall _ _) Hx y Hy). cbn in *.
  assert (y <> x) by (intros ->; done). lia.
Qed.

(** X6. The attributes of a [ScoreTable] agree: [scores] lists every key of
    [score_map] once, in strictly decreasing order, and [score_set]
    holds the same values. *)
Theorem score_table_attributes (m : gmap Z entry) :
  StronglySorted (fun a b => b < a) (scores (table_of m))
  /\ NoDup (scores (table_of m))
  /\ length (scores (table_of m)) = size m
  /\ (forall s, s ∈ scores (table_of m) <-> is_Some (m !! s))
  /\ (forall s, s ∈ score_set (table_of m) <-> s ∈ scores (table_of m)).
Proof.
  assert (Hnd : NoDup (scores (table_of m))).
  { cbn. rewrite sorted_desc_perm. apply NoDup_fst_map_to_list. }
  split; [apply descending_strict; [apply scores_descending | done]|].
  split; [done|]. split; [|split].
  - cbn. rewrite sorted_desc_perm, length_fmap. apply length_map_to_list.
  - apply scores_table_of.
  - intros s. by rewrite score_set_table_of, scores_table_of.
Qed.

End SolverSearchFacts.

(** ** The closing window by the hour of the day *)

Module ClosingHourFacts.
Import Schedule PyFacts ClosingFacts.

Lemma elapsed_bounds now H :
  valid_datetime now ->
  (dt_hour now - H) * 3600000000 <= micros now - today_at now H
  /\ micros now - today_at now H < (dt_hour now - H + 1) * 3600000000.
Proof.
  intros (Hh & Hm & Hs & Hu). unfold micros, today_at. lia.
Qed.

Lemma Qle_bool_hours_false st now H (k : Z) :
  micros st = slot_start now H ->
  k * 3600000000 < slot_start now H - micros now ->
  Qle_bool (total_seconds st now / 3600) (inject_Z k) = false.
Proof.
  intros Hst Hlt. apply not_true_is_false. intros Hle.
  apply (Qle_bool_hours st now H k Hst) in Hle.
  apply hours_until_le in Hle. lia.
Qed.

(** X7. A slot whose hour began earlier today, up to 11 full hours before
    the current hour, is closed with the one-hour reason, whatever the
    schedule holds. *)
Theorem started_slot_is_closed now today schedule H :
  valid_datetime now -> 0 <= H ->
  H <= dt_hour now <= H + 11 ->
  is_signup_closed now today schedule (time_slot H)
  = Ok (true, time_slot H +:+ " 已截止（前1h）").
Proof.
  intros Hv H0 Hh.
  assert (HH : 0 <= H < 24) by (destruct Hv as [? _]; lia).
  destruct (elapsed_bounds now H Hv) as [Hlo Hhi].
  unfold is_signup_closed. rewrite int_before_colon_time_slot by done.
  destruct (micros_replace_hour now H HH) as (st & -> & Hst).
  rewrite bind_Ok. cbv zeta.
  pose proof (micros_slot_start now st H Hst) as Hst'.
  set (st' := if micros st <? micros now - timedelta_hours 12
              then add_days st 1 else st) in *.
  assert (Hstart : slot_start now H = today_at now H).
  { unfold slot_start.
    destruct (Z.gtb_spec (micros now - today_at now H) (12 * 3600 * 1000000));
      [lia | done]. }
  assert (Hc : Qle_bool (total_seconds st' now / 3600) 1 = true).
  { apply (Qle_bool_hours st' now H 1 Hst'). apply hours_until_le. lia. }
  by rewrite Hc.
Qed.

Lemma started_slot_is_closed_witness :
  is_signup_closed now_22_30 "2024-04-27" ∅ (time_slot 20)
  = Ok (true, time_slot 20 +:+ " 已截止（前1h）").
Proof.
  apply (started_slot_is_closed now_22_30 "2024-04-27" ∅ 20).
  - unfold valid_datetime. cbn. lia.
  - lia.
  - cbn. lia.
Defined.

(** X8. A slot whose hour began 13 to 21 hours before the current hour is
    taken as tomorrow's: it is more than two hours away and open,
    whether or not an alt occupant is seated. *)
Theorem long_past_slot_is_open now today schedule H :
  valid_datetime now -> 0 <= H ->
  H + 13 <= dt_hour now <= H + 21 ->
  is_signup_closed now today schedule (time_slot H) = Ok (false, "").
Proof.
  intros Hv H0 Hh.
  assert (HH : 0 <= H < 24) by (destruct Hv as [? _]; lia).
  destruct (elapsed_bounds now H Hv) as [Hlo Hhi].
  unfold is_signup_closed. rewrite int_before_colon_time_slot by done.
  destruct (micros_replace_hour now H HH) as (st & -> & Hst).
  rewrite bind_Ok. cbv zeta.
  pose proof (micros_slot_start now st H Hst) as Hst'.
  set (st' := if micros st <? micros now - timedelta_hours 12
              then add_days st 1 else st) in *.
  assert (Hstart : slot_start now H = today_at now H + 24 * 3600 * 1000000).
  { unfold slot_start.
    destruct (Z.gtb_spec (micros now - today_at now H) (12 * 3600 * 1000000));
      [done | lia]. }
  pose proof (Qle_bool_hours_false st' now H 1 Hst' ltac:(lia)) as E1.
  pose proof (Qle_bool_hours_false st' now H 2 Hst' ltac:(lia)) as E2.
  change (inject_Z 1) with 1%Q in E1. change (inject_Z 2) with 2%Q in E2.
  rewrite E1, E2. reflexivity.
Qed.

Lemma long_past_slot_is_open_witness :
  is_signup_closed now_22_30 "2024-04-27" ∅ (time_slot 8) = Ok (false, "").
Proof.
  apply (long_past_slot_is_open now_22_30 "2024-04-27" ∅ 8).
  - unfold valid_datetime. cbn. lia.
  - lia.
  - cbn. lia.
Defined.

End ClosingHourFacts.

(** ** Who is seated where *)

Module SeatingFacts.
Import Schedule PyFacts AssignFacts PlanFacts.

(** *** A stable insertion sort sorts *)

Lemma insert_by_sorted {A} (lt : A -> A -> bool) x l :
  (forall a b, lt a b = true -> lt b a = false) ->
  (forall a b c, lt a b = false -> lt b c = false -> lt a c = false) ->
  StronglySorted (fun a b => lt b a = false) l ->
  StronglySorted (fun a b => lt b a = false) (insert_by lt x l).
Proof.
  intros Hasym Htrans. induction 1 as [|y l Hl IH Hy]; cbn.
  - repeat constructor.
  - destruct (lt y x) eqn:Hyx.
    + constructor; [exact IH|].
      rewrite insert_by_perm. constructor; [by apply Hasym | exact Hy].
    + constructor; [by constructor|].
      constructor; [exact Hyx|].
      eapply Forall_impl; [exact Hy|]. cbn. intros z Hz.
      by apply (Htrans z y x).
Qed.

Lemma sorted_by_sorted {A} (lt : A -> A -> bool) l :
  (forall a b, lt a b = true -> lt b a = false) ->
  (forall a b c, lt a b = false -> lt b c = false -> lt a c = false) ->
  StronglySorted (fun a b => lt b a = false) (sorted_by lt l).
Proof.
  intros Hasym Htrans. induction l as [|x l IH]; cbn; [constructor|].
  by apply insert_by_sorted.
Qed.

(** *** The alt and support seats *)

Lemma auto_assign_alt_support dt hour apps sh :
  auto_assign_schedule dt hour apps = Some sh ->
  p2 sh = alt_copy <$> head (filter (fun a => role a = "s6")
                                    (sorted_by_key apps))
  /\ support sh = head (filter (fun a => role a = "support")
                               (sorted_by_key apps)).
Proof.
  destruct apps as [|a apps]; [discriminate|].
  unfold auto_assign_schedule. cbv zeta. intros H.
  apply (inj Some) in H. subst sh.
  set (s6a := filter (fun a => role a = "s6") _).
  set (spa := filter (fun a => role a = "support") _).
  match goal with
  | |- context [assign_pushers ?l (?s, 0%nat)] => set (sh0 := s); set (psa := l)
  end.
  destruct (assign_pushers_spec psa sh0 []) as [_ Hfr].
  { cbn. lia. }
  { subst sh0. by destruct s6a, spa. }
  cbn [length] in Hfr. unfold frame in Hfr.
  injection Hfr as _ _ Hp2 Hsp _ _.
  split.
  - refine (eq_trans Hp2 _). subst sh0. by destruct s6a, spa.
  - refine (eq_trans Hsp _). subst sh0. by destruct s6a, spa.
Qed.

Lemma head_filter_Some {A} (P : A -> Prop) `{!forall x, Decision (P x)} l x :
  head (filter P l) = Some x -> x ∈ l /\ P x.
Proof.
  intros Hh. assert (Hin : x ∈ filter P l).
  { destruct (filter P l); [discriminate|]. injection Hh as ->. left. }
  apply list_elem_of_filter in Hin. tauto.
Qed.

Lemma head_filter_None_iff {A} (P : A -> Prop) `{!forall x, Decision (P x)} l :
  head (filter P l) = None <-> forall x, x ∈ l -> ~ P x.
Proof.
  split.
  - intros Hh x Hx HP.
    assert (Hin : x ∈ filter P l) by (by apply list_elem_of_filter).
    destruct (filter P l); [by apply elem_of_nil in Hin | discriminate].
  - intros Hh. destruct (filter P l) as [|y l'] eqn:Hf; [done|].
    assert (Hin : y ∈ filter P l) by (rewrite Hf; left).
    apply list_elem_of_filter in Hin as [HP Hy]. by destruct (Hh y Hy).
Qed.

Lemma alt_copy_fields a :
  user_id (alt_copy a) = user_id a /\ name (alt_copy a) = name a /\
  role (alt_copy a) = role a /\
  bonus (alt_copy a)
  = if negb (Qle_bool (s6_bonus a) 0) then s6_bonus a else bonus a.
Proof. unfold alt_copy. by destruct (negb (Qle_bool (s6_bonus a) 0)). Qed.

Lemma account_fields a ai :
  user_id (account a ai) = user_id a /\ role (account a ai) = role a /\
  multi (account a ai) = multi a /\
  registered_at (account a ai) = registered_at a.
Proof. by repeat split. Qed.

(** X10. Every seat of the shift is taken by an applicant of the slot, in the
    role applied for: the alt seat by an applicant of role s6 (with the
    alt bonus when that is positive) and empty only when nobody applied
    as s6, the support seat likewise, and each pusher position by an
    account of an applicant who applied neither as s6 nor as support. *)
Theorem seats_come_from_applicants dt hour apps sh :
  auto_assign_schedule dt hour apps = Some sh ->
  (forall c, p2 sh = Some c ->
     exists a, a ∈ apps /\ role a = "s6" /\ c = alt_copy a /\
               user_id c = user_id a /\
               bonus c = if negb (Qle_bool (s6_bonus a) 0)
                         then s6_bonus a else bonus a)
  /\ (p2 sh = None <-> forall a, a ∈ apps -> role a <> "s6")
  /\ (forall c, support sh = Some c -> c ∈ apps /\ role c = "support")
  /\ (support sh = None <-> forall a, a ∈ apps -> role a <> "support")
  /\ (forall c, Some c ∈ positions sh ->
       exists a ai, a ∈ apps /\ role a <> "s6" /\ role a <> "support" /\
                    c = account a ai /\ user_id c = user_id a).
Proof.
  intros Hsh.
  destruct (auto_assign_alt_support dt hour apps sh Hsh) as [Hp2 Hsp].
  assert (Hperm : forall a, a ∈ sorted_by_key apps <-> a ∈ apps).
  { intros a. unfold sorted_by_key. by rewrite sorted_by_perm. }
  split; [|split; [|split; [|split]]].
  - intros c Hc. rewrite Hp2 in Hc.
    destruct (head (filter _ (sorted_by_key apps))) as [a|] eqn:Hh;
      [|discriminate].
    injection Hc as <-. apply head_filter_Some in Hh as [Hin Hrole].
    exists a. destruct (alt_copy_fields a) as (Hu & _ & _ & Hb).
    split; [by apply Hperm|]. by repeat split.
  - rewrite Hp2. rewrite fmap_None, head_filter_None_iff.
    split; intros H a Ha; apply H; by apply Hperm.
  - intros c Hc. rewrite Hsp in Hc.
    apply head_filter_Some in Hc as [Hin Hrole]. split; [by apply Hperm | done].
  - rewrite Hsp, head_filter_None_iff.
    split; intros H a Ha; apply H; by apply Hperm.
  - intros c Hc.
    destruct (auto_assign_inv dt hour apps sh Hsh)
      as (_ & sh' & -> & Hpos & _).
    change (positions (set_avg_bonus sh' (mean (pusher_bonuses sh'))))
      with (positions sh') in Hc.
    rewrite Hpos in Hc. unfold positions_of in Hc.
    assert (Hline : c ∈ pusher_candidates apps ≫= accounts).
    { repeat (apply elem_of_cons in Hc as [Hc | Hc];
              [symmetry in Hc; by apply list_elem_of_lookup_2 in Hc|]).
      by apply elem_of_nil in Hc. }
    apply list_elem_of_bind in Hline as (a & Hc' & Ha).
    unfold accounts in Hc'. apply list_elem_of_fmap in Hc' as (ai & -> & _).
    unfold pusher_candidates in Ha.
    apply list_elem_of_filter in Ha as [[Hr1 Hr2] Ha].
    exists a, ai. split; [by apply Hperm|]. by repeat split.
Qed.

Lemma seats_come_from_applicants_witness :
  let apps := [sample "A" 2 0 0 "雙開" "pusher" "2024-04-27T06:00:00";
               sample "S" 2 0 0 "單開" "s6" "2024-04-27T06:10:00"] in
  exists sh,
  auto_assign_schedule "2024-04-27" "08:00" apps = Some sh /\
  (forall c, p2 sh = Some c ->
     exists a, a ∈ apps /\ role a = "s6" /\ c = alt_copy a /\
               user_id c = user_id a /\
               bonus c = if negb (Qle_bool (s6_bonus a) 0)
                         then s6_bonus a else bonus a)
  /\ (p2 sh = None <-> forall a, a ∈ apps -> role a <> "s6")
  /\ (forall c, support sh = Some c -> c ∈ apps /\ role c = "support")
  /\ (support sh = None <-> forall a, a ∈ apps -> role a <> "support")
  /\ (forall c, Some c ∈ positions sh ->
       exists a ai, a ∈ apps /\ role a <> "s6" /\ role a <> "support" /\
                    c = account a ai /\ user_id c = user_id a).
Proof.
  intros apps. eexists. split; [vm_compute; reflexivity|].
  apply (seats_come_from_applicants "2024-04-27" "08:00" apps).
  vm_compute. reflexivity.
Defined.

End SeatingFacts.

(** ** The schedule commands *)

Module ScheduleCommandFacts.
Import TimeRange Schedule Signup PyFacts AssignFacts HourLabelFacts.

Implicit Types (s : gmap string (gmap string slot)) (day : gmap string slot).

Lemma slot_at_insert s d day k h :
  <[d := day]> s !! k ≫= (fun day => day !! h)
  = if decide (k = d) then day !! h else s !! k ≫= (fun day => day !! h).
Proof.
  destruct (decide (k = d)) as [->|Hne].
  - by rewrite lookup_insert_eq.
  - by rewrite lookup_insert_ne.
Qed.

Lemma has_s6_shift_at s d h :
  has_s6 s d h = match shift_at s d h with
                 | Some sh => bool_decide (is_Some (p2 sh))
                 | None => false
                 end.
Proof.
  unfold has_s6, shift_at.
  by destruct (s !! d ≫= (fun day => day !! h)) as [sl|].
Qed.

Lemma is_signup_closed_shift_at now t s1 s2 h :
  shift_at s1 t h = shift_at s2 t h ->
  is_signup_closed now t s1 h = is_signup_closed now t s2 h.
Proof.
  intros E. unfold is_signup_closed.
  rewrite !has_s6_shift_at, E. reflexivity.
Qed.

Lemma applied_true uid apps :
  applied uid apps = true <-> uid ∈ user_ids apps.
Proof.
  unfold applied, user_ids. rewrite existsb_exists. split.
  - intros (a & Ha & E). apply String.eqb_eq in E. subst uid.
    apply list_elem_of_fmap. exists a. split; [done|]. by apply list_elem_of_In.
  - intros H. apply list_elem_of_fmap in H as (a & -> & Ha).
    exists a. split; [by apply list_elem_of_In | apply String.eqb_refl].
Qed.

Lemma applied_false uid apps :
  applied uid apps = false <-> uid ∉ user_ids apps.
Proof.
  rewrite <- applied_true. by destruct (applied uid apps).
Qed.

Lemma register_spec today app h s reg :
  is_Some (s !! today) ->
  exists s',
    register today app h (s, reg)
    = Ok (s', if applied (user_id app) (applicants_at s today h)
              then reg else reg ++ [h]) /\
    registers today app h s s'.
Proof.
  intros [day Hday]. unfold register, day_of. cbn [fst snd]. rewrite Hday.
  rewrite bind_Ok. cbv zeta.
  assert (Hold : applicants_at s today h
                 = sl_applicants (default new_slot (day !! h))).
  { unfold applicants_at. rewrite Hday. cbn. by destruct (day !! h). }
  assert (Hsh : shift_at s today h
                = sl_shift (default new_slot (day !! h))).
  { unfold shift_at. rewrite Hday. cbn. by destruct (day !! h). }
  rewrite <- Hold.
  assert (Hframe : forall apps,
    let s' := <[today := <[h := set_applicants (default new_slot (day !! h))
                                              apps]> day]> s in
    is_Some (s' !! today) /\
    (forall d, d <> today -> s' !! d = s !! d) /\
    (forall d k, shift_at s' d k = shift_at s d k) /\
    (forall d k, (d, k) <> (today, h) ->
       applicants_at s' d k = applicants_at s d k) /\
    applicants_at s' today h = apps).
  { intros apps s'. subst s'. split; [|split; [|split; [|split]]].
    - rewrite lookup_insert_eq. eauto.
    - intros d Hd. by rewrite lookup_insert_ne.
    - intros d k. unfold shift_at. rewrite slot_at_insert.
      destruct (decide (d = today)) as [->|]; [|done].
      rewrite Hday. cbn.
      destruct (decide (k = h)) as [->|].
      + rewrite lookup_insert_eq. cbn. by destruct (day !! h).
      + by rewrite lookup_insert_ne.
    - intros d k Hne. unfold applicants_at. rewrite slot_at_insert.
      destruct (decide (d = today)) as [->|]; [|done].
      rewrite Hday. cbn.
      destruct (decide (k = h)) as [->|]; [done|].
      by rewrite lookup_insert_ne.
    - unfold applicants_at. rewrite lookup_insert_eq. cbn.
      by rewrite lookup_insert_eq. }
  destruct (applied (user_id app) (applicants_at s today h)) eqn:Happ.
  - eexists. split; [reflexivity|].
    pose proof (Hframe (applicants_at s today h)) as HF. cbv zeta in HF.
    assert (E : set_applicants (default new_slot (day !! h))
                               (applicants_at s today h)
                = default new_slot (day !! h)).
    { rewrite Hold. by destruct (default new_slot (day !! h)). }
    rewrite E in HF. unfold registers. rewrite Happ. exact HF.
  - eexists. split; [reflexivity|].
    pose proof (Hframe (applicants_at s today h ++ [app])) as HF.
    cbv zeta in HF. unfold registers. rewrite Happ. exact HF.
Qed.

(** *** [refresh_schedule] *)

Lemma refresh_slot_applicants dt h sl :
  sl_applicants (refresh_slot dt h sl) = sl_applicants sl.
Proof.
  unfold refresh_slot. by destruct (sl_applicants sl) eqn:E.
Qed.

Lemma refresh_slot_shift dt h sl :
  sl_shift (refresh_slot dt h sl)
  = match sl_applicants sl with
    | [] => sl_shift sl
    | apps => auto_assign_schedule dt h apps
    end.
Proof.
  unfold refresh_slot. by destruct (sl_applicants sl) eqn:E.
Qed.

Lemma refresh_slot_idemp dt h sl :
  refresh_slot dt h (refresh_slot dt h sl) = refresh_slot dt h sl.
Proof.
  destruct (sl_applicants sl) as [|a apps] eqn:E.
  - unfold refresh_slot. by rewrite !E.
  - destruct (auto_assign_nonempty dt h (sl_applicants sl)) as [sh Hsh];
      [by rewrite E|].
    rewrite (refresh_slot_nonempty _ _ _ _ Hsh).
    exact (refresh_slot_nonempty dt h
             {| sl_shift := Some sh; sl_applicants := sl_applicants sl |}
             sh Hsh).
Qed.

Lemma refresh_schedule_slot s dt d h :
  refresh_schedule s dt !! d ≫= (fun day => day !! h)
  = if decide (d = dt)
    then refresh_slot dt h <$> (s !! d ≫= (fun day => day !! h))
    else s !! d ≫= (fun day => day !! h).
Proof.
  unfold refresh_schedule. destruct (s !! dt) as [day|] eqn:Hday.
  - rewrite slot_at_insert. destruct (decide (d = dt)) as [->|]; [|done].
    rewrite Hday. cbn. rewrite map_lookup_imap. by destruct (day !! h).
  - destruct (decide (d = dt)) as [->|]; [|done]. by rewrite Hday.
Qed.

Lemma refresh_schedule_applicants s dt d h :
  applicants_at (refresh_schedule s dt) d h = applicants_at s d h.
Proof.
  unfold applicants_at. rewrite refresh_schedule_slot.
  destruct (decide (d = dt)); [|done].
  destruct (s !! d ≫= (fun day => day !! h)); [|done].
  cbn. apply refresh_slot_applicants.
Qed.

Lemma refresh_schedule_shift s dt h :
  shift_at (refresh_schedule s dt) dt h
  = match applicants_at s dt h with
    | [] => shift_at s dt h
    | apps => auto_assign_schedule dt h apps
    end.
Proof.
  unfold shift_at, applicants_at. rewrite refresh_schedule_slot.
  rewrite decide_True by done.
  destruct (s !! dt ≫= (fun day => day !! h)); [|done].
  cbn. apply refresh_slot_shift.
Qed.

Lemma refresh_schedule_other s dt d :
  d <> dt -> refresh_schedule s dt !! d = s !! d.
Proof.
  intros Hd. unfold refresh_schedule. destruct (s !! dt); [|done].
  by rewrite lookup_insert_ne.
Qed.

Lemma refresh_schedule_idemp s dt :
  refresh_schedule (refresh_schedule s dt) dt = refresh_schedule s dt.
Proof.
  unfold refresh_schedule at 2. destruct (s !! dt) as [day|] eqn:Hday.
  - unfold refresh_schedule. rewrite lookup_insert_eq, insert_insert_eq, Hday.
    apply (f_equal (fun m => <[dt := m]> s)).
    apply map_eq. intros h. rewrite !map_lookup_imap.
    destruct (day !! h); [|done]. cbn. by rewrite refresh_slot_idemp.
  - unfold refresh_schedule. by rewrite Hday.
Qed.

(** *** [setdefault] *)

Lemma setdefault_day_slot s today d h :
  setdefault_day s today !! d ≫= (fun day => day !! h)
  = s !! d ≫= (fun day => day !! h).
Proof.
  unfold setdefault_day. destruct (s !! today) eqn:E; [done|].
  rewrite slot_at_insert. destruct (decide (d = today)) as [->|]; [|done].
  by rewrite E.
Qed.

Lemma setdefault_day_some s today : is_Some (setdefault_day s today !! today).
Proof.
  unfold setdefault_day. destruct (s !! today) eqn:E; [by rewrite E|].
  rewrite lookup_insert_eq. eauto.
Qed.

Lemma setdefault_day_other s today d :
  d <> today -> setdefault_day s today !! d = s !! d.
Proof.
  intros Hd. unfold setdefault_day. destruct (s !! today); [done|].
  by rewrite lookup_insert_ne.
Qed.

Lemma setdefault_day_applicants s today d h :
  applicants_at (setdefault_day s today) d h = applicants_at s d h.
Proof. unfold applicants_at. by rewrite setdefault_day_slot. Qed.

Lemma setdefault_day_shift s today d h :
  shift_at (setdefault_day s today) d h = shift_at s d h.
Proof. unfold shift_at. by rewrite setdefault_day_slot. Qed.

(** *** The registering loop *)

Lemma snoc_neq {A} (l : list A) x : l ++ [x] <> l.
Proof.
  intros E. apply (f_equal length) in E. rewrite length_app in E.
  cbn in E. lia.
Qed.

Lemma register_all_spec today app hs : forall s reg,
  is_Some (s !! today) ->
  exists s' new,
    register_all today app hs (s, reg) = Ok (s', reg ++ new) /\
    is_Some (s' !! today) /\
    (forall d, d <> today -> s' !! d = s !! d) /\
    (forall d k, shift_at s' d k = shift_at s d k) /\
    (forall d k,
       applicants_at s' d k
       = if bool_decide (d = today /\ k ∈ hs)
            && negb (applied (user_id app) (applicants_at s d k))
         then applicants_at s d k ++ [app] else applicants_at s d k) /\
    NoDup new /\
    (forall k, k ∈ new <->
               k ∈ hs /\ applied (user_id app) (applicants_at s today k) = false).
Proof.
  induction hs as [|h rest IH]; intros s reg Hs.
  - exists s, []. cbn [register_all]. rewrite app_nil_r.
    split; [done|]. split; [done|]. split; [done|]. split; [done|].
    split.
    { intros d k. rewrite bool_decide_eq_false_2; [done|].
      intros [_ Hk]. by apply elem_of_nil in Hk. }
    split; [constructor|].
    intros k. split; [intros Hk; by apply elem_of_nil in Hk|].
    intros [Hk _]. by apply elem_of_nil in Hk.
  - cbn [register_all].
    destruct (register_spec today app h s reg Hs)
      as (s1 & -> & H1 & H1o & H1s & H1f & H1h).
    rewrite bind_Ok.
    destruct (IH s1 (if applied (user_id app) (applicants_at s today h)
                     then reg else reg ++ [h]) H1)
      as (s' & new1 & -> & H2 & H2o & H2s & H2a & H2n & H2m).
    assert (Hh1 : applied (user_id app) (applicants_at s1 today h) = true).
    { rewrite H1h.
      destruct (applied (user_id app) (applicants_at s today h)) eqn:E;
        [done|].
      apply applied_true. unfold user_ids. rewrite map_app.
      apply elem_of_app. right. cbn. left. }
    assert (Hnew1 : h ∉ new1).
    { intros Hin. apply H2m in Hin as [_ Hin]. congruence. }
    exists s',
      ((if applied (user_id app) (applicants_at s today h) then [] else [h])
         ++ new1).
    split.
    { f_equal. f_equal.
      destruct (applied (user_id app) (applicants_at s today h));
        [done | by rewrite <- app_assoc]. }
    split; [done|].
    split. { intros d Hd. rewrite H2o, H1o; done. }
    split. { intros d k. by rewrite H2s, H1s. }
    split.
    { intros d k. rewrite H2a.
      destruct (decide ((d, k) = (today, h))) as [[= -> ->]|Hne].
      - rewrite Hh1, andb_false_r, H1h.
        rewrite (bool_decide_eq_true_2 (today = today /\ h ∈ h :: rest))
          by (split; [done | left]).
        by destruct (applied (user_id app) (applicants_at s today h)).
      - rewrite (H1f d k Hne).
        assert (E : bool_decide (d = today /\ k ∈ rest)
                    = bool_decide (d = today /\ k ∈ h :: rest)).
        { apply bool_decide_ext. rewrite elem_of_cons.
          split; [tauto|]. intros [-> [->|Hk]]; [done | done]. }
        by rewrite E. }
    split.
    { destruct (applied (user_id app) (applicants_at s today h)); [done|].
      cbn. by constructor. }
    intros k. rewrite elem_of_app, H2m, elem_of_cons.
    destruct (decide (k = h)) as [->|Hk].
    + rewrite Hh1.
      destruct (applied (user_id app) (applicants_at s today h)).
      * split; [intros [Hf|[_ Hf]]; [by apply elem_of_nil in Hf | done]|].
        intros [_ Hf]. done.
      * split; [intros _; split; [by left | done]|]. intros _. left. left.
    + rewrite (H1f today k) by congruence.
      split.
      * intros [Hf|[Hr Ha]]; [|by split; [right|]].
        destruct (applied (user_id app) (applicants_at s today h));
          [by apply elem_of_nil in Hf|].
        apply list_elem_of_singleton in Hf. done.
      * intros [[->|Hr] Ha]; [done|]. by right.
Qed.

Lemma sort_hours_shift_at clock s1 s2 hours : forall i,
  (forall d h, shift_at s1 d h = shift_at s2 d h) ->
  sort_hours clock i s1 hours = sort_hours clock i s2 hours.
Proof.
  induction hours as [|h rest IH]; intros i E; [done|].
  cbn [sort_hours].
  rewrite (is_signup_closed_shift_at _ _ s1 s2) by apply E.
  by rewrite (IH (S i) E).
Qed.

Lemma sort_hours_returns clock s hours : forall i,
  Forall label hours ->
  exists c o,
    sort_hours clock i s hours = Ok (c, o) /\
    (forall h, h ∈ o <->
       exists j r, hours !! j = Some h /\
                   is_signup_closed (clock (i + j)%nat).1 (clock (i + j)%nat).2
                     s h = Ok (false, r)).
Proof.
  induction hours as [|h rest IH]; intros i Hl.
  - exists [], []. split; [done|]. intros h. split.
    + intros Hh. by apply elem_of_nil in Hh.
    + intros (j & r & Hj & _). done.
  - apply Forall_cons in Hl as [[k [Hk ->]] Hl].
    destruct (IH (S i) Hl) as (c & o & Hso & Ho).
    destruct (is_signup_closed_returns (clock i).1 (clock i).2 s k Hk)
      as (b & r & Hv).
    cbn [sort_hours]. rewrite Hv, Hso.
    destruct b.
    + exists (r :: c), o. split; [done|]. intros h. rewrite Ho. split.
      * intros (j & r' & Hj & Hv'). exists (S j), r'. split; [done|].
        by replace (i + S j)%nat with (S i + j)%nat by lia.
      * intros ([|j] & r' & Hj & Hv').
        -- injection Hj as <-. rewrite Nat.add_0_r in Hv'. congruence.
        -- exists j, r'. split; [done|].
           by replace (S i + j)%nat with (i + S j)%nat by lia.
    + exists c, (time_slot k :: o). split; [done|]. intros h.
      rewrite elem_of_cons, Ho. split.
      * intros [-> | (j & r' & Hj & Hv')].
        -- exists 0%nat, r. split; [done|]. by rewrite Nat.add_0_r.
        -- exists (S j), r'. split; [done|].
           by replace (i + S j)%nat with (S i + j)%nat by lia.
      * intros ([|j] & r' & Hj & Hv').
        -- injection Hj as <-. by left.
        -- right. exists j, r'. split; [done|].
           by replace (S i + j)%nat with (i + S j)%nat by lia.
Qed.

Lemma signup_loop_sort clock today app hours : forall i s reg,
  Forall label hours -> is_Some (s !! today) ->
  exists c o,
    sort_hours clock i s hours = Ok (c, o) /\
    signup_loop clock i today app hours (s, reg)
    = register_all today app o (s, reg).
Proof.
  induction hours as [|h rest IH]; intros i s reg Hl Hs.
  - exists [], []. done.
  - pose proof Hl as Hl'. apply Forall_cons in Hl' as [[k [Hk ->]] Hr].
    destruct (is_signup_closed_returns (clock i).1 (clock i).2 s k Hk)
      as (b & r & Hv).
    cbn [signup_loop sort_hours fst snd]. rewrite Hv.
    destruct b.
    + rewrite bind_Ok.
      destruct (IH (S i) s reg Hr Hs) as (c & o & Hso & Hloop).
      rewrite Hso. exists (r :: c), o. done.
    + destruct (register_spec today app (time_slot k) s reg Hs)
        as (s1 & Hreg & H1 & _ & H1s & _).
      rewrite Hreg, bind_Ok.
      destruct (IH (S i) s1 (if applied (user_id app)
                                  (applicants_at s today (time_slot k))
                             then reg else reg ++ [time_slot k]) Hr H1)
        as (c & o & Hso & Hloop).
      rewrite (sort_hours_shift_at clock s s1) by (intros; by rewrite H1s).
      rewrite Hso. exists c, (time_slot k :: o). split; [done|].
      cbn [register_all]. by rewrite Hreg, bind_Ok.
Qed.

Lemma parse_time_range_labels text :
  exists hours, parse_time_range text = Ok hours /\ Forall label hours.
Proof.
  destruct (parse_time_range_shape text) as (a & b & _ & _ & ->).
  eexists. split; [reflexivity|].
  apply Forall_forall. intros l Hl.
  apply list_elem_of_fmap in Hl as (h & -> & _).
  exists (h mod 24). split; [apply Z.mod_pos_bound; lia | reflexivity].
Qed.

Lemma signup_cmd_spec clock today app text s :
  exists hours c o s' reply,
    parse_time_range text = Ok hours /\
    sort_hours clock 0 s hours = Ok (c, o) /\
    signup_cmd clock today app text s = Ok (s', reply) /\
    signup_outcome clock today app s hours o s' reply /\
    exists reply',
      modal_on_submit clock today app text s = Ok (s', reply') /\
      (reply' = reply \/
       (reply = NothingNew /\ o = [] /\ reply' = AllClosed c)).
Proof.
  destruct (parse_time_range_labels text) as (hours & Hparse & Hl).
  pose proof (setdefault_day_some s today) as Hs0.
  destruct (signup_loop_sort clock today app hours 0 (setdefault_day s today)
              [] Hl Hs0) as (c & o & Hso & Hloop).
  destruct (register_all_spec today app o (setdefault_day s today) [] Hs0)
    as (s1 & new & Hreg & _ & H1o & H1s & H1a & Hnd & Hnew).
  change ([] ++ new) with new in Hreg.
  assert (Hso' : sort_hours clock 0 s hours = Ok (c, o)).
  { rewrite <- Hso. apply sort_hours_shift_at.
    intros. by rewrite setdefault_day_shift. }
  destruct (sort_hours_returns clock s hours 0 Hl) as (c' & o' & Hso2 & Ho).
  rewrite Hso' in Hso2. injection Hso2 as <- <-.
  assert (Hother : forall d, d <> today -> s1 !! d = s !! d).
  { intros d Hd. by rewrite H1o, setdefault_day_other. }
  assert (Happs : forall d k,
    applicants_at s1 d k
    = if bool_decide (d = today /\ k ∈ o)
         && negb (applied (user_id app) (applicants_at s d k))
      then applicants_at s d k ++ [app] else applicants_at s d k).
  { intros d k. by rewrite H1a, setdefault_day_applicants. }
  assert (Hnew' : forall k, k ∈ new <->
     k ∈ o /\ applied (user_id app) (applicants_at s today k) = false).
  { intros k. by rewrite Hnew, setdefault_day_applicants. }
  exists hours, c, o.
  unfold signup_cmd, modal_on_submit. rewrite Hparse, !bind_Ok.
  destruct hours as [|h0 rest] eqn:Hhours.
  { cbn [sort_hours] in Hso'. injection Hso' as <- <-.
    exists s, BadFormat. split; [done|]. split; [done|]. split; [done|].
    split; [|exists BadFormat; split; [done | by left]].
    split; [done|]. split; [done|]. split; [|done].
    intros d k. rewrite bool_decide_eq_false_2; [done|].
    intros [_ Hk]. by apply elem_of_nil in Hk. }
  cbv zeta. rewrite Hloop, Hso, Hreg, !bind_Ok. cbn [fst snd].
  destruct new as [|n0 new'] eqn:Hnew0.
  - exists s1, NothingNew. split; [done|]. split; [done|]. split; [done|].
    split.
    + split; [done|]. split; [done|]. split; [done|].
      split; [done|]. split.
      * intros k Hk. destruct (applied _ _) eqn:E; [done|].
        assert (Hin : k ∈ @nil string) by (by apply Hnew').
        by apply elem_of_nil in Hin.
      * intros d k. by rewrite H1s, setdefault_day_shift.
    + destruct o as [|o0 o'].
      * cbn [register_all] in Hreg. injection Hreg as <-.
        eexists. split; [reflexivity|]. by right.
      * rewrite Hreg, bind_Ok. cbn [snd].
        eexists. split; [reflexivity|]. by left.
  - exists (refresh_schedule s1 today), (Registered (n0 :: new')).
    split; [done|]. split; [done|]. split; [done|].
    split.
    + split; [done|].
      split. { intros d Hd. by rewrite refresh_schedule_other, Hother. }
      split. { intros d k. by rewrite refresh_schedule_applicants, Happs. }
      split; [done|]. split; [done|]. split; [done|].
      intros k. rewrite refresh_schedule_shift, refresh_schedule_applicants.
      by rewrite H1s, setdefault_day_shift.
    + destruct o as [|o0 o'].
      * cbn [register_all] in Hreg. injection Hreg as <-. done.
      * rewrite Hreg, bind_Ok. cbn [snd].
        eexists. split; [reflexivity|]. by left.
Qed.

(** *** Cancelling *)

Lemma filter_length_lt uid (apps : list applicant) :
  (length (filter (fun a => user_id a <> uid) apps) <? length apps)%nat
  = applied uid apps.
Proof.
  induction apps as [|a apps IH]; [done|].
  rewrite filter_cons.
  change (applied uid (a :: apps))
    with (String.eqb (user_id a) uid || applied uid apps).
  cbn [length].
  pose proof (length_filter (fun a => user_id a <> uid) apps) as Hle.
  destruct (decide (user_id a <> uid)) as [Hne|Heq].
  - apply String.eqb_neq in Hne. rewrite Hne. cbn [orb length].
    rewrite <- IH. destruct (Nat.ltb_spec (length (filter (fun a => user_id a <> uid) apps)) (length apps));
      [apply Nat.ltb_lt | apply Nat.ltb_ge]; lia.
  - assert (E : user_id a = uid) by (destruct (decide (user_id a = uid)); tauto).
    apply String.eqb_eq in E. rewrite E. cbn [orb].
    apply Nat.ltb_lt. lia.
Qed.

Lemma filter_not_applied uid (apps : list applicant) :
  applied uid apps = false -> filter (fun a => user_id a <> uid) apps = apps.
Proof.
  intros H. apply applied_false in H.
  induction apps as [|a apps IH]; [done|].
  unfold user_ids in H. cbn [map] in H. apply not_elem_of_cons in H as [H1 H2].
  rewrite filter_cons, decide_True by done. f_equal. by apply IH.
Qed.

Lemma applied_filter uid (apps : list applicant) :
  applied uid (filter (fun a => user_id a <> uid) apps) = false.
Proof.
  apply applied_false. unfold user_ids. intros H.
  apply list_elem_of_fmap in H as (a & -> & Ha).
  apply list_elem_of_filter in Ha as [Hne _]. done.
Qed.

Lemma filter_filter_id uid (apps : list applicant) :
  filter (fun a => user_id a <> uid) (filter (fun a => user_id a <> uid) apps)
  = filter (fun a => user_id a <> uid) apps.
Proof. apply filter_not_applied, applied_filter. Qed.

Lemma cancel_step_spec today uid h s c :
  exists s1,
    cancel_step today uid (s, c) h
    = (s1, if applied uid (applicants_at s today h) then c ++ [h] else c) /\
    (forall d, d <> today -> s1 !! d = s !! d) /\
    (forall d k, shift_at s1 d k = shift_at s d k) /\
    (forall d k, (d, k) <> (today, h) ->
       applicants_at s1 d k = applicants_at s d k) /\
    applicants_at s1 today h
    = filter (fun a => user_id a <> uid) (applicants_at s today h).
Proof.
  unfold cancel_step. cbn [fst snd].
  destruct (s !! today) as [day|] eqn:Hday.
  - destruct (day !! h) as [sl|] eqn:Hsl.
    + cbv zeta. rewrite filter_length_lt.
      assert (Hold : applicants_at s today h = sl_applicants sl).
      { unfold applicants_at. rewrite Hday. cbn. by rewrite Hsl. }
      rewrite Hold. eexists. split; [reflexivity|].
      split. { intros d Hd. by rewrite lookup_insert_ne. }
      split.
      { intros d k. unfold shift_at. rewrite slot_at_insert.
        destruct (decide (d = today)) as [->|]; [|done].
        rewrite Hday. cbn.
        destruct (decide (k = h)) as [->|].
        - rewrite lookup_insert_eq, Hsl. done.
        - by rewrite lookup_insert_ne. }
      split.
      { intros d k Hne. unfold applicants_at. rewrite slot_at_insert.
        destruct (decide (d = today)) as [->|]; [|done].
        rewrite Hday. cbn.
        destruct (decide (k = h)) as [->|]; [done|].
        by rewrite lookup_insert_ne. }
      unfold applicants_at. rewrite lookup_insert_eq. cbn.
      by rewrite lookup_insert_eq.
    + assert (Hold : applicants_at s today h = []).
      { unfold applicants_at. rewrite Hday. cbn. by rewrite Hsl. }
      rewrite Hold. exists s. done.
  - assert (Hold : applicants_at s today h = []).
    { unfold applicants_at. by rewrite Hday. }
    rewrite Hold. exists s. done.
Qed.

Lemma cancel_fold_spec today uid hours : forall s c,
  exists s' new,
    fold_left (cancel_step today uid) hours (s, c) = (s', c ++ new) /\
    (forall d, d <> today -> s' !! d = s !! d) /\
    (forall d k, shift_at s' d k = shift_at s d k) /\
    (forall d k,
       applicants_at s' d k
       = if bool_decide (d = today /\ k ∈ hours)
         then filter (fun a => user_id a <> uid) (applicants_at s d k)
         else applicants_at s d k) /\
    NoDup new /\
    (forall k, k ∈ new <->
               k ∈ hours /\ applied uid (applicants_at s today k) = true).
Proof.
  induction hours as [|h rest IH]; intros s c.
  - exists s, []. cbn [fold_left]. rewrite app_nil_r.
    split; [done|]. split; [done|]. split; [done|].
    split.
    { intros d k. rewrite bool_decide_eq_false_2; [done|].
      intros [_ Hk]. by apply elem_of_nil in Hk. }
    split; [constructor|].
    intros k. split; [intros Hk; by apply elem_of_nil in Hk|].
    intros [Hk _]. by apply elem_of_nil in Hk.
  - cbn [fold_left].
    destruct (cancel_step_spec today uid h s c)
      as (s1 & -> & H1o & H1s & H1f & H1h).
    destruct (IH s1 (if applied uid (applicants_at s today h)
                     then c ++ [h] else c))
      as (s' & new1 & -> & H2o & H2s & H2a & H2n & H2m).
    assert (Hh1 : applied uid (applicants_at s1 today h) = false).
    { rewrite H1h. apply applied_filter. }
    assert (Hnew1 : h ∉ new1).
    { intros Hin. apply H2m in Hin as [_ Hin]. congruence. }
    exists s',
      ((if applied uid (applicants_at s today h) then [h] else []) ++ new1).
    split.
    { f_equal.
      destruct (applied uid (applicants_at s today h));
        [by rewrite <- app_assoc | done]. }
    split. { intros d Hd. rewrite H2o, H1o; done. }
    split. { intros d k. by rewrite H2s, H1s. }
    split.
    { intros d k. rewrite H2a.
      destruct (decide ((d, k) = (today, h))) as [[= -> ->]|Hne].
      - rewrite H1h.
        rewrite (bool_decide_eq_true_2 (today = today /\ h ∈ h :: rest))
          by (split; [done | left]).
        destruct (bool_decide _); [apply filter_filter_id | done].
      - rewrite (H1f d k Hne).
        assert (E : bool_decide (d = today /\ k ∈ rest)
                    = bool_decide (d = today /\ k ∈ h :: rest)).
        { apply bool_decide_ext. rewrite elem_of_cons.
          split; [tauto|]. intros [-> [->|Hk]]; [done | done]. }
        by rewrite E. }
    split.
    { destruct (applied uid (applicants_at s today h)); [|done].
      cbn. by constructor. }
    intros k. rewrite elem_of_app, H2m, elem_of_cons.
    destruct (decide (k = h)) as [->|Hk].
    + rewrite Hh1.
      destruct (applied uid (applicants_at s today h)).
      * split; [intros _; split; [by left | done]|]. intros _. left. left.
      * split; [intros [Hf|[_ Hf]]; [by apply elem_of_nil in Hf | done]|].
        intros [_ Hf]. done.
    + rewrite (H1f today k) by congruence.
      split.
      * intros [Hf|[Hr Ha]]; [|by split; [right|]].
        destruct (applied uid (applicants_at s today h));
          [|by apply elem_of_nil in Hf].
        apply list_elem_of_singleton in Hf. done.
      * intros [[->|Hr] Ha]; [done|]. by right.
Qed.

Lemma cancel_cmd_spec today uid text s :
  exists hours s' cancelled,
    parse_time_range text = Ok hours /\
    cancel_cmd today uid text s = Ok (s', cancelled) /\
    (forall d, d <> today -> s' !! d = s !! d) /\
    (forall d k,
       applicants_at s' d k
       = if bool_decide (d = today /\ k ∈ hours)
         then filter (fun a => user_id a <> uid) (applicants_at s d k)
         else applicants_at s d k) /\
    NoDup cancelled /\
    (forall k, k ∈ cancelled <->
               k ∈ hours /\ applied uid (applicants_at s today k) = true) /\
    (forall k, shift_at s' today k
               = match cancelled, applicants_at s' today k with
                 | _ :: _, a :: apps => auto_assign_schedule today k (a :: apps)
                 | _, _ => shift_at s today k
                 end).
Proof.
  destruct (parse_time_range_labels text) as (hours & Hparse & _).
  destruct (cancel_fold_spec today uid hours s [])
    as (s1 & new & Hfold & H1o & H1s & H1a & Hnd & Hnew).
  change ([] ++ new) with new in Hfold.
  exists hours. unfold cancel_cmd. rewrite Hparse, bind_Ok. cbv zeta.
  rewrite Hfold. cbn [fst snd].
  destruct new as [|n0 new'] eqn:E.
  - exists s1, []. split; [done|]. split; [done|]. split; [done|].
    split; [done|]. split; [done|]. split; [done|].
    intros k. by rewrite H1s.
  - exists (refresh_schedule s1 today), (n0 :: new').
    split; [done|]. split; [done|].
    split. { intros d Hd. by rewrite refresh_schedule_other, H1o. }
    split. { intros d k. by rewrite refresh_schedule_applicants, H1a. }
    split; [done|]. split; [done|].
    intros k. rewrite refresh_schedule_shift, refresh_schedule_applicants.
    rewrite H1s. by destruct (applicants_at s1 today k).
Qed.

(** *** The sign-up command *)

(** X13. Whatever the text, the clock and the schedule, the sign-up
    command returns; each applicant list is left as it was or gets the
    new applicant appended once, the latter only on today's date and only
    where no entry carried the user's id; lists without a repeated user id
    stay so; the other days are untouched. *)
Theorem signup_adds_each_user_once clock today app text s :
  exists s' reply,
    signup_cmd clock today app text s = Ok (s', reply) /\
    (forall d h,
       applicants_at s' d h = applicants_at s d h \/
       (d = today /\ (user_id app ∉ user_ids (applicants_at s d h)) /\
        applicants_at s' d h = applicants_at s d h ++ [app])) /\
    (forall d h, NoDup (user_ids (applicants_at s d h)) ->
                 NoDup (user_ids (applicants_at s' d h))) /\
    (forall d, d <> today -> s' !! d = s !! d).
Proof.
  destruct (signup_cmd_spec clock today app text s)
    as (hours & c & o & s' & reply & _ & _ & Hcmd & (_ & Ho & Ha & _) & _).
  exists s', reply. split; [done|].
  assert (Hcase : forall d h,
    applicants_at s' d h = applicants_at s d h \/
    (d = today /\ (user_id app ∉ user_ids (applicants_at s d h)) /\
     applicants_at s' d h = applicants_at s d h ++ [app])).
  { intros d h. rewrite Ha.
    destruct (bool_decide (d = today /\ h ∈ o)) eqn:Hb; [|by left].
    destruct (applied (user_id app) (applicants_at s d h)) eqn:E; [by left|].
    right. apply bool_decide_eq_true in Hb as [-> _].
    by apply applied_false in E. }
  split; [done|]. split; [|done].
  intros d h Hnd. destruct (Hcase d h) as [-> | (_ & Hni & ->)]; [done|].
  unfold user_ids. rewrite map_app. cbn [map].
  apply NoDup_app. split; [done|]. split; [|apply NoDup_singleton].
  intros x Hx Hx'. apply list_elem_of_singleton in Hx'. by subst x.
Qed.

(** X14. The applicant is appended to the hour [h] of today exactly when
    no entry of [h] carries the user's id and some iteration of the loop
    that visits [h] finds it open; the hours the reply lists are exactly
    those hours. *)
Theorem signup_reaches_open_hours clock today app text s :
  exists hours s' reply,
    parse_time_range text = Ok hours /\
    signup_cmd clock today app text s = Ok (s', reply) /\
    (forall h,
       applicants_at s' today h = applicants_at s today h ++ [app] <->
       (user_id app ∉ user_ids (applicants_at s today h)) /\
       exists j r, hours !! j = Some h /\
                   is_signup_closed (clock j).1 (clock j).2 s h
                   = Ok (false, r)) /\
    (forall h, h ∈ registered_hours reply <->
       applicants_at s' today h = applicants_at s today h ++ [app]).
Proof.
  destruct (signup_cmd_spec clock today app text s)
    as (hours & c & o & s' & reply & Hparse & _ & Hcmd
        & (Hopen & Ho & Ha & Hreply) & _).
  exists hours, s', reply. split; [done|]. split; [done|].
  assert (Hadd : forall h,
    applicants_at s' today h = applicants_at s today h ++ [app] <->
    h ∈ o /\ applied (user_id app) (applicants_at s today h) = false).
  { intros h. rewrite Ha.
    destruct (decide (h ∈ o)) as [Hin|Hout].
    - rewrite bool_decide_eq_true_2 by done.
      destruct (applied (user_id app) (applicants_at s today h)); cbn.
      + split; [intros E; symmetry in E; by apply snoc_neq in E|].
        intros [_ ?]. done.
      + done.
    - rewrite bool_decide_eq_false_2 by tauto. cbn.
      split; [intros E; symmetry in E; by apply snoc_neq in E | tauto]. }
  split.
  - intros h. rewrite Hadd, Hopen, applied_false. tauto.
  - intros h. rewrite Hadd. destruct reply as [|cs| |new]; cbn.
    + destruct Hreply as [-> _].
      split; [intros Hh; by apply elem_of_nil in Hh|].
      intros [Hin _]. apply Hopen in Hin as (j & r & Hj & _). done.
    + done.
    + destruct Hreply as (_ & Happ & _).
      split; [intros Hh; by apply elem_of_nil in Hh|].
      intros [Hin E]. rewrite (Happ h Hin) in E. done.
    + destruct Hreply as (_ & _ & Hnew & _). apply Hnew.
Qed.

(** X15. The sign-up dialog, which first sorts the hours into closed and
    open ones and then registers the open ones, leaves the same schedule
    and lists the same hours as the command, whose single loop does both;
    the replies differ only when every hour is closed. *)
Theorem modal_agrees_with_command clock today app text s :
  exists s' reply reply',
    signup_cmd clock today app text s = Ok (s', reply) /\
    modal_on_submit clock today app text s = Ok (s', reply') /\
    registered_hours reply' = registered_hours reply /\
    (reply' = reply \/
     (reply = NothingNew /\ exists reasons, reply' = AllClosed reasons)).
Proof.
  destruct (signup_cmd_spec clock today app text s)
    as (hours & c & o & s' & reply & _ & _ & Hcmd & _
        & reply' & Hmodal & Hrel).
  exists s', reply, reply'. split; [done|]. split; [done|].
  destruct Hrel as [-> | (-> & _ & ->)]; [by split; [|left]|].
  split; [done|]. right. eauto.
Qed.

(** X16. After a sign-up that registered some hours, each of them holds
    the assignment [auto_assign_schedule] computes from the old applicants
    followed by the new one; every hour of today that has applicants holds
    the assignment computed from them, and an hour without applicants
    keeps what it had. *)
Theorem signup_reassigns_registered_hours clock today app text s s' hs :
  signup_cmd clock today app text s = Ok (s', Registered hs) ->
  hs <> [] /\
  (forall h, h ∈ hs ->
     applicants_at s' today h = applicants_at s today h ++ [app] /\
     is_Some (shift_at s' today h) /\
     shift_at s' today h
     = auto_assign_schedule today h (applicants_at s today h ++ [app])) /\
  (forall h, applicants_at s' today h <> [] ->
     shift_at s' today h
     = auto_assign_schedule today h (applicants_at s' today h)) /\
  (forall h, applicants_at s' today h = [] ->
     shift_at s' today h = shift_at s today h).
Proof.
  intros Hrun.
  destruct (signup_cmd_spec clock today app text s)
    as (hours & c & o & s'' & reply & _ & _ & Hcmd
        & (_ & _ & Ha & Hreply) & _).
  rewrite Hrun in Hcmd. injection Hcmd as <- <-.
  destruct Hreply as (Hne & _ & Hnew & Hshift).
  assert (Hfull : forall h, applicants_at s' today h <> [] ->
     shift_at s' today h
     = auto_assign_schedule today h (applicants_at s' today h)).
  { intros h Hh. rewrite Hshift.
    by destruct (applicants_at s' today h). }
  split; [done|]. split; [|split; [done|]].
  - intros h Hh. apply Hnew in Hh as [Hin Happ].
    assert (E : applicants_at s' today h = applicants_at s today h ++ [app]).
    { rewrite Ha, Happ, bool_decide_eq_true_2; done. }
    split; [done|].
    assert (Hnn : applicants_at s' today h <> []).
    { rewrite E. by destruct (applicants_at s today h). }
    rewrite (Hfull h Hnn), <- E. split; [|done].
    by apply auto_assign_nonempty.
  - intros h Hh. by rewrite Hshift, Hh.
Qed.

Lemma signup_reassigns_registered_hours_witness :
  let clock := still now_7am "2024-04-27" in
  let today := "2024-04-27" in
  let app := applicant_B in
  let s := edited_schedule in
  exists s' hs,
  signup_cmd clock today app "08-12" s = Ok (s', Registered hs) /\
  hs <> [] /\
  (forall h, h ∈ hs ->
     applicants_at s' today h = applicants_at s today h ++ [app] /\
     is_Some (shift_at s' today h) /\
     shift_at s' today h
     = auto_assign_schedule today h (applicants_at s today h ++ [app])) /\
  (forall h, applicants_at s' today h <> [] ->
     shift_at s' today h
     = auto_assign_schedule today h (applicants_at s' today h)) /\
  (forall h, applicants_at s' today h = [] ->
     shift_at s' today h = shift_at s today h).
Proof.
  intros clock today app s. eexists _, _.
  split; [vm_compute; reflexivity|].
  apply (signup_reassigns_registered_hours clock today app "08-12" s).
  vm_compute. reflexivity.
Defined.

(** *** The cancel command *)

(** X17. The cancel command returns; in the hours of the range it keeps
    the other applicants of today in their order and drops every entry of
    the user, elsewhere the applicant lists are as before; it reports
    exactly the hours of the range where the user had an entry, each
    once. *)
Theorem cancel_removes_the_user today uid text s :
  exists hours s' cancelled,
    parse_time_range text = Ok hours /\
    cancel_cmd today uid text s = Ok (s', cancelled) /\
    (forall d h,
       applicants_at s' d h
       = if bool_decide (d = today /\ h ∈ hours)
         then filter (fun a => user_id a <> uid) (applicants_at s d h)
         else applicants_at s d h) /\
    (forall h, h ∈ hours -> uid ∉ user_ids (applicants_at s' today h)) /\
    NoDup cancelled /\
    (forall h, h ∈ cancelled <->
               h ∈ hours /\ uid ∈ user_ids (applicants_at s today h)) /\
    (forall d, d <> today -> s' !! d = s !! d).
Proof.
  destruct (cancel_cmd_spec today uid text s)
    as (hours & s' & cancelled & Hparse & Hcmd & Ho & Ha & Hnd & Hc & _).
  exists hours, s', cancelled. split; [done|]. split; [done|].
  split; [done|]. split.
  { intros h Hh. rewrite Ha, bool_decide_eq_true_2 by done.
    apply applied_false, applied_filter. }
  split; [done|]. split; [|done].
  intros h. by rewrite Hc, applied_true.
Qed.

(** X18. For a user with no entry in the hours of the range, signing up
    and then cancelling the same range restores every applicant list, and
    the cancellation reports exactly the hours the sign-up registered. *)
Theorem signup_then_cancel_restores clock today app text s hours :
  parse_time_range text = Ok hours ->
  (forall h, h ∈ hours -> user_id app ∉ user_ids (applicants_at s today h)) ->
  exists s1 reply s2 cancelled,
    signup_cmd clock today app text s = Ok (s1, reply) /\
    cancel_cmd today (user_id app) text s1 = Ok (s2, cancelled) /\
    (forall d h, applicants_at s2 d h = applicants_at s d h) /\
    (forall h, h ∈ cancelled <-> h ∈ registered_hours reply).
Proof.
  intros Hparse Hfresh.
  destruct (signup_cmd_spec clock today app text s)
    as (hours1 & c & o & s1 & reply & Hparse1 & _ & Hcmd
        & (Hopen & _ & Ha & Hreply) & _).
  rewrite Hparse in Hparse1. injection Hparse1 as <-.
  destruct (cancel_cmd_spec today (user_id app) text s1)
    as (hours2 & s2 & cancelled & Hparse2 & Hcan & _ & Ha2 & _ & Hc & _).
  rewrite Hparse in Hparse2. injection Hparse2 as <-.
  exists s1, reply, s2, cancelled. split; [done|]. split; [done|].
  assert (Ho : forall h, h ∈ o -> h ∈ hours).
  { intros h Hh. apply Hopen in Hh as (j & r & Hj & _).
    by apply list_elem_of_lookup_2 in Hj. }
  split.
  - intros d h. rewrite Ha2, Ha.
    destruct (decide (d = today /\ h ∈ hours)) as [[-> Hin]|Hout].
    + rewrite (bool_decide_eq_true_2 (today = today /\ h ∈ hours)) by done.
      pose proof (Hfresh h Hin) as Hf. apply applied_false in Hf.
      rewrite Hf. cbn [negb]. rewrite andb_true_r.
      destruct (bool_decide (today = today /\ h ∈ o)).
      * rewrite filter_app, (filter_not_applied _ _ Hf).
        rewrite filter_cons, decide_False by (intros E; by apply E).
        by rewrite filter_nil, app_nil_r.
      * by apply filter_not_applied.
    + rewrite (bool_decide_eq_false_2 (d = today /\ h ∈ hours)) by done.
      rewrite bool_decide_eq_false_2; [done|].
      intros [-> Hin]. apply Hout. split; [done | by apply Ho].
  - intros h. rewrite Hc, Ha.
    assert (Hreg : h ∈ registered_hours reply <->
                   h ∈ o /\ applied (user_id app) (applicants_at s today h)
                             = false).
    { destruct reply as [|cs| |new]; cbn.
      - destruct Hreply as [-> _].
        split; [intros Hh; by apply elem_of_nil in Hh|].
        intros [Hin _]. apply Ho in Hin. by apply elem_of_nil in Hin.
      - done.
      - destruct Hreply as (_ & Happ & _).
        split; [intros Hh; by apply elem_of_nil in Hh|].
        intros [Hin E]. rewrite (Happ h Hin) in E. done.
      - destruct Hreply as (_ & _ & Hnew & _). apply Hnew. }
    rewrite Hreg. split.
    + intros [Hin Happ]. pose proof (Hfresh h Hin) as Hf.
      apply applied_false in Hf. rewrite Hf in Happ |- *.
      cbn [negb] in Happ. rewrite andb_true_r in Happ.
      destruct (decide (h ∈ o)); [done|].
      rewrite bool_decide_eq_false_2 in Happ by tauto. congruence.
    + intros [Hin Happ]. split; [by apply Ho|].
      rewrite Happ, bool_decide_eq_true_2 by done. cbn.
      apply applied_true. unfold user_ids. rewrite map_app.
      apply elem_of_app. right. cbn. left.
Qed.

Lemma signup_then_cancel_restores_witness :
  let clock := still now_7am "2024-04-27" in
  let today := "2024-04-27" in
  let app := applicant_B in
  let s := edited_schedule in
  exists s1 reply s2 cancelled,
    signup_cmd clock today app "08-12" s = Ok (s1, reply) /\
    cancel_cmd today (user_id app) "08-12" s1 = Ok (s2, cancelled) /\
    (forall d h, applicants_at s2 d h = applicants_at s d h) /\
    (forall h, h ∈ cancelled <-> h ∈ registered_hours reply).
Proof.
  intros clock today app s.
  apply (signup_then_cancel_restores clock today app "08-12" s
           ["08:00"; "09:00"; "10:00"; "11:00"]).
  - vm_compute. reflexivity.
  - intros h Hh. apply applied_false. revert h Hh. apply Forall_forall.
    repeat (constructor; [vm_compute; reflexivity|]). constructor.
Defined.

(** X19. When every applicant of an hour is the cancelling user, the
    cancellation empties the applicant list and reports the hour, but the
    assignment stored for the hour is left as it was: [refresh_schedule]
    skips an hour without applicants. *)
Theorem cancelled_last_applicant_stays_seated today uid text s hours h :
  parse_time_range text = Ok hours ->
  h ∈ hours ->
  applicants_at s today h <> [] ->
  (forall a, a ∈ applicants_at s today h -> user_id a = uid) ->
  exists s' cancelled,
    cancel_cmd today uid text s = Ok (s', cancelled) /\
    h ∈ cancelled /\
    applicants_at s' today h = [] /\
    shift_at s' today h = shift_at s today h.
Proof.
  intros Hparse Hh Hne Hall.
  destruct (cancel_cmd_spec today uid text s)
    as (hours' & s' & cancelled & Hparse' & Hcmd & _ & Ha & _ & Hc & Hs).
  rewrite Hparse in Hparse'. injection Hparse' as <-.
  exists s', cancelled. split; [done|].
  assert (Hempty : applicants_at s' today h = []).
  { rewrite Ha, bool_decide_eq_true_2 by done.
    induction (applicants_at s today h) as [|a l IH]; [done|].
    rewrite filter_cons, decide_False.
    - destruct l; [done|]. apply IH; [done|].
      intros b Hb. apply Hall. by right.
    - intros Hn. apply Hn, Hall. left. }
  split.
  - apply Hc. split; [done|]. apply applied_true.
    destruct (applicants_at s today h) as [|a l]; [done|].
    unfold user_ids. cbn [map]. rewrite <- (Hall a) by left. left.
  - split; [done|]. rewrite Hs, Hempty. by destruct cancelled.
Qed.

Lemma cancelled_last_applicant_stays_seated_witness :
  let today := "2024-04-27" in
  let s := refresh_schedule edited_schedule today in
  exists s' cancelled,
    cancel_cmd today "A" "08-09" s = Ok (s', cancelled) /\
    "08:00" ∈ cancelled /\
    applicants_at s' today "08:00" = [] /\
    shift_at s' today "08:00" = shift_at s today "08:00".
Proof.
  intros today s.
  apply (cancelled_last_applicant_stays_seated today "A" "08-09" s
           ["08:00"] "08:00").
  - vm_compute. reflexivity.
  - left.
  - vm_compute. discriminate.
  - intros a Ha. vm_compute in Ha.
    apply list_elem_of_singleton in Ha. by subst a.
Defined.

(** *** Refreshing and confirming *)

(** X12. Refreshing a day twice is refreshing it once; a refresh keeps
    every applicant list and every other day, keeps the assignment of an
    hour without applicants and gives an assignment to every hour with
    applicants. *)
Theorem refresh_schedule_is_idempotent s dt :
  refresh_schedule (refresh_schedule s dt) dt = refresh_schedule s dt /\
  (forall d h,
     applicants_at (refresh_schedule s dt) d h = applicants_at s d h) /\
  (forall d, d <> dt -> refresh_schedule s dt !! d = s !! d) /\
  (forall h, applicants_at s dt h = [] ->
     shift_at (refresh_schedule s dt) dt h = shift_at s dt h) /\
  (forall h, applicants_at s dt h <> [] ->
     is_Some (shift_at (refresh_schedule s dt) dt h)).
Proof.
  split; [apply refresh_schedule_idemp|].
  split; [apply refresh_schedule_applicants|].
  split; [apply refresh_schedule_other|].
  split.
  - intros h Hh. by rewrite refresh_schedule_shift, Hh.
  - intros h Hh. rewrite refresh_schedule_shift.
    destruct (applicants_at s dt h) as [|a l] eqn:E; [done|].
    by apply auto_assign_nonempty.
Qed.

Lemma confirm_slot_refresh today h sl :
  confirm_slot today h sl = refresh_slot today h sl.
Proof.
  unfold confirm_slot, refresh_slot, update_slot.
  destruct (sl_applicants sl) as [|a l] eqn:E.
  - cbn. by destruct sl; cbn in *; subst.
  - destruct (auto_assign_nonempty today h (a :: l)) as [sh Hsh]; [done|].
    by rewrite Hsh.
Qed.

Lemma fold_update_lookup (f : string -> slot -> slot) l : forall day k,
  NoDup l ->
  fold_left (fun day h => match day !! h with
                          | Some sl => <[h := f h sl]> day
                          | None => day
                          end) l day !! k
  = if decide (k ∈ l) then f k <$> day !! k else day !! k.
Proof.
  induction l as [|h rest IH]; intros day k Hnd.
  - cbn. rewrite decide_False; [done | apply not_elem_of_nil].
  - apply NoDup_cons in Hnd as [Hh Hnd]. cbn [fold_left].
    rewrite (IH _ k Hnd).
    destruct (decide (k = h)) as [->|Hk].
    + rewrite (decide_False (P := h ∈ rest)) by done.
      rewrite (decide_True (P := h ∈ h :: rest)) by left.
      destruct (day !! h) as [sl|] eqn:E.
      * by rewrite lookup_insert_eq.
      * by rewrite E.
    + assert (E : (match day !! h with
                   | Some sl => <[h := f h sl]> day
                   | None => day
                   end) !! k = day !! k).
      { destruct (day !! h); [by rewrite lookup_insert_ne | done]. }
      rewrite E.
      destruct (decide (k ∈ rest)) as [Hin|Hout].
      * by rewrite decide_True by (by right).
      * rewrite decide_False; [done|].
        intros Hin. apply elem_of_cons in Hin as [?|?]; done.
Qed.

Lemma TIME_SLOTS_NoDup : NoDup TIME_SLOTS.
Proof.
  unfold TIME_SLOTS. apply NoDup_fmap_2_strong; [|apply NoDup_seqZ].
  intros x y Hx Hy. apply time_slot_inj.
  - apply elem_of_range in Hx. lia.
  - apply elem_of_range in Hy. lia.
Qed.

(** X20. On a day that has an entry, the confirm command does to each of
    the 24 hours of [TIME_SLOTS] what [refresh_schedule] does, and leaves
    any other key of the day alone; when every key of the day is one of
    the 24 hours the two leave the same schedule. *)
Theorem confirm_is_refresh_on_time_slots s today day :
  s !! today = Some day ->
  exists s',
    confirm_cmd s today = Some s' /\
    (forall d, d <> today -> s' !! d = s !! d) /\
    (forall h,
       s' !! today ≫= (fun day => day !! h)
       = if decide (h ∈ TIME_SLOTS)
         then refresh_schedule s today !! today ≫= (fun day => day !! h)
         else day !! h) /\
    ((forall h, is_Some (day !! h) -> h ∈ TIME_SLOTS) ->
     s' = refresh_schedule s today).
Proof.
  intros Hday. unfold confirm_cmd. rewrite Hday. eexists. split; [done|].
  split. { intros d Hd. by rewrite lookup_insert_ne. }
  assert (Hlook : forall h,
    fold_left (fun day h => match day !! h with
                            | Some sl => <[h := confirm_slot today h sl]> day
                            | None => day
                            end) TIME_SLOTS day !! h
    = if decide (h ∈ TIME_SLOTS) then refresh_slot today h <$> day !! h
      else day !! h).
  { intros h.
    rewrite (fold_update_lookup (confirm_slot today) TIME_SLOTS day h
               TIME_SLOTS_NoDup).
    destruct (decide (h ∈ TIME_SLOTS)); [|done].
    destruct (day !! h); [|done]. cbn. by rewrite confirm_slot_refresh. }
  split.
  - intros h. rewrite lookup_insert_eq. cbn. rewrite Hlook.
    destruct (decide (h ∈ TIME_SLOTS)); [|done].
    rewrite refresh_schedule_slot, decide_True, Hday by done. done.
  - intros Hkeys. unfold refresh_schedule. rewrite Hday.
    apply (f_equal (fun m => <[today := m]> s)).
    apply map_eq. intros h. rewrite Hlook, map_lookup_imap.
    destruct (day !! h) as [sl|] eqn:E.
    + rewrite decide_True by (apply Hkeys; by rewrite E). done.
    + by destruct (decide (h ∈ TIME_SLOTS)).
Qed.

Lemma confirm_is_refresh_on_time_slots_witness :
  let s := edited_schedule in
  let today := "2024-04-27" in
  let day : gmap string slot := {[ "08:00" := edited_slot ]} in
  exists s',
    confirm_cmd s today = Some s' /\
    (forall d, d <> today -> s' !! d = s !! d) /\
    (forall h,
       s' !! today ≫= (fun day => day !! h)
       = if decide (h ∈ TIME_SLOTS)
         then refresh_schedule s today !! today ≫= (fun day => day !! h)
         else day !! h) /\
    ((forall h, is_Some (day !! h) -> h ∈ TIME_SLOTS) ->
     s' = refresh_schedule s today).
Proof.
  intros s today day.
  apply (confirm_is_refresh_on_time_slots s today day).
  vm_compute. reflexivity.
Defined.

(** *** Clearing the history *)

(** X21. Clearing the history keeps the slots of today and nothing else,
    and the number it reports is the number of days by which the schedule
    shrank; a today without slots counts as cleared. *)
Theorem reset_hours_keeps_today s today :
  let s' := (reset_hours s today).1 in
  let cleared := (reset_hours s today).2 in
  cleared = Z.of_nat (size s) - Z.of_nat (size s') /\
  0 <= cleared /\
  (forall d, d <> today -> s' !! d = None) /\
  (forall h, s' !! today ≫= (fun day => day !! h)
             = s !! today ≫= (fun day => day !! h)) /\
  (forall d h, is_Some (s' !! d ≫= (fun day => day !! h)) -> d = today).
Proof.
  unfold reset_hours. cbv zeta. cbn [fst snd].
  destruct (s !! today) as [day|] eqn:Hday; cbn [default].
  - destruct (decide (day = ∅)) as [->|Hne].
    + rewrite bool_decide_eq_true_2 by done. cbn [negb].
      rewrite map_size_empty.
      split; [lia|]. split; [lia|]. split; [done|].
      split. { intros h. by rewrite lookup_empty. }
      intros d h [x Hx]. by rewrite lookup_empty in Hx.
    + rewrite bool_decide_eq_false_2 by done. cbn [negb].
      rewrite map_size_singleton.
      assert (Hsz : (0 < size s)%nat).
      { destruct (decide (size s = 0%nat)) as [E|]; [|lia].
        apply map_size_empty_iff in E. subst s. by rewrite lookup_empty in Hday. }
      split; [lia|]. split; [lia|].
      split. { intros d Hd. by rewrite lookup_singleton_ne. }
      split. { intros h. by rewrite lookup_singleton_eq. }
      intros d h [x Hx]. destruct (decide (d = today)); [done|].
      by rewrite lookup_singleton_ne in Hx.
  - rewrite bool_decide_eq_true_2 by done. cbn [negb].
    rewrite map_size_empty.
    split; [lia|]. split; [lia|]. split; [done|].
    split. { intros h. by rewrite lookup_empty. }
    intros d h [x Hx]. by rewrite lookup_empty in Hx.
Qed.

End ScheduleCommandFacts.

(** ** Binary rounding *)

Module FloatFacts.
Import PyNum.









End FloatFacts.

(** ** The plan search *)

Module PlanSearchFacts.
Import PyNum Plans PyFacts PlanFacts SeatingFacts FloatFacts.

Lemma rank_lt_spec x y :
  rank_lt x y = true <->
  let a1 := if catchable x then -1 else 0 in
  let a2 := if catchable y then -1 else 0 in
  a1 < a2 \/ (a1 = a2 /\ (adj_plays x < adj_plays y \/
                          (adj_plays x = adj_plays y /\ - eph x < - eph y))).
Proof.
  unfold rank_lt, rank_key. cbv zeta.
  rewrite !orb_true_iff, !andb_true_iff, !orb_true_iff, !andb_true_iff.
  rewrite !Z.ltb_lt, !Z.eqb_eq. reflexivity.
Qed.

Lemma rank_lt_false x y :
  rank_lt x y = false <->
  let a1 := if catchable x then -1 else 0 in
  let a2 := if catchable y then -1 else 0 in
  a2 < a1 \/ (a1 = a2 /\ (adj_plays y < adj_plays x \/
                          (adj_plays x = adj_plays y /\ - eph y <= - eph x))).
Proof.
  rewrite <- not_true_iff_false, rank_lt_spec. cbv zeta.
  destruct (catchable x), (catchable y); lia.
Qed.

Lemma rank_lt_asym a b : rank_lt a b = true -> rank_lt b a = false.
Proof.
  rewrite rank_lt_spec, rank_lt_false. cbv zeta.
  destruct (catchable a), (catchable b); lia.
Qed.

Lemma rank_not_lt_trans a b c :
  rank_lt a b = false -> rank_lt b c = false -> rank_lt a c = false.
Proof.
  rewrite !rank_lt_false. cbv zeta.
  destruct (catchable a), (catchable b), (catchable c); lia.
Qed.

Lemma rank_lt_irrefl a : rank_lt a a = false.
Proof. apply rank_lt_false. cbv zeta. destruct (catchable a); lia. Qed.

Lemma ranks_before_catchable x y :
  catchable x = true -> catchable y = true ->
  rank_lt y x = false -> ranks_before x y.
Proof.
  intros Hx Hy. rewrite rank_lt_false. cbv zeta. rewrite Hx, Hy.
  unfold ranks_before. lia.
Qed.

Lemma select_tiers q items : select q items = energy_options q ≫= tier q items.
Proof. reflexivity. Qed.

Lemma pick_spec n L :
  StronglySorted (fun a b => rank_lt b a = false) L ->
  forall seen c,
    let t := pick n L seen c in
    (t = [] \/ Z.of_nat (length t) <= Z.max 1 (n - c)) /\
    NoDup (plan_key <$> t) /\
    (forall r, r ∈ t -> (plan_key r ∉ seen) /\ r ∈ L /\ catchable r = true) /\
    StronglySorted (fun a b => rank_lt b a = false) t /\
    (forall r, r ∈ L -> catchable r = true ->
       plan_key r ∈ seen \/
       (exists r', r' ∈ t /\ plan_key r' = plan_key r
                   /\ rank_lt r r' = false) \/
       (n <= c + Z.of_nat (length t) /\
        forall r', r' ∈ t -> rank_lt r r' = false)).
Proof.
  induction 1 as [|x L HL IH Hx]; intros seen c; cbn [pick].
  - cbv zeta. split; [by left|]. split; [constructor|].
    split; [intros r Hr; by apply elem_of_nil in Hr|].
    split; [constructor|].
    intros r Hr. by apply elem_of_nil in Hr.
  - destruct (catchable x) eqn:Hcx; cbn [negb].
    + fold (plan_key x). case_bool_decide as Hseen.
      * destruct (IH seen c) as (I1 & I2 & I3 & I4 & I5).
        cbv zeta. split; [done|]. split; [done|].
        split. { intros r Hr. destruct (I3 r Hr) as (? & ? & ?).
                 split; [done|]. split; [by right | done]. }
        split; [done|].
        intros r Hr Hc. apply elem_of_cons in Hr as [-> | Hr]; [by left|].
        by apply I5.
      * set (t' := if n <=? c + 1 then []
                   else pick n L ({[plan_key x]} ∪ seen) (c + 1)).
        assert (Ht' :
          (Z.of_nat (length t') <= Z.max 0 (n - c - 1)) /\
          NoDup (plan_key <$> t') /\
          (forall r, r ∈ t' -> plan_key r <> plan_key x /\
                     (plan_key r ∉ seen) /\ r ∈ L /\ catchable r = true) /\
          StronglySorted (fun a b => rank_lt b a = false) t' /\
          (forall r, r ∈ L -> catchable r = true ->
             plan_key r = plan_key x \/ plan_key r ∈ seen \/
             (exists r', r' ∈ t' /\ plan_key r' = plan_key r
                         /\ rank_lt r r' = false) \/
             (n <= c + 1 + Z.of_nat (length t') /\
              forall r', r' ∈ t' -> rank_lt r r' = false))).
        { subst t'. destruct (Z.leb_spec n (c + 1)) as [Hn|Hn].
          - split; [cbn; lia|]. split; [constructor|].
            split; [intros r Hr; by apply elem_of_nil in Hr|].
            split; [constructor|].
            intros r Hr Hc. right. right. right. split; [cbn; lia|].
            intros r' Hr'. by apply elem_of_nil in Hr'.
          - destruct (IH ({[plan_key x]} ∪ seen) (c + 1))
              as (I1 & I2 & I3 & I4 & I5). cbv zeta in *.
            split. { destruct I1 as [-> | I1]; [cbn; lia | lia]. }
            split; [done|].
            split.
            { intros r Hr. destruct (I3 r Hr) as (Hk & ? & ?).
              apply not_elem_of_union in Hk as [Hk1 Hk2].
              apply not_elem_of_singleton in Hk1. done. }
            split; [done|].
            intros r Hr Hc. destruct (I5 r Hr Hc) as [Hk | [Hk | Hk]].
            + apply elem_of_union in Hk as [Hk | Hk].
              * left. by apply elem_of_singleton in Hk.
              * right. by left.
            + right. right. by left.
            + right. right. by right. }
        destruct Ht' as (T1 & T2 & T3 & T4 & T5).
        cbv zeta. split.
        { right. cbn [length]. lia. }
        split.
        { cbn [fmap list_fmap]. apply NoDup_cons. split; [|done].
          intros Hin. apply list_elem_of_fmap in Hin as (r & Hk & Hr).
          destruct (T3 r Hr) as (Hne & _). by symmetry in Hk. }
        split.
        { intros r Hr. apply elem_of_cons in Hr as [-> | Hr].
          - split; [done|]. split; [left | done].
          - destruct (T3 r Hr) as (_ & ? & ? & ?).
            split; [done|]. split; [by right | done]. }
        split.
        { constructor; [done|]. apply Forall_forall. intros r Hr.
          destruct (T3 r Hr) as (_ & _ & HrL & _).
          by apply (proj1 (Forall_forall _ _) Hx). }
        intros r Hr Hc. apply elem_of_cons in Hr as [-> | Hr].
        { right. left. exists x. split; [left|]. split; [done|].
          apply rank_lt_irrefl. }
        pose proof (proj1 (Forall_forall _ _) Hx r Hr) as Hxr.
        destruct (T5 r Hr Hc) as [Hk | [Hk | [Hk | [Hk1 Hk2]]]].
        -- right. left. exists x. split; [left|]. done.
        -- by left.
        -- right. left. destruct Hk as (r' & Hr' & ? & ?).
           exists r'. split; [by right | done].
        -- right. right. split; [cbn [length]; lia|].
           intros r' Hr'. apply elem_of_cons in Hr' as [-> | Hr']; [done|].
           by apply Hk2.
    + destruct (IH seen c) as (I1 & I2 & I3 & I4 & I5).
      cbv zeta. split; [done|]. split; [done|].
      split. { intros r Hr. destruct (I3 r Hr) as (? & ? & ?).
               split; [done|]. split; [by right | done]. }
      split; [done|].
      intros r Hr Hc. apply elem_of_cons in Hr as [-> | Hr]; [congruence|].
      by apply I5.
Qed.

Lemma strongly_sorted_impl_on {A} (P : A -> Prop) (R S : A -> A -> Prop) l :
  (forall x y, P x -> P y -> R x y -> S x y) ->
  Forall P l -> StronglySorted R l -> StronglySorted S l.
Proof.
  intros HRS HP. induction 1 as [|x l Hl IH Hx]; [constructor|].
  apply Forall_cons in HP as [HPx HP].
  constructor; [by apply IH|].
  apply Forall_forall. intros y Hy.
  apply HRS; [done | by apply (proj1 (Forall_forall _ _) HP) |].
  by apply (proj1 (Forall_forall _ _) Hx).
Qed.

Lemma tier_spec q items e :
  Z.of_nat (length (tier q items e)) <= Z.max 1 (top_n q) /\
  NoDup (plan_key <$> tier q items e) /\
  Forall (fun r => r ∈ items /\ energy r = e /\ catchable r = true)
         (tier q items e) /\
  StronglySorted ranks_before (tier q items e) /\
  (forall r, r ∈ items -> energy r = e -> catchable r = true ->
     (exists r', r' ∈ tier q items e /\ plan_key r' = plan_key r /\
                 ranks_before r' r) \/
     (top_n q <= Z.of_nat (length (tier q items e)) /\
      forall r', r' ∈ tier q items e -> ranks_before r' r)).
Proof.
  unfold tier.
  pose proof (sorted_by_sorted rank_lt (by_energy items e)
                rank_lt_asym rank_not_lt_trans) as Hs.
  destruct (pick_spec (top_n q) _ Hs ∅ 0) as (P1 & P2 & P3 & P4 & P5).
  cbv zeta in *.
  set (t := pick (top_n q) (sorted_by rank_lt (by_energy items e)) ∅ 0) in *.
  assert (HL : forall r, r ∈ sorted_by rank_lt (by_energy items e) <->
                         r ∈ items /\ energy r = e).
  { intros r. rewrite sorted_by_perm. unfold by_energy.
    rewrite list_elem_of_filter. tauto. }
  assert (Hc : Forall (fun r => catchable r = true) t).
  { apply Forall_forall. intros r Hr. by apply P3. }
  split. { destruct P1 as [-> | P1]; [cbn; lia | lia]. }
  split; [done|].
  split.
  { apply Forall_forall. intros r Hr. destruct (P3 r Hr) as (_ & HrL & ?).
    apply HL in HrL as [? ?]. done. }
  split.
  { eapply (strongly_sorted_impl_on (fun r => catchable r = true));
      [|exact Hc|exact P4].
    intros x y Hx Hy Hxy. by apply ranks_before_catchable. }
  intros r Hr He Hcr.
  destruct (P5 r (proj2 (HL r) (conj Hr He)) Hcr) as [Hk | [Hk | [Hk1 Hk2]]].
  - by apply elem_of_empty in Hk.
  - left. destruct Hk as (r' & Hr' & Hkey & Hlt). exists r'.
    split; [done|]. split; [done|].
    apply ranks_before_catchable; [by apply P3 | done | done].
  - right. split; [lia|]. intros r' Hr'.
    apply ranks_before_catchable; [by apply P3 | done | by apply Hk2].
Qed.

(** *** What a plan says *)

Lemma find_push_plans_items db q results :
  find_push_plans db q = Ok results ->
  exists items, all_plans db q = Ok items /\ results = select q items.
Proof.
  unfold find_push_plans. destruct (all_plans db q) as [items|e]; [|done].
  rewrite bind_Ok. intros [= <-]. eauto.
Qed.

Lemma calc_ep_value_multiple lt_ sc rate bn b pw lf v :
  calc_ep_value lt_ sc rate bn b pw lf = Ok v -> (b | v).
Proof.
  unfold calc_ep_value. intros H.
  step H sp Hsp. step H r Hr. step H x Hx. step H b0 Hb0. step H b1 Hb1.
  step H y Hy. step H n Hn. injection H as <-. by exists n.
Qed.

(** The rounding of the floats shows in the values: with 200 base points,
    a rate of 100 and a bonus of 15 the product [200 * 1.0 * 1.15] is
    computed just below 230 and truncated to 229; a rate of 1.14 times a
    power of 300000 times 4 is computed just below 1368000; and 6.35, a
    float just below its decimal, is rounded to 6.3. *)
Lemma rounding_examples :
  calc_ep_value "multi" 1200000 (Int 100) (Int 15) 5 (Int 300000) (Int 1000)
  = Ok (229 * 5) /\
  calc_song_score
    [Int 30; Int 0; Flt (dec 114 (-2)); Int 0; Int 0; Int 0; Int 0; Int 0;
     Int 0; Int 0; Int 0] "multi" (Int 300000) f2_2 f2_2
  = Ok 1367999 /\
  round1 (Flt (dec 635 (-2))) = Ok (Flt (dec 63 (-1))).
Proof. repeat split; vm_compute; reflexivity. Qed.

(** X22. Every plan returned is computed from a song of the list that
    lasts more than zero seconds and from one of its difficulty arrays
    of at least 11 entries: it carries the id, title, length and rate of
    the song, the key and the first entry of the array, the score of the
    array, an energy of [energy_options] with its boost, points per play
    that are positive and a multiple of the boost, the repetitions
    [ceil(gap / ep)] and the stamina [plays * energy]; and it is
    catchable. *)
Theorem returned_plan_provenance db q results r :
  find_push_plans db q = Ok results -> r ∈ results ->
  exists sg darr,
    sg ∈ db /\ (diff r, darr) ∈ s_diffs sg /\
    le (s_time sg) (Int 0) = false /\ (11 <= length darr)%nat /\
    id r = s_id sg /\ title r = s_title sg /\ time r = s_time sg /\
    rate r = s_rate sg /\ lv r = nth 0 darr (Int 0) /\
    calc_song_score darr (live_type q) (power q) (skill_mag q) (s6 q)
    = Ok (score r) /\
    energy r ∈ energy_options q /\
    boost r = default 1 (ENERGY_MULTIPLIERS !! energy r) /\
    calc_ep_value (live_type q) (score r) (rate r) (bonus q) (boost r)
                  (power q) (life q) = Ok (ep r) /\
    0 < ep r /\ (boost r | ep r) /\
    plays_for q (Int (ep r)) = Ok (plays r) /\
    stamina r = plays r * energy r /\
    catchable r = true.
Proof.
  intros Hrun Hr.
  destruct (find_push_plans_items db q results Hrun) as (items & Hall & ->).
  apply select_elem in Hr as [Hr Hc].
  destruct (all_plans_inv db q items r Hall Hr)
    as (sg & dk & darr & sc & e & Hsg & Hd & He & Ht & Hlen & Hsc & Hmk).
  destruct (make_plan_inv _ _ _ _ _ _ _ Hmk)
    as (cycle & per_hour & eph_raw & tm & adj & Hep & Hpos & _ & _ & _ & _
        & Hplays & _ & _ & _ & _ & _ & _ & _ & Hti & Hid & Hdk & Hlv & Htime
        & Hrate & Hen & Hboost & Hst & Hscore).
  subst e dk sc. exists sg, darr.
  rewrite Hid, Hti, Htime, Hrate, Hboost.
  apply Nat.ltb_ge in Hlen.
  repeat (split; [done|]).
  split; [by eapply calc_ep_value_multiple|]. done.
Qed.

Lemma returned_plan_provenance_witness :
  let q := default_query (Int 50000) (Int 300000) (Int 0) in
  exists results r,
  find_push_plans sample_db q = Ok results /\ r ∈ results /\
  exists sg darr,
    sg ∈ sample_db /\ (diff r, darr) ∈ s_diffs sg /\
    le (s_time sg) (Int 0) = false /\ (11 <= length darr)%nat /\
    id r = s_id sg /\ title r = s_title sg /\ time r = s_time sg /\
    rate r = s_rate sg /\ lv r = nth 0 darr (Int 0) /\
    calc_song_score darr (live_type q) (power q) (skill_mag q) (s6 q)
    = Ok (score r) /\
    energy r ∈ energy_options q /\
    boost r = default 1 (ENERGY_MULTIPLIERS !! energy r) /\
    calc_ep_value (live_type q) (score r) (rate r) (bonus q) (boost r)
                  (power q) (life q) = Ok (ep r) /\
    0 < ep r /\ (boost r | ep r) /\
    plays_for q (Int (ep r)) = Ok (plays r) /\
    stamina r = plays r * energy r /\
    catchable r = true.
Proof.
  intros q. eexists _, _. split; [vm_compute; reflexivity|]. split; [left|].
  eapply (returned_plan_provenance sample_db q).
  - vm_compute. reflexivity.
  - left.
Defined.

(** *** Borders *)

(** X23. With a border speed of zero or less every candidate is
    catchable and its adjusted plays, time and stamina are the unadjusted
    ones. *)
Theorem stationary_border_changes_nothing db q items :
  lt (Int 0) (border_speed q) = false ->
  all_plans db q = Ok items ->
  (exists results,
     find_push_plans db q = Ok results /\
     forall r, r ∈ results -> r ∈ items) /\
  (forall r, r ∈ items ->
     catchable r = true /\ adj_plays r = plays r /\
     adj_time_min r = time_min r /\ adj_stamina r = stamina r).
Proof.
  intros Hb Hall. split.
  - unfold find_push_plans. rewrite Hall, bind_Ok.
    eexists. split; [reflexivity|]. intros r Hr.
    by apply select_elem in Hr as [Hr _].
  - intros r Hr.
    destruct (all_plans_inv db q items r Hall Hr)
      as (sg & dk & darr & sc & e & _ & _ & _ & _ & _ & _ & Hmk).
    destruct (make_plan_inv _ _ _ _ _ _ _ Hmk)
      as (cycle & per_hour & eph_raw & tm & adj & _ & _ & _ & _ & _ & _
          & _ & _ & Htm & Hadj & Hap & Hatm & Hast & Hc & _ & _ & _ & _ & _
          & _ & Hen & _ & Hst & _).
    unfold adjust in Hadj. rewrite Hb in Hadj. injection Hadj as <-.
    cbn in *. rewrite Htm in Hatm. injection Hatm as <-.
    rewrite Hst. done.
Qed.

Lemma stationary_border_changes_nothing_witness :
  let q := default_query (Int 50000) (Int 300000) (Int 0) in
  exists items,
  all_plans sample_db q = Ok items /\
  (exists results,
     find_push_plans sample_db q = Ok results /\
     forall r, r ∈ results -> r ∈ items) /\
  (forall r, r ∈ items ->
     catchable r = true /\ adj_plays r = plays r /\
     adj_time_min r = time_min r /\ adj_stamina r = stamina r).
Proof.
  intros q. eexists. split; [vm_compute; reflexivity|].
  apply (stationary_border_changes_nothing sample_db q).
  - vm_compute. reflexivity.
  - vm_compute. reflexivity.
Defined.

(** *** Errors *)

























(** *** The tiers of the result *)

(** X26. The result is the concatenation, in the order of
    [energy_options], of one tier per energy.  A tier has at most
    [max(1, top_n)] plans, all catchable and of that energy, no two for
    the same song and difficulty, in the order of fewer adjusted plays and
    then more points per hour; a catchable candidate of that energy left
    out is either outranked by a plan of the tier for the same song and
    difficulty, or the tier is full and all its plans outrank it. *)
Theorem find_push_plans_tiers db q items :
  all_plans db q = Ok items ->
  find_push_plans db q = Ok (energy_options q ≫= tier q items) /\
  forall e,
    Z.of_nat (length (tier q items e)) <= Z.max 1 (top_n q) /\
    NoDup (plan_key <$> tier q items e) /\
    Forall (fun r => r ∈ items /\ energy r = e /\ catchable r = true)
           (tier q items e) /\
    StronglySorted ranks_before (tier q items e) /\
    (forall r, r ∈ items -> energy r = e -> catchable r = true ->
       (exists r', r' ∈ tier q items e /\ plan_key r' = plan_key r /\
                   ranks_before r' r) \/
       (top_n q <= Z.of_nat (length (tier q items e)) /\
        forall r', r' ∈ tier q items e -> ranks_before r' r)).
Proof.
  intros Hall. split.
  - unfold find_push_plans. by rewrite Hall, bind_Ok.
  - intros e. apply tier_spec.
Qed.

Lemma find_push_plans_tiers_witness :
  let q := default_query (Int 50000) (Int 300000) (Int 0) in
  exists items,
  all_plans sample_db q = Ok items /\
  find_push_plans sample_db q = Ok (energy_options q ≫= tier q items) /\
  forall e,
    Z.of_nat (length (tier q items e)) <= Z.max 1 (top_n q) /\
    NoDup (plan_key <$> tier q items e) /\
    Forall (fun r => r ∈ items /\ energy r = e /\ catchable r = true)
           (tier q items e) /\
    StronglySorted ranks_before (tier q items e) /\
    (forall r, r ∈ items -> energy r = e -> catchable r = true ->
       (exists r', r' ∈ tier q items e /\ plan_key r' = plan_key r /\
                   ranks_before r' r) \/
       (top_n q <= Z.of_nat (length (tier q items e)) /\
        forall r', r' ∈ tier q items e -> ranks_before r' r)).
Proof.
  intros q. eexists. split; [vm_compute; reflexivity|].
  apply (find_push_plans_tiers sample_db q).
  vm_compute. reflexivity.
Defined.

End PlanSearchFacts.

(** ** The snapshot store *)

Module SnapshotStoreFacts.
Import Snapshots PyFacts SnapshotFacts.

Lemma add_border_key bs p :
  add_border bs p
  = match border_key p with
    | Some k => <[k := border_of p]> bs
    | None => bs
    end.
Proof.
  unfold add_border, border_key. destruct (pl_rank p) as [r|]; [|done].
  by destruct (r =? 0).
Qed.

Lemma fold_add_border_lookup ps : forall bs k,
  fold_left add_border ps bs !! k
  = match last (filter (fun p => border_key p = Some k) ps) with
    | Some p => Some (border_of p)
    | None => bs !! k
    end.
Proof.
  induction ps as [|p ps IH]; intros bs k; [done|].
  cbn [fold_left]. rewrite IH, filter_cons, add_border_key.
  destruct (decide (border_key p = Some k)) as [Hk|Hk].
  - rewrite Hk, lookup_insert_eq.
    destruct (filter _ ps) as [|p' l] eqn:E; [done|].
    change (last (p :: p' :: l)) with (last (p' :: l)).
    destruct (last (p' :: l)) eqn:E2; [done|].
    apply last_None in E2. discriminate.
  - destruct (last (filter _ ps)); [done|].
    destruct (border_key p) as [k'|]; [|done].
    rewrite lookup_insert_ne; [done | congruence].
Qed.

(** X27. The border stored under [str(r)] for a rank [r] other than zero
    is the name and score of the last player of the feed with that rank,
    and absent when no player has it. *)
Theorem snapshot_borders_last_wins t data r :
  r <> 0 ->
  snap_borders (make_snapshot t data) !! pretty r
  = border_of <$> last (filter (fun p => pl_rank p = Some r)
                               (top_100_player_rankings data)).
Proof.
  intros Hr. unfold make_snapshot. cbn [snap_borders].
  rewrite fold_add_border_lookup, lookup_empty.
  assert (E : filter (fun p => border_key p = Some (pretty r))
                     (top_100_player_rankings data)
              = filter (fun p => pl_rank p = Some r)
                       (top_100_player_rankings data)).
  { apply list_filter_iff. intros p. unfold border_key.
    destruct (pl_rank p) as [r'|]; [|done].
    destruct (Z.eqb_spec r' 0) as [->|Hr'].
    - split; [done|]. intros [= <-]. done.
    - split; [intros [= E%(inj pretty)]; by subst | intros [= ->]; done]. }
  rewrite E. by destruct (last _).
Qed.

Lemma snapshot_borders_last_wins_witness :
  snap_borders (make_snapshot "2024-04-27 10:00" sample_feed) !! pretty 1
  = border_of <$> last (filter (fun p => pl_rank p = Some 1)
                               (top_100_player_rankings sample_feed)).
Proof.
  apply (snapshot_borders_last_wins "2024-04-27 10:00" sample_feed 1). lia.
Defined.

(** X28. A failed fetch or an empty ranking leaves the store as it is.
    Otherwise the event name is updated; the records stay as they are
    when the last one belongs to the hour, and else the new record is
    appended and only the last 336 are kept, so that the store ends with
    the new record and holds [min(336, n+1)] records.  A store of at most
    336 records stays so. *)
Theorem snapshot_store_window status data now h :
  let h' := record_ranking_snapshot status data now h in
  let snap := make_snapshot (strftime_hour now) data in
  (status <> 200 \/ top_100_player_rankings data = [] -> h' = h) /\
  (status = 200 -> top_100_player_rankings data <> [] ->
     event_name h' = feed_name data /\
     (last_in_hour (strftime_hour now) (records h) = true ->
        records h' = records h) /\
     (last_in_hour (strftime_hour now) (records h) = false ->
        records h' = drop (length (records h) + 1 - 336) (records h ++ [snap])
        /\ length (records h') = Nat.min 336 (length (records h) + 1)
        /\ last (records h') = Some snap
        /\ (length (records h) < 336 -> records h' = records h ++ [snap])%nat))
  /\
  ((length (records h) <= 336)%nat -> (length (records h') <= 336)%nat).
Proof.
  cbv zeta. unfold record_ranking_snapshot.
  split; [|split].
  - intros [Hs | Hr].
    + apply Z.eqb_neq in Hs. by rewrite Hs.
    + rewrite Hr. by destruct (negb (status =? 200)).
  - intros -> Hne. cbn [Z.eqb negb Pos.eqb].
    destruct (top_100_player_rankings data) as [|p ps] eqn:Hps; [done|].
    cbv zeta. cbn [records event_name].
    destruct (last_in_hour (strftime_hour now) (records h)) eqn:Hl.
    + split; [done|]. split; [done|]. done.
    + rewrite length_app. cbn [length].
      set (snap := make_snapshot (strftime_hour now) data).
      assert (Hres :
        records (if (336 <? length (records h) + 1)%nat
                 then {| event_name := feed_name data;
                         records := drop (length (records h) + 1 - 336)
                                         (records h ++ [snap]) |}
                 else {| event_name := feed_name data;
                         records := records h ++ [snap] |})
        = drop (length (records h) + 1 - 336) (records h ++ [snap])).
      { destruct (Nat.ltb_spec 336 (length (records h) + 1)); [done|].
        cbn [records].
        replace (length (records h) + 1 - 336)%nat with 0%nat by lia. done. }
      split; [by destruct (336 <? _)%nat|].
      split; [done|]. intros _.
      rewrite Hres. split; [done|].
      split; [rewrite length_drop, length_app; cbn [length]; lia|].
      split.
      * rewrite drop_snoc by lia. apply last_snoc.
      * intros Hlt.
        replace (length (records h) + 1 - 336)%nat with 0%nat by lia. done.
  - intros Hlen.
    destruct (negb (status =? 200)); [done|].
    destruct (top_100_player_rankings data) as [|p ps] eqn:Hps; [done|].
    cbv zeta. cbn [records event_name].
    destruct (last_in_hour (strftime_hour now) (records h)); [done|].
    rewrite length_app. cbn [length].
    destruct (Nat.ltb_spec 336 (length (records h) + 1)); cbn [records].
    + rewrite length_drop, length_app. cbn [length]. lia.
    + rewrite length_app. cbn [length]. lia.
Qed.

End SnapshotStoreFacts.

(** ** The ranking chart *)

Module ChartFacts.
Import Snapshots Chart.

Lemma series_lengths b records :
  length (series b records).1 = length (series b records).2 /\
  (length (series b records).1 <= length records)%nat.
Proof.
  unfold series.
  assert (H : forall st : list string * list Q,
    let st' := fold_left (fun st rec =>
               match snap_borders rec !! b with
               | Some bd => (st.1 ++ [snap_time rec],
                             st.2 ++ [(inject_Z (b_score bd) / 10000)%Q])
               | None => st
               end) records st in
    length st.1 = length st.2 ->
    length st'.1 = length st'.2 /\
    (length st'.1 <= length st.1 + length records)%nat).
  { induction records as [|rec records IH]; intros st st' Hst.
    - subst st'. cbn. split; [done | lia].
    - subst st'. cbn [fold_left length].
      destruct (snap_borders rec !! b) as [bd|].
      + edestruct (IH (st.1 ++ [snap_time rec],
                       st.2 ++ [(inject_Z (b_score bd) / 10000)%Q]))
          as [H1 H2].
        { cbn [fst snd]. rewrite !length_app. cbn. lia. }
        split; [exact H1|]. cbn [fst] in H2. rewrite length_app in H2.
        cbn in H2. lia.
      + destruct (IH st Hst) as [H1 H2]. split; [exact H1 | lia]. }
  destruct (H ([], []) eq_refl) as [H1 H2]. split; [exact H1|].
  cbn in H2. exact H2.
Qed.

Lemma chart_fold_spec records borders : forall st,
  Forall (fun d => (2 <= length (d_values d) <= length st.2)%nat) st.1 ->
  (st.1 = [] /\ st.2 = [] \/
   exists d, d ∈ st.1 /\ length (d_values d) = length st.2) ->
  let st' := fold_left (chart_step records) borders st in
  Forall (fun d => (2 <= length (d_values d) <= length st'.2)%nat) st'.1 /\
  (st'.1 = [] /\ st'.2 = [] \/
   exists d, d ∈ st'.1 /\ length (d_values d) = length st'.2) /\
  (length st'.1 <= length st.1 + length borders)%nat /\
  (length st'.2 <= Nat.max (length st.2) (length records))%nat.
Proof.
  induction borders as [|b borders IH]; intros st HF Hmax.
  - cbn. split; [done|]. split; [done|]. lia.
  - cbn [fold_left]. cbv zeta.
    set (st1 := chart_step records st b).
    assert (H1 :
      Forall (fun d => (2 <= length (d_values d) <= length st1.2)%nat) st1.1
      /\ (st1.1 = [] /\ st1.2 = [] \/
          exists d, d ∈ st1.1 /\ length (d_values d) = length st1.2)
      /\ (length st1.1 <= length st.1 + 1)%nat
      /\ (length st1.2 <= Nat.max (length st.2) (length records))%nat).
    { subst st1. unfold chart_step.
      destruct (series_lengths b records) as [Hlen Hle].
      destruct (series b records) as [ts ss]. cbn [fst snd] in Hlen, Hle.
      destruct (Nat.leb_spec 2 (length ts)) as [H2|H2].
      - cbn [fst snd].
        destruct (Nat.ltb_spec (length st.2) (length ts)) as [Hlt|Hge].
        + split.
          { apply Forall_app. split.
            - eapply Forall_impl; [exact HF|]. cbn. intros d Hd. lia.
            - constructor; [cbn; lia | constructor]. }
          split.
          { right. eexists. split; [apply elem_of_app; right; left|].
            cbn. lia. }
          rewrite length_app. cbn. lia.
        + split.
          { apply Forall_app. split; [exact HF|].
            constructor; [cbn; lia | constructor]. }
          split.
          { right. destruct Hmax as [[E1 E2] | (d & Hd & Hdl)].
            - rewrite E2 in Hge. cbn in Hge. lia.
            - exists d. split; [apply elem_of_app; by left | done]. }
          rewrite length_app. cbn. lia.
      - split; [done|]. split; [done|]. lia. }
    destruct H1 as (A1 & A2 & A3 & A4).
    destruct (IH st1 A1 A2) as (B1 & B2 & B3 & B4). cbv zeta in *.
    split; [done|]. split; [done|]. cbn [length]. lia.
Qed.

(** X29. The ranking chart is drawn only from at least two records of the
    event; it holds between one and seven series (one when a rank is
    asked for), each of at least two points, and its time axis has as
    many labels as the longest series, and no more than there are
    records. *)
Theorem chart_axis_fits_longest_series records rank event_name :
  ((length records < 2)%nat ->
     create_ranking_chart records rank event_name = None) /\
  (forall ch, create_ranking_chart records rank event_name = Some ch ->
     (1 <= length (ch_datasets ch) <= 7)%nat /\
     (is_Some (given_rank rank) -> length (ch_datasets ch) = 1%nat) /\
     Forall (fun d => (2 <= length (d_values d)
                       <= length (ch_x_labels ch))%nat) (ch_datasets ch) /\
     (exists d, d ∈ ch_datasets ch /\
                length (d_values d) = length (ch_x_labels ch)) /\
     (length (ch_x_labels ch) <= length records)%nat).
Proof.
  unfold create_ranking_chart. split.
  - intros H. apply Nat.ltb_lt in H. by rewrite H.
  - intros ch.
    destruct (length records <? 2)%nat; [discriminate|]. cbv zeta.
    set (recs := match given_name event_name with
                 | Some e => filter (fun r => snap_event r = e) records
                 | None => records
                 end).
    assert (Hrecs : (length recs <= length records)%nat).
    { subst recs. destruct (given_name event_name); [|done].
      apply length_filter. }
    destruct (length recs <? 2)%nat; [discriminate|].
    set (borders := match given_rank rank with
                    | Some r => [pretty r]
                    | None => map pretty TRACKED_RANKS
                    end).
    assert (Hb : (length borders <= 7)%nat /\
                 (is_Some (given_rank rank) -> length borders = 1%nat)).
    { subst borders. destruct (given_rank rank).
      - cbn. split; [lia | done].
      - cbn. split; [lia|]. intros [? ?]. done. }
    destruct (chart_fold_spec recs borders ([], []))
      as (F1 & F2 & F3 & F4); [constructor | by left |].
    cbv zeta in *. cbn [fst snd length] in F3, F4.
    destruct (fold_left (chart_step recs) borders ([], [])) as [ds lt].
    cbn [fst snd] in *.
    destruct ds as [|d ds]; [discriminate|].
    intros [= <-]. cbn [ch_datasets ch_x_labels].
    rewrite length_map.
    split; [cbn [length] in *; lia|].
    split; [intros Hr; apply Hb in Hr; cbn [length] in *; lia|].
    split; [done|].
    split; [|lia].
    destruct F2 as [[? ?] | ?]; [done | done].
Qed.

End ChartFacts.

(** ** The colour references *)

Module RenderServerFacts.
Import RenderServer.

Lemma json_induction (P : json -> Prop) :
  P JNull -> (forall b, P (JBool b)) -> (forall n, P (JInt n)) ->
  (forall x, P (JFloat x)) -> (forall s, P (JStr s)) ->
  (forall l, Forall P l -> P (JList l)) ->
  (forall d, Forall (fun kv => P kv.2) d -> P (JDict d)) ->
  forall obj, P obj.
Proof.
  intros Hnull Hbool Hint Hfloat Hstr Hlist Hdict.
  fix IH 1.
  intros [| | | | |l|d];
    [exact Hnull | apply Hbool | apply Hint | apply Hfloat | apply Hstr | |].
  - apply Hlist. induction l as [|x l IHl]; constructor; [apply IH | exact IHl].
  - apply Hdict. induction d as [|[k v] d IHd]; constructor;
      [apply IH | exact IHd].
Qed.

Lemma colours_are_not_references k c :
  THEME_COLORS !! k = Some c -> is_reference c = false.
Proof.
  assert (H : map_Forall (fun _ c => is_reference c = false) THEME_COLORS).
  { apply map_Forall_to_list. vm_compute.
    repeat (constructor; [reflexivity|]). constructor. }
  apply H.
Qed.

Lemma resolved_idemp s : resolved (resolved s) = resolved s.
Proof.
  assert (E : resolved s = s \/
              exists c, THEME_COLORS !! attr_of s = Some c /\ resolved s = c).
  { unfold resolved. destruct (is_reference s); [|by left].
    destruct (THEME_COLORS !! attr_of s) as [c|]; [right; eauto | by left]. }
  destruct E as [E | (c & Hc & ->)]; [by rewrite !E|].
  unfold resolved. by rewrite (colours_are_not_references _ _ Hc).
Qed.

Lemma resolve_str s : resolve_colors_deep (JStr s) = JStr (resolved s).
Proof.
  cbn [resolve_colors_deep]. unfold resolved, resolve_color.
  destruct (is_reference s); [|done].
  by destruct (THEME_COLORS !! attr_of s).
Qed.

(** X30. Resolving the colour references of a request keeps its shape
    and its keys, and replaces each string by its resolution: a
    reference ["Theme.NAME"] to an attribute of [Theme] by the colour, any
    other string by itself.  No resolved colour is a reference, so
    resolving twice is resolving once. *)
Theorem resolve_colors_deep_resolves_once obj :
  skeleton (resolve_colors_deep obj) = skeleton obj /\
  strings_of (resolve_colors_deep obj) = map resolved (strings_of obj) /\
  resolve_colors_deep (resolve_colors_deep obj) = resolve_colors_deep obj /\
  Forall (fun s => is_reference s = true ->
                   THEME_COLORS !! attr_of s = None)
         (strings_of (resolve_colors_deep obj)).
Proof.
  assert (Hmain :
    skeleton (resolve_colors_deep obj) = skeleton obj /\
    strings_of (resolve_colors_deep obj) = map resolved (strings_of obj) /\
    resolve_colors_deep (resolve_colors_deep obj) = resolve_colors_deep obj).
  { induction obj as [| | | |s|l IH|d IH] using json_induction;
      try (split; [|split]; reflexivity).
    - rewrite resolve_str. split; [done|]. split; [done|].
      by rewrite resolve_str, resolved_idemp.
    - cbn [resolve_colors_deep skeleton strings_of].
      rewrite !map_map.
      split; [|split].
      + f_equal. apply map_ext_Forall.
        eapply Forall_impl; [exact IH|]. cbn. tauto.
      + induction IH as [|x l (_ & Hx & _) _ IHl]; [done|].
        cbn [map concat]. by rewrite map_app, Hx, IHl.
      + f_equal. apply map_ext_Forall.
        eapply Forall_impl; [exact IH|]. cbn. tauto.
    - cbn [resolve_colors_deep skeleton strings_of].
      rewrite !map_map. cbn [fst snd].
      split; [|split].
      + f_equal. apply map_ext_Forall.
        eapply Forall_impl; [exact IH|]. cbn. intros kv (-> & _). done.
      + induction IH as [|x l (_ & Hx & _) _ IHl]; [done|].
        cbn [map concat]. by rewrite map_app, Hx, IHl.
      + f_equal. apply map_ext_Forall.
        eapply Forall_impl; [exact IH|]. cbn. intros kv (_ & _ & ->). done. }
  destruct Hmain as (H1 & H2 & H3). split; [done|]. split; [done|].
  split; [done|].
  rewrite H2. apply Forall_forall. intros s Hs.
  apply list_elem_of_fmap in Hs as (s0 & -> & _).
  unfold resolved. destruct (is_reference s0) eqn:Hr.
  - destruct (THEME_COLORS !! attr_of s0) as [c|] eqn:Hc; cbn [default].
    + intros E. cbv [id] in E.
      by rewrite (colours_are_not_references _ _ Hc) in E.
    + done.
  - congruence.
Qed.

End RenderServerFacts.
